(** * A shallow embedding of the SR-DATABASE backend (src/server.ts)

    The backend is a set of Express route handlers over one SQLite file
    opened through better-sqlite3.  We model:
    - the five tables of the schema as lists of rows kept in rowid order,
      each with its AUTOINCREMENT sequence counter;
    - the foreign keys [client_id REFERENCES clients(id) ON DELETE CASCADE]
      of services, payments, tasks and transactions, enforced (the SQLite
      bundled with better-sqlite3 is built with foreign keys on by default);
    - every handler as a program in a small state/error monad that also
      records the trace of SQL statements it issues, with [db.transaction]
      as a combinator that rolls the state back on an error.

    REAL columns are modelled by exact integers (Z).  JavaScript numbers,
    where the handlers compute with them (the statistics trend) or hand a
    stored value to [res.json], are IEEE 754 doubles, as Rocq's SpecFloat
    specifies them.  A DATE or DATETIME column has NUMERIC affinity: a row
    keeps the text the handler bound, and SQLite stores, compares and
    returns the value [numeric_affinity] reads from it.  [CURRENT_TIMESTAMP]
    is the [clock] field of the database state; the string-to-double
    conversion of the SQLite build ([sqlite3AtoF]) is the parameter [atof]
    of the read handlers. *)

From Stdlib Require Import ZArith QArith Qround Qabs String Ascii List Bool Sorted Lia.
From Stdlib Require Import RelationClasses Permutation.
From Stdlib Require Import Floats.SpecFloat.
Import ListNotations.
Open Scope string_scope.
Open Scope list_scope.
Open Scope Z_scope.

(** ** Doubles and decimal digits *)

(** JavaScript numbers and SQLite REAL values are binary64 doubles. *)
Definition prec : Z := 53.
Definition emax : Z := 1024.

(** The double nearest to an integer (ties to even), as [Number(i)] or
    the C cast [(double)i] gives it. *)
Definition js_number (z : Z) : spec_float := binary_normalize prec emax z 0 false.

(** [a - b], [a / b] and [a * b] on numbers. *)
Definition js_sub : spec_float -> spec_float -> spec_float := SFsub prec emax.
Definition js_div : spec_float -> spec_float -> spec_float := SFdiv prec emax.
Definition js_mul : spec_float -> spec_float -> spec_float := SFmul prec emax.

(** The exact value [m * 2^e] of a positive finite double. *)
Definition sf_mag (m : positive) (e : Z) : Q :=
  match e with
  | Zneg p => Qmake (Zpos m) (Pos.pow 2 p)
  | _ => inject_Z (Zpos m * 2 ^ e)
  end.

(** The exact value of a finite double; 0 for the others. *)
Definition sf_value (x : spec_float) : Q :=
  match x with
  | S754_finite s m e => if s then Qopp (sf_mag m e) else sf_mag m e
  | _ => 0%Q
  end.

(** Zeros and finite doubles. *)
Definition sf_is_finite (x : spec_float) : bool :=
  match x with S754_zero _ | S754_finite _ _ _ => true | _ => false end.

(** Decimal digits of a natural number, most significant first; the fuel
  is the bit length of [n], which bounds its decimal length. *)
Fixpoint digits_fuel (fuel : nat) (n : Z) : list Z :=
match fuel with
| O => [n]
| S f => if n <? 10 then [n] else digits_fuel f (n / 10) ++ [n mod 10]
end.
Definition digits (n : Z) : list Z := digits_fuel (S (Z.to_nat (Z.log2 n))) n.

Definition digit_char (x : Z) : ascii := ascii_of_nat (48 + Z.to_nat x).
Definition digits_str (l : list Z) : string :=
fold_right (fun x s => String (digit_char x) s) EmptyString l.

(** Numerical value of a digit list. *)
Definition digits_value (l : list Z) : Z :=
fold_left (fun acc x => acc * 10 + x) l 0.

Fixpoint drop_zeros (l : list Z) : list Z :=
match l with
| 0 :: l' => drop_zeros l'
| _ => l
end.

(** ** SQLite values and NUMERIC affinity *)

(** The storage classes of a value (the schema stores no BLOB). *)
Inductive sval := VNull | VInt (i : Z) | VReal (r : spec_float) | VText (s : string).

(** [sqlite3Isspace] and [sqlite3Isdigit] *)
Definition is_space (c : ascii) : bool :=
  let n := nat_of_ascii c in ((n =? 32) || ((9 <=? n) && (n <=? 13)))%nat.
Definition digit_of (c : ascii) : option Z :=
  let n := nat_of_ascii c in
  if ((48 <=? n) && (n <=? 57))%nat then Some (Z.of_nat n - 48) else None.

Fixpoint skip_spaces (l : list ascii) : list ascii :=
  match l with
  | c :: r => if is_space c then skip_spaces r else l
  | [] => []
  end.

Fixpoint take_digits (l : list ascii) : list Z * list ascii :=
  match l with
  | c :: r =>
      match digit_of c with
      | Some x => let '(ds, r') := take_digits r in (x :: ds, r')
      | None => ([], l)
      end
  | [] => ([], [])
  end.

Definition take_sign (l : list ascii) : bool * list ascii :=
  match l with
  | "-"%char :: r => (true, r)
  | "+"%char :: r => (false, r)
  | _ => (false, l)
  end.

(** A numeric literal: sign, integer digits, fraction digits after a
    point, exponent. *)
Record literal := mkLiteral {
  lit_neg : bool; lit_int : list Z; lit_frac : option (list Z);
  lit_exp : option (bool * list Z) }.

(** The text [sqlite3AtoF] reads in full as a number: spaces, an optional
    sign, digits, an optional point with digits, an optional exponent
    ([e] or [E], an optional sign, at least one digit), spaces; at least
    one digit before or after the point. *)
Definition parse_literal (s : string) : option literal :=
  let '(neg, l) := take_sign (skip_spaces (list_ascii_of_string s)) in
  let '(ds, l) := take_digits l in
  let '(frac, l) :=
    match l with
    | "."%char :: r => let '(fs, r') := take_digits r in (Some fs, r')
    | _ => (None, l)
    end in
  let '(ex, l) :=
    match l with
    | c :: r =>
        if (Ascii.eqb c "e" || Ascii.eqb c "E")%char then
          let '(eneg, r) := take_sign r in
          let '(es, r') := take_digits r in (Some (eneg, es), r')
        else (None, l)
    | [] => (None, [])
    end in
  let nd := (length ds + match frac with Some fs => length fs | None => 0 end)%nat in
  let exp_ok := match ex with Some (_, []) => false | _ => true end in
  if (Nat.eqb nd 0 || negb exp_ok || negb (forallb is_space l))%bool then None
  else Some (mkLiteral neg ds frac ex).

(** [sqlite3VdbeIntegerAffinity]: a REAL that is an integer strictly
    between the smallest and the largest 64-bit integer becomes INTEGER. *)
Definition real_affinity (r : spec_float) : sval :=
  match r with
  | S754_zero _ => VInt 0
  | S754_finite _ _ _ =>
      let q := sf_value r in
      let i := Qfloor q in
      if Qeq_bool (inject_Z i) q && (- 2 ^ 63 <? i) && (i <? 2 ^ 63 - 1) then VInt i
      else VReal r
  | _ => VReal r
  end.

(** [alsoAnInt] for a literal without point or exponent: the double read
    if it is an integer of magnitude below 2^51 ([sqlite3RealSameAsInt]),
    else the literal's value [v] if it fits in 64 bits ([sqlite3Atoi64]). *)
Definition also_an_int (r : spec_float) (v : Z) : option Z :=
  let q := sf_value r in
  let i := Qfloor q in
  match r with
  | S754_zero _ => Some 0
  | S754_finite _ _ _ =>
      if Qeq_bool (inject_Z i) q && (- 2 ^ 51 <=? i) && (i <? 2 ^ 51) then Some i
      else if (- 2 ^ 63 <=? v) && (v <? 2 ^ 63) then Some v else None
  | _ => if (- 2 ^ 63 <=? v) && (v <? 2 ^ 63) then Some v else None
  end.

(** [applyNumericAffinity(pRec, 1)], which storing a text into a NUMERIC
    column applies: a literal without point or exponent that fits in 64
    bits becomes INTEGER; another literal becomes the double [atof] reads,
    INTEGER when that double is an integer in range; any other text stays
    TEXT. *)
Definition numeric_affinity (atof : string -> spec_float) (s : string) : sval :=
  match parse_literal s with
  | None => VText s
  | Some (mkLiteral neg ds None None) =>
      match also_an_int (atof s) ((if neg then -1 else 1) * digits_value ds) with
      | Some i => VInt i
      | None => real_affinity (atof s)
      end
  | Some _ => real_affinity (atof s)
  end.

(** The value stored in a NUMERIC column for the bound text or NULL. *)
Definition col_val (atof : string -> spec_float) (o : option string) : sval :=
  match o with
  | None => VNull
  | Some s => numeric_affinity atof s
  end.

(** Numbers on the extended real line. *)
Inductive xreal := XNegInf | XFin (q : Q) | XPosInf.

Definition xreal_of (r : spec_float) : option xreal :=
  match r with
  | S754_nan => None
  | S754_infinity s => Some (if s then XNegInf else XPosInf)
  | _ => Some (XFin (sf_value r))
  end.

Definition xcmp (a b : xreal) : comparison :=
  match a, b with
  | XNegInf, XNegInf | XPosInf, XPosInf => Eq
  | XNegInf, _ | _, XPosInf => Lt
  | _, XNegInf | XPosInf, _ => Gt
  | XFin x, XFin y => Qcompare x y
  end.

(** [if (a < b) return -1; if (a > b) return +1; return 0]: a NaN is
    neither below nor above anything. *)
Definition num_cmp (a b : option xreal) : comparison :=
  match a, b with
  | Some x, Some y => xcmp x y
  | _, _ => Eq
  end.

(** [sqlite3MemCompare] with the BINARY collation: NULL first, then
    numbers by value (INTEGER against REAL exactly, as
    [sqlite3IntFloatCompare]), then text by bytes. *)
Definition sval_cmp (a b : sval) : comparison :=
  match a, b with
  | VNull, VNull => Eq
  | VNull, _ => Lt
  | _, VNull => Gt
  | VInt i, VInt j => Z.compare i j
  | VInt i, VReal r => num_cmp (Some (XFin (inject_Z i))) (xreal_of r)
  | VReal r, VInt j => num_cmp (xreal_of r) (Some (XFin (inject_Z j)))
  | VReal r, VReal r' => num_cmp (xreal_of r) (xreal_of r')
  | VText _, (VInt _ | VReal _) => Gt
  | (VInt _ | VReal _), VText _ => Lt
  | VText x, VText y => String.compare x y
  end.

(** A decimal [m * 10^e] rounded to the nearest double, ties to even. *)
Definition dec_to_double (neg : bool) (m e : Z) : spec_float :=
  if m =? 0 then S754_zero neg else
  if 0 <=? e then binary_normalize prec emax ((if neg then -1 else 1) * m * 10 ^ e) 0 neg
  else
    let '(q, e', l) := SFdiv_core_binary prec emax m 0 (10 ^ (- e)) 0 in
    binary_round_aux prec emax neg q e' l.

(** A reading of numeric literals rounded to nearest, with the exponent
    capped at 10000 as [sqlite3AtoF] caps it; the sample states use it. *)
Definition atof_nearest (s : string) : spec_float :=
  match parse_literal s with
  | None => S754_zero false
  | Some (mkLiteral neg ds frac ex) =>
      let fs := match frac with Some fs => fs | None => [] end in
      let e := match ex with
               | Some (eneg, es) => (if eneg then -1 else 1) * Z.min 10000 (digits_value es)
               | None => 0
               end in
      dec_to_double neg (digits_value (ds ++ fs)) (e - Z.of_nat (length fs))
  end.

(** ** Rows of the five tables (schema of lines 13-62) *)

Module Client.
Record row := mk {
  id : Z; name : string; email : option string; phone : option string;
  company : option string; notes : option string;
  managed_by : option string; status : option string;
  created_at : option string }.
End Client.

Module Service.
Record row := mk {
  id : Z; client_id : option Z; service_type : string; price : Z }.
End Service.

Module Payment.
Record row := mk {
  id : Z; client_id : option Z; total_amount : Z; advance_paid : Z;
  remaining_balance : Z; last_updated : option string }.
End Payment.

Module Task.
Record row := mk {
  id : Z; client_id : option Z; title : string;
  assigned_to : option string; due_date : option string;
  status : option string; created_at : option string }.
End Task.

Module Txn.
Record row := mk {
  id : Z; client_id : option Z; amount : Z; type : option string;
  created_at : option string }.
End Txn.

(** Rows with a surrogate key and rows that reference a client. *)
Class HasId (R : Type) := row_id : R -> Z.
Class HasClient (R : Type) := row_client : R -> option Z.

#[global] Instance client_id_inst : HasId Client.row := Client.id.
#[global] Instance service_id_inst : HasId Service.row := Service.id.
#[global] Instance payment_id_inst : HasId Payment.row := Payment.id.
#[global] Instance task_id_inst : HasId Task.row := Task.id.
#[global] Instance txn_id_inst : HasId Txn.row := Txn.id.
#[global] Instance service_cl_inst : HasClient Service.row := Service.client_id.
#[global] Instance payment_cl_inst : HasClient Payment.row := Payment.client_id.
#[global] Instance task_cl_inst : HasClient Task.row := Task.client_id.
#[global] Instance txn_cl_inst : HasClient Txn.row := Txn.client_id.

(** ** Tables: rows in rowid order and the [sqlite_sequence] entry *)

Record table (R : Type) := mkTable { rows : list R; seq : Z }.
Arguments mkTable {R} _ _.
Arguments rows {R} _.
Arguments seq {R} _.

Section Table.
Context {R : Type} `{HasId R}.

Definition id_in (k : Z) (l : list R) : bool :=
  existsb (fun r => row_id r =? k) l.

(** Sorted insertion by rowid: [SELECT *] returns rows in rowid order. *)
Fixpoint ins_by_id (r : R) (l : list R) : list R :=
  match l with
  | [] => [r]
  | x :: l' => if row_id r <? row_id x then r :: l else x :: ins_by_id r l'
  end.

(** AUTOINCREMENT: one more than the largest rowid ever used. *)
Definition next_id (t : table R) : Z :=
  1 + fold_left Z.max (map row_id (rows t)) (seq t).

(** INSERT with the rowid given; fails on a PRIMARY KEY clash. *)
Definition tbl_insert (t : table R) (r : R) : option (table R) :=
  if id_in (row_id r) (rows t) then None
  else Some (mkTable (ins_by_id r (rows t)) (Z.max (seq t) (row_id r))).

Definition tbl_filter (p : R -> bool) (t : table R) : table R :=
  mkTable (filter p (rows t)) (seq t).

Definition tbl_map (f : R -> R) (t : table R) : table R :=
  mkTable (map f (rows t)) (seq t).
End Table.

(** ** The database *)

Record db := mkDb {
  clients : table Client.row;
  services : table Service.row;
  payments : table Payment.row;
  tasks : table Task.row;
  transactions : table Txn.row;
  clock : string  (* CURRENT_TIMESTAMP *) }.

Definition set_clients d t :=
  mkDb t (services d) (payments d) (tasks d) (transactions d) (clock d).
Definition set_services d t :=
  mkDb (clients d) t (payments d) (tasks d) (transactions d) (clock d).
Definition set_payments d t :=
  mkDb (clients d) (services d) t (tasks d) (transactions d) (clock d).
Definition set_tasks d t :=
  mkDb (clients d) (services d) (payments d) t (transactions d) (clock d).
Definition set_transactions d t :=
  mkDb (clients d) (services d) (payments d) (tasks d) t (clock d).

Definition client_exists (d : db) (k : Z) : bool := id_in k (rows (clients d)).

(** Foreign-key check on the [client_id] of an inserted child row. *)
Definition fk_ok (d : db) (ck : option Z) : bool :=
  match ck with None => true | Some k => client_exists d k end.

Definition refs {R} `{HasClient R} (k : Z) (r : R) : bool :=
  match row_client r with Some k' => k' =? k | None => false end.

Definition refs_some {R} `{HasClient R} (gone : Z -> bool) (r : R) : bool :=
  match row_client r with Some k => gone k | None => false end.

(** DELETE FROM clients WHERE p, with ON DELETE CASCADE into the four
    child tables. *)
Definition delete_clients_where (p : Client.row -> bool) (d : db) : db :=
  let gone k := existsb (fun c => p c && (Client.id c =? k)) (rows (clients d)) in
  mkDb (tbl_filter (fun c => negb (p c)) (clients d))
       (tbl_filter (fun r => negb (refs_some gone r)) (services d))
       (tbl_filter (fun r => negb (refs_some gone r)) (payments d))
       (tbl_filter (fun r => negb (refs_some gone r)) (tasks d))
       (tbl_filter (fun r => negb (refs_some gone r)) (transactions d))
       (clock d).

(** ** A state/error monad with a statement trace *)

Inductive op := OSel | OIns | OUpd | ODel.
Inductive tname := TClients | TServices | TPayments | TTasks | TTransactions.
Definition tag : Type := op * tname.

Inductive result (A : Type) := Ok (a : A) | Err (e : string).
Arguments Ok {A} _.
Arguments Err {A} _.

Definition M (A : Type) : Type := db -> result A * db * list tag.

Definition ret {A} (a : A) : M A := fun d => (Ok a, d, []).

Definition bind {A B} (m : M A) (k : A -> M B) : M B :=
  fun d => match m d with
           | (Ok a, d1, t1) => let '(r, d2, t2) := k a d1 in (r, d2, t1 ++ t2)
           | (Err e, d1, t1) => (Err e, d1, t1)
           end.

Notation "x <- m ;; k" := (bind m (fun x => k))
  (at level 61, m at next level, right associativity).
Notation "m ;;; k" := (bind m (fun _ => k))
  (at level 61, right associativity).

Definition throw {A} (e : string) : M A := fun d => (Err e, d, []).

(** A statement: logs its tag; [f] gives the result and the new state. *)
Definition stmt {A} (g : tag) (f : db -> result A * db) : M A :=
  fun d => let '(r, d') := f d in (r, d', [g]).

(** [db.transaction(fn)()]: on an error the state is rolled back. *)
Definition transaction {A} (m : M A) : M A :=
  fun d => match m d with
           | (Ok a, d1, t) => (Ok a, d1, t)
           | (Err e, _, t) => (Err e, d, t)
           end.

(** [try { ... } catch (error) { ... }] *)
Definition try_catch {A B} (m : M A) (ok : A -> B) (err : string -> B) : M B :=
  fun d => match m d with
           | (Ok a, d1, t) => (Ok (ok a), d1, t)
           | (Err e, d1, t) => (Ok (err e), d1, t)
           end.

(** [for (const x of l) f(x)] *)
Fixpoint for_ {A} (l : list A) (f : A -> M unit) : M unit :=
  match l with
  | [] => ret tt
  | x :: l' => f x ;;; for_ l' f
  end.

(** ** SQL statements issued by the handlers *)

Definition not_null_err (col : string) : string :=
  ("NOT NULL constraint failed: " ++ col)%string.
Definition fk_err : string := "FOREIGN KEY constraint failed".
Definition pk_err (col : string) : string := ("UNIQUE constraint failed: " ++ col)%string.

(** [INSERT INTO clients (name, email, phone, company, notes, managed_by)];
    returns [lastInsertRowid]. *)
Definition ins_client_new (name email phone company notes managed_by : option string)
  : M Z :=
  stmt (OIns, TClients) (fun d =>
    match name with
    | None => (Err (not_null_err "clients.name"), d)
    | Some n =>
        let k := next_id (clients d) in
        let r := Client.mk k n email phone company notes managed_by
                   (Some "active") (Some (clock d)) in
        match tbl_insert (clients d) r with
        | Some t => (Ok k, set_clients d t)
        | None => (Err (pk_err "clients.id"), d)
        end
    end).

(** An INSERT that gives every column, the rowid included: checks the
    row ([chk], the foreign key) and the PRIMARY KEY. *)
Definition ins_row {R} `{HasId R} (g : tag) (chk : db -> R -> bool)
  (get : db -> table R) (set : db -> table R -> db) (col : string) (r : R) : M unit :=
  stmt g (fun d =>
    if negb (chk d r) then (Err fk_err, d) else
    match tbl_insert (get d) r with
    | Some t => (Ok tt, set d t)
    | None => (Err (pk_err col), d)
    end).

(** [INSERT INTO clients (id, ..., created_at)] with every column given. *)
Definition ins_client_row : Client.row -> M unit :=
  ins_row (OIns, TClients) (fun _ _ => true) clients set_clients "clients.id".

(** [INSERT INTO services (client_id, service_type)] *)
Definition ins_service_new (ck : option Z) (service_type : option string) : M unit :=
  stmt (OIns, TServices) (fun d =>
    match service_type with
    | None => (Err (not_null_err "services.service_type"), d)
    | Some st =>
        if negb (fk_ok d ck) then (Err fk_err, d) else
        let r := Service.mk (next_id (services d)) ck st 0 in
        match tbl_insert (services d) r with
        | Some t => (Ok tt, set_services d t)
        | None => (Err (pk_err "services.id"), d)
        end
    end).

(** [INSERT INTO services (id, client_id, service_type, price)] *)
Definition ins_service_row : Service.row -> M unit :=
  ins_row (OIns, TServices) (fun d r => fk_ok d (Service.client_id r)) services set_services
    "services.id".

(** [INSERT INTO payments (client_id, total_amount, advance_paid, remaining_balance)] *)
Definition ins_payment_new (ck : option Z) (total adv rem : Z) : M unit :=
  stmt (OIns, TPayments) (fun d =>
    if negb (fk_ok d ck) then (Err fk_err, d) else
    let r := Payment.mk (next_id (payments d)) ck total adv rem (Some (clock d)) in
    match tbl_insert (payments d) r with
    | Some t => (Ok tt, set_payments d t)
    | None => (Err (pk_err "payments.id"), d)
    end).

(** [INSERT INTO payments (id, client_id, ..., last_updated)] *)
Definition ins_payment_row : Payment.row -> M unit :=
  ins_row (OIns, TPayments) (fun d r => fk_ok d (Payment.client_id r)) payments set_payments
    "payments.id".

(** [INSERT INTO tasks (id, client_id, ..., created_at)] *)
Definition ins_task_row : Task.row -> M unit :=
  ins_row (OIns, TTasks) (fun d r => fk_ok d (Task.client_id r)) tasks set_tasks
    "tasks.id".

(** [INSERT INTO transactions (client_id, amount)]: [type] defaults to
    'payment', [created_at] to CURRENT_TIMESTAMP. *)
Definition ins_txn_new (ck : option Z) (amount : Z) : M unit :=
  stmt (OIns, TTransactions) (fun d =>
    if negb (fk_ok d ck) then (Err fk_err, d) else
    let r := Txn.mk (next_id (transactions d)) ck amount (Some "payment")
               (Some (clock d)) in
    match tbl_insert (transactions d) r with
    | Some t => (Ok tt, set_transactions d t)
    | None => (Err (pk_err "transactions.id"), d)
    end).

(** [UPDATE clients SET name = ?, email = ?, ... WHERE id = ?] *)
Definition upd_client (k : Z) (name email phone company notes managed_by : option string)
  : M unit :=
  stmt (OUpd, TClients) (fun d =>
    if negb (client_exists d k) then (Ok tt, d) else
    match name with
    | None => (Err (not_null_err "clients.name"), d)
    | Some n =>
        (Ok tt, set_clients d (tbl_map (fun c =>
           if Client.id c =? k then
             Client.mk (Client.id c) n email phone company notes managed_by
               (Client.status c) (Client.created_at c)
           else c) (clients d)))
    end).

(** [DELETE FROM services WHERE client_id = ?] *)
Definition del_services_of (k : Z) : M unit :=
  stmt (ODel, TServices) (fun d =>
    (Ok tt, set_services d (tbl_filter (fun s => negb (refs k s)) (services d)))).

(** [SELECT total_amount, advance_paid FROM payments WHERE client_id = ?]
    with [.get()]: the first matching row in rowid order, if any. *)
Definition sel_payment (k : Z) : M (option Payment.row) :=
  stmt (OSel, TPayments) (fun d => (Ok (find (refs k) (rows (payments d))), d)).

(** [UPDATE payments SET advance_paid = ?, remaining_balance = ?,
    last_updated = CURRENT_TIMESTAMP WHERE client_id = ?] *)
Definition upd_payments (k adv rem : Z) : M unit :=
  stmt (OUpd, TPayments) (fun d =>
    (Ok tt, set_payments d (tbl_map (fun p =>
       if refs k p then
         Payment.mk (Payment.id p) (Payment.client_id p) (Payment.total_amount p)
           adv rem (Some (clock d))
       else p) (payments d)))).

(** [DELETE FROM clients WHERE id = ?] *)
Definition del_client (k : Z) : M unit :=
  stmt (ODel, TClients) (fun d =>
    (Ok tt, delete_clients_where (fun c => Client.id c =? k) d)).

Definition del_all_tasks : M unit :=
  stmt (ODel, TTasks) (fun d => (Ok tt, set_tasks d (tbl_filter (fun _ => false) (tasks d)))).
Definition del_all_payments : M unit :=
  stmt (ODel, TPayments) (fun d =>
    (Ok tt, set_payments d (tbl_filter (fun _ => false) (payments d)))).
Definition del_all_services : M unit :=
  stmt (ODel, TServices) (fun d =>
    (Ok tt, set_services d (tbl_filter (fun _ => false) (services d)))).
Definition del_all_clients : M unit :=
  stmt (ODel, TClients) (fun d => (Ok tt, delete_clients_where (fun _ => true) d)).

(** ** HTTP responses *)

Inductive body := BId (k : Z) | BSuccess | BError (msg : string) | BEmpty.
Record response := Resp { code : Z; resp_body : body }.

Definition err500 (e : string) : response := Resp 500 (BError e).

(** ** Write handlers *)

(** Request body of [POST /api/clients].  A JSON field that is absent or
    null is [None]; [services] is [None] when it is not an array. *)
Module CreateBody.
Record t := mk {
  name : option string; email : option string; phone : option string;
  company : option string; services : option (list (option string));
  total_amount : Z; advance_paid : Z; notes : option string;
  managed_by : option string }.
End CreateBody.

(** [app.post("/api/clients", ...)] (lines 226-255) *)
Definition post_clients (b : CreateBody.t) : M response :=
  let insertClient :=
    transaction (
      clientId <- ins_client_new (CreateBody.name b) (CreateBody.email b)
                    (CreateBody.phone b) (CreateBody.company b)
                    (CreateBody.notes b) (CreateBody.managed_by b) ;;
      (match CreateBody.services b with
       | None => throw "services is not iterable"
       | Some l => for_ l (fun service => ins_service_new (Some clientId) service)
       end) ;;;
      let remaining := CreateBody.total_amount b - CreateBody.advance_paid b in
      ins_payment_new (Some clientId) (CreateBody.total_amount b)
        (CreateBody.advance_paid b) remaining ;;;
      ret clientId) in
  try_catch insertClient (fun id => Resp 201 (BId id)) err500.

(** [app.delete("/api/clients/:id", ...)] (lines 257-260) *)
Definition delete_clients_h (k : Z) : M response :=
  del_client k ;;; ret (Resp 204 BEmpty).

(** Request body of [PATCH /api/clients/:id]. *)
Module UpdateBody.
Record t := mk {
  name : option string; email : option string; phone : option string;
  company : option string; notes : option string;
  services : option (list (option string)); managed_by : option string }.
End UpdateBody.

(** [app.patch("/api/clients/:id", ...)] (lines 262-286); [if (services)]
    holds for every array, the empty one included. *)
Definition patch_clients (clientId : Z) (b : UpdateBody.t) : M response :=
  let updateClient :=
    transaction (
      upd_client clientId (UpdateBody.name b) (UpdateBody.email b)
        (UpdateBody.phone b) (UpdateBody.company b) (UpdateBody.notes b)
        (UpdateBody.managed_by b) ;;;
      match UpdateBody.services b with
      | None => ret tt
      | Some l =>
          del_services_of clientId ;;;
          for_ l (fun service => ins_service_new (Some clientId) service)
      end) in
  try_catch updateClient (fun _ => Resp 200 BSuccess) err500.

(** Request body of [PATCH /api/payments/:clientId]; [amount_added] is
    [None] when absent or null. *)
Module PaymentBody.
Record t := mk { advance_paid : Z; amount_added : option Z }.
End PaymentBody.

(** [amount_added && amount_added > 0] *)
Definition positive_amount (a : option Z) : bool :=
  match a with Some x => 0 <? x | None => false end.

(** [app.patch("/api/payments/:clientId", ...)] (lines 288-314) *)
Definition patch_payments (clientId : Z) (b : PaymentBody.t) : M response :=
  try_catch (
    payment <- sel_payment clientId ;;
    match payment with
    | None => ret (Resp 404 (BError "Payment record not found"))
    | Some p =>
        transaction (
          let remaining := Payment.total_amount p - PaymentBody.advance_paid b in
          upd_payments clientId (PaymentBody.advance_paid b) remaining ;;;
          if positive_amount (PaymentBody.amount_added b) then
            match PaymentBody.amount_added b with
            | Some a => ins_txn_new (Some clientId) a
            | None => ret tt
            end
          else ret tt) ;;;
        ret (Resp 200 BSuccess)
    end) (fun r => r) err500.

(** Request body of [POST /api/restore]. *)
Module RestoreBody.
Record t := mk {
  clients : list Client.row; services : list Service.row;
  payments : list Payment.row; tasks : list Task.row }.
End RestoreBody.

(** The body of [db.transaction] in [app.post("/api/restore", ...)]
    (lines 353-383): clear the four tables, then reinsert every row. *)
Definition restore_body (b : RestoreBody.t) : M unit :=
  del_all_tasks ;;;
  del_all_payments ;;;
  del_all_services ;;;
  del_all_clients ;;;
  for_ (RestoreBody.clients b) ins_client_row ;;;
  for_ (RestoreBody.services b) ins_service_row ;;;
  for_ (RestoreBody.payments b) ins_payment_row ;;;
  for_ (RestoreBody.tasks b) ins_task_row.

(** [app.post("/api/restore", ...)] (lines 350-391) *)
Definition post_restore (b : RestoreBody.t) : M response :=
  let restore := transaction (restore_body b) in
  try_catch restore (fun _ => Resp 200 BSuccess) err500.

(** ** Read handlers *)

(** *** JSON documents *)

(** A JSON value, as the receiver of [res.json(v)] parses it. *)
#[warnings="-register-all"]
Inductive json :=
| JNull | JNum (x : spec_float) | JStr (s : string)
| JArr (l : list json) | JObj (kv : list (string * json)).

(** [JSON.stringify] writes a number with Number::toString, which
    [JSON.parse] reads back exactly; NaN and the infinities are written
    [null], and -0 is written [0]. *)
Definition json_number (x : spec_float) : json :=
  match x with
  | S754_nan | S754_infinity _ => JNull
  | S754_zero _ => JNum (S754_zero false)
  | _ => JNum x
  end.

(** better-sqlite3 hands a stored value to JavaScript: an INTEGER as the
    nearest double, a REAL as it is, a TEXT as a string. *)
Definition json_of_sval (v : sval) : json :=
  match v with
  | VNull => JNull
  | VInt i => json_number (js_number i)
  | VReal r => json_number r
  | VText s => JStr s
  end.

Definition j_int (z : Z) : json := json_of_sval (VInt z).
Definition j_opt_int (o : option Z) : json :=
  match o with None => JNull | Some z => j_int z end.
(** A REAL column: the double of the amount. *)
Definition j_real (z : Z) : json := json_of_sval (VReal (js_number z)).
Definition j_opt_text (o : option string) : json :=
  match o with None => JNull | Some s => JStr s end.
Section Backup.
(** [sqlite3AtoF] of the SQLite build. *)
Variable atof : string -> spec_float.

(** A DATE or DATETIME column: the value NUMERIC affinity stored. *)
Definition j_date (o : option string) : json :=
  json_of_sval (col_val atof o).

(** [SELECT * FROM ...]: one object per row, one key per column. *)
Definition client_json (c : Client.row) : json :=
  JObj [("id", j_int (Client.id c)); ("name", JStr (Client.name c));
        ("email", j_opt_text (Client.email c)); ("phone", j_opt_text (Client.phone c));
        ("company", j_opt_text (Client.company c)); ("notes", j_opt_text (Client.notes c));
        ("managed_by", j_opt_text (Client.managed_by c));
        ("status", j_opt_text (Client.status c));
        ("created_at", j_date (Client.created_at c))].

Definition service_json (s : Service.row) : json :=
  JObj [("id", j_int (Service.id s)); ("client_id", j_opt_int (Service.client_id s));
        ("service_type", JStr (Service.service_type s)); ("price", j_real (Service.price s))].

Definition payment_json (p : Payment.row) : json :=
  JObj [("id", j_int (Payment.id p)); ("client_id", j_opt_int (Payment.client_id p));
        ("total_amount", j_real (Payment.total_amount p));
        ("advance_paid", j_real (Payment.advance_paid p));
        ("remaining_balance", j_real (Payment.remaining_balance p));
        ("last_updated", j_date (Payment.last_updated p))].

Definition task_json (t : Task.row) : json :=
  JObj [("id", j_int (Task.id t)); ("client_id", j_opt_int (Task.client_id t));
        ("title", JStr (Task.title t)); ("assigned_to", j_opt_text (Task.assigned_to t));
        ("due_date", j_date (Task.due_date t)); ("status", j_opt_text (Task.status t));
        ("created_at", j_date (Task.created_at t))].

(** [GET /api/backup] (lines 330-348): every row of four tables, with
    [new Date().toISOString()] as the parameter [timestamp]. *)
Definition get_backup (d : db) (timestamp : string) : json :=
  JObj [("clients", JArr (map client_json (rows (clients d))));
        ("services", JArr (map service_json (rows (services d))));
        ("payments", JArr (map payment_json (rows (payments d))));
        ("tasks", JArr (map task_json (rows (tasks d))));
        ("timestamp", JStr timestamp); ("version", JStr "1.0")].
End Backup.

Definition obind {A B} (o : option A) (f : A -> option B) : option B :=
  match o with Some a => f a | None => None end.
Notation "'let?' x ':=' o 'in' k" := (obind o (fun x => k))
  (at level 200, x name, o at level 100, k at level 200).

Fixpoint omap {A B} (f : A -> option B) (l : list A) : option (list B) :=
  match l with
  | [] => Some []
  | x :: r => let? y := f x in let? ys := omap f r in Some (y :: ys)
  end.

(** [o.k] on a parsed object (the last of repeated keys). *)
Definition jfield (k : string) (j : json) : option json :=
  match j with
  | JObj kv => option_map snd (find (fun kv => String.eqb (fst kv) k) (rev kv))
  | _ => None
  end.

(** The parts of a request body the model's rows can hold: an integral
    number for an INTEGER column (and for a REAL one, modelled by Z), a
    string or null for a TEXT or date column.  [None] marks a value out of
    the model (a missing key, a fraction, a number for a text column). *)
Definition int_of_json (j : json) : option Z :=
  match j with
  | JNum (S754_zero _) => Some 0
  | JNum (S754_finite _ _ _ as x) =>
      let i := Qfloor (sf_value x) in
      if Qeq_bool (inject_Z i) (sf_value x) then Some i else None
  | _ => None
  end.
Definition opt_int_of_json (j : json) : option (option Z) :=
  match j with JNull => Some None | _ => option_map Some (int_of_json j) end.
Definition text_of_json (j : json) : option string :=
  match j with JStr s => Some s | _ => None end.
Definition opt_text_of_json (j : json) : option (option string) :=
  match j with JNull => Some None | JStr s => Some (Some s) | _ => None end.

Definition client_of_json (j : json) : option Client.row :=
  let? id := obind (jfield "id" j) int_of_json in
  let? name := obind (jfield "name" j) text_of_json in
  let? email := obind (jfield "email" j) opt_text_of_json in
  let? phone := obind (jfield "phone" j) opt_text_of_json in
  let? company := obind (jfield "company" j) opt_text_of_json in
  let? notes := obind (jfield "notes" j) opt_text_of_json in
  let? managed_by := obind (jfield "managed_by" j) opt_text_of_json in
  let? status := obind (jfield "status" j) opt_text_of_json in
  let? created_at := obind (jfield "created_at" j) opt_text_of_json in
  Some (Client.mk id name email phone company notes managed_by status created_at).

Definition service_of_json (j : json) : option Service.row :=
  let? id := obind (jfield "id" j) int_of_json in
  let? client_id := obind (jfield "client_id" j) opt_int_of_json in
  let? service_type := obind (jfield "service_type" j) text_of_json in
  let? price := obind (jfield "price" j) int_of_json in
  Some (Service.mk id client_id service_type price).

Definition payment_of_json (j : json) : option Payment.row :=
  let? id := obind (jfield "id" j) int_of_json in
  let? client_id := obind (jfield "client_id" j) opt_int_of_json in
  let? total := obind (jfield "total_amount" j) int_of_json in
  let? adv := obind (jfield "advance_paid" j) int_of_json in
  let? rem := obind (jfield "remaining_balance" j) int_of_json in
  let? last_updated := obind (jfield "last_updated" j) opt_text_of_json in
  Some (Payment.mk id client_id total adv rem last_updated).

Definition task_of_json (j : json) : option Task.row :=
  let? id := obind (jfield "id" j) int_of_json in
  let? client_id := obind (jfield "client_id" j) opt_int_of_json in
  let? title := obind (jfield "title" j) text_of_json in
  let? assigned_to := obind (jfield "assigned_to" j) opt_text_of_json in
  let? due_date := obind (jfield "due_date" j) opt_text_of_json in
  let? status := obind (jfield "status" j) opt_text_of_json in
  let? created_at := obind (jfield "created_at" j) opt_text_of_json in
  Some (Task.mk id client_id title assigned_to due_date status created_at).

Definition rows_of_json {A} (f : json -> option A) (j : json) : option (list A) :=
  match j with JArr l => omap f l | _ => None end.

(** [const { clients, services, payments, tasks } = req.body], as the
    model's [RestoreBody.t] when every row fits it. *)
Definition restore_body_of (j : json) : option RestoreBody.t :=
  let? cs := obind (jfield "clients" j) (rows_of_json client_of_json) in
  let? ss := obind (jfield "services" j) (rows_of_json service_of_json) in
  let? ps := obind (jfield "payments" j) (rows_of_json payment_of_json) in
  let? ts := obind (jfield "tasks" j) (rows_of_json task_of_json) in
  Some (RestoreBody.mk cs ss ps ts).

(** Stable insertion sort: ORDER BY. *)
Section Sort.
Context {A : Type} (le : A -> A -> bool).
Fixpoint insert_by (x : A) (l : list A) : list A :=
  match l with
  | [] => [x]
  | y :: l' => if le x y then x :: l else y :: insert_by x l'
  end.
Fixpoint isort (l : list A) : list A :=
  match l with
  | [] => []
  | x :: l' => insert_by x (isort l')
  end.
End Sort.

Section Listing.
(** [sqlite3AtoF] of the SQLite build. *)
Variable atof : string -> spec_float.

(** SQLite's comparison of two values of a NUMERIC (DATE, DATETIME)
    column, given the texts bound or NULL. *)
Definition cmp_opt (a b : option string) : comparison :=
  sval_cmp (col_val atof a) (col_val atof b).

(** [GROUP_CONCAT(service_type)] with the default separator; NULL over no
    rows. *)
Definition group_concat (l : list string) : option string :=
  match l with
  | [] => None
  | x :: r => Some (fold_left (fun acc y => (acc ++ "," ++ y)%string) r x)
  end.

Definition comma : ascii := ",".

(** [s.split(',')] *)
Fixpoint split_aux (s : string) (cur : string) : list string :=
  match s with
  | EmptyString => [cur]
  | String c s' =>
      if Ascii.eqb c comma then cur :: split_aux s' EmptyString
      else split_aux s' (cur ++ String c EmptyString)%string
  end.
Definition split_comma (s : string) : list string := split_aux s EmptyString.

(** [c.services ? c.services.split(',') : []]: NULL and "" are falsy. *)
Definition services_field (gc : option string) : list string :=
  match gc with
  | None => []
  | Some s => if String.eqb s "" then [] else split_comma s
  end.

(** [SELECT service_type FROM services WHERE client_id = c.id] *)
Definition service_types_of (d : db) (k : Z) : list string :=
  map Service.service_type (filter (refs k) (rows (services d))).

Definition pending_tasks_of (d : db) (k : Z) : Z :=
  Z.of_nat (length (filter (fun t => refs k t &&
     match Task.status t with Some s => String.eqb s "pending" | None => false end)
     (rows (tasks d)))).

Record client_view := mkView {
  v_client : Client.row; v_services : list string;
  v_total_amount : option Z; v_advance_paid : option Z;
  v_remaining_balance : option Z; v_pending_tasks : Z }.

(** [ORDER BY c.created_at DESC] *)
Definition created_desc (a b : client_view) : bool :=
  match cmp_opt (Client.created_at (v_client a)) (Client.created_at (v_client b)) with
  | Lt => false
  | _ => true
  end.

(** [GET /api/clients] (lines 157-172): clients LEFT JOIN payments. *)
Definition get_clients (d : db) : list client_view :=
  let view c (p : option Payment.row) :=
    mkView c (services_field (group_concat (service_types_of d (Client.id c))))
      (option_map Payment.total_amount p) (option_map Payment.advance_paid p)
      (option_map Payment.remaining_balance p) (pending_tasks_of d (Client.id c)) in
  isort created_desc
    (flat_map (fun c =>
       match filter (refs (Client.id c)) (rows (payments d)) with
       | [] => [view c None]
       | ps => map (fun p => view c (Some p)) ps
       end) (rows (clients d))).

Record task_view := mkTaskView { tv_task : Task.row; tv_client_name : string }.

(** [ORDER BY t.due_date ASC, t.created_at DESC] *)
Definition task_le (a b : task_view) : bool :=
  match cmp_opt (Task.due_date (tv_task a)) (Task.due_date (tv_task b)) with
  | Lt => true
  | Gt => false
  | Eq =>
      match cmp_opt (Task.created_at (tv_task a)) (Task.created_at (tv_task b)) with
      | Lt => false
      | _ => true
      end
  end.

(** [GET /api/tasks] (lines 175-193): tasks JOIN clients, filtered by the
    [clientId] query parameter when it is present. *)
Definition get_tasks (d : db) (clientId : option Z) : list task_view :=
  let joined :=
    flat_map (fun t =>
      match Task.client_id t with
      | Some k =>
          match find (fun c => Client.id c =? k) (rows (clients d)) with
          | Some c => [mkTaskView t (Client.name c)]
          | None => []
          end
      | None => []
      end) (rows (tasks d)) in
  let filtered :=
    match clientId with
    | Some k => filter (fun v => refs k (tv_task v)) joined
    | None => joined
    end in
  isort task_le filtered.

End Listing.

(** ** [GET /api/stats]: [calculateTrend] (lines 130-134)

    Numbers are doubles; [toFixed(1)] and Number::toString follow
    ECMAScript. *)

Section Trend.
Local Open Scope Q_scope.

(** [n] with [n / 10 - x] closest to zero, the larger on a tie. *)
Definition round_half_up (x : Q) : Z := Qfloor (x + (1 # 2)).

(** Step 7 of [x.toFixed(1)] for [0 <= x < 10^21]: the digits of [n],
  with a leading 0 when there is only one, and a point before the last. *)
Definition fixed1 (x : Q) : string :=
  let n := round_half_up (x * 10) in
  let m := digits n in
  let m' := if (length m <=? 1)%nat then (0%Z :: m) else m in
  (digits_str (removelast m') ++ "." ++ digits_str [last m' 0%Z])%string.

(** For a double [x] of value [v] at or above 10^21 (an integer) and
  [u = 10^(n-k)]: the [k]-digit [s] for which [s * u] rounds back to [x],
  the closer to [v] if both neighbours do, the even one on a tie. *)
Definition pick_digits (x : spec_float) (v u : Z) : option Z :=
  let s1 := (v / u)%Z in
  let s2 := (s1 + 1)%Z in
  match SFeqb (js_number (s1 * u)) x, SFeqb (js_number (s2 * u)) x with
  | true, true =>
      match Z.compare (v - s1 * u) (s2 * u - v) with
      | Lt => Some s1
      | Gt => Some s2
      | Eq => if Z.even s1 then Some s1 else Some s2
      end
  | true, false => Some s1
  | false, true => Some s2
  | false, false => None
  end.

(** The fewest digits, trying [k] in [ks]: the digits [s] and the power
  of ten they are scaled by. *)
Fixpoint shortest_digits (x : spec_float) (v n : Z) (ks : list Z) : Z * Z :=
  match ks with
  | [] => (v, 0%Z)
  | k :: ks' =>
      match pick_digits x v (10 ^ (n - k)) with
      | Some s => (s, (n - k)%Z)
      | None => shortest_digits x v n ks'
      end
  end.

(** Number::toString of a double [x] at or above 10^21: exponent
  notation [d.ddde+N] with the shortest digit string that rounds back to
  [x] (a double has at most 17 significant digits). *)
Definition number_to_string_big (x : spec_float) : string :=
  let v := Qfloor (sf_value x) in
  let n := Z.of_nat (length (digits v)) in
  let '(s, p) := shortest_digits x v n (map Z.of_nat (List.seq 1 17)) in
  let ds := digits s in
  let sd := rev (drop_zeros (rev ds)) in
  let e := digits_str (digits (Z.of_nat (length ds) + p - 1)) in
  match sd with
  | [d] => (digits_str [d] ++ "e+" ++ e)%string
  | d :: rest => (digits_str [d] ++ "." ++ digits_str rest ++ "e+" ++ e)%string
  | [] => "0"
  end.

(** [x.toFixed(1)]: Number::toString for NaN and the infinities; else a
  minus sign for a negative value (not for -0), then step 7 below 10^21
  and Number::toString from 10^21 on. *)
Definition toFixed1 (x : spec_float) : string :=
  match x with
  | S754_nan => "NaN"
  | S754_infinity s => if s then "-Infinity" else "Infinity"
  | S754_zero _ => fixed1 0
  | S754_finite s m e =>
      ((if s then "-" else "")
       ++ (if Qle_bool (inject_Z (10 ^ 21)) (sf_mag m e)
           then number_to_string_big (S754_finite false m e)
           else fixed1 (sf_mag m e)))%string
  end.

(** [!x] for a number: 0, -0 and NaN are falsy. *)
Definition falsy (x : spec_float) : bool :=
  match x with S754_zero _ | S754_nan => true | _ => false end.

Definition calculateTrend (current prev : spec_float) : string :=
  if falsy prev || SFeqb prev (S754_zero false) then "+100%"
  else
    let diff := js_mul (js_div (js_sub current prev) prev) (js_number 100) in
    ((if SFleb (S754_zero false) diff then "+" else "") ++ toFixed1 diff ++ "%")%string.

(** [x || 0] for a number or NULL (a SUM over no rows). *)
Definition or_zero (x : option spec_float) : spec_float :=
  match x with
  | Some v => if falsy v then S754_zero false else v
  | None => S754_zero false
  end.

(** [calculateTrend(currentStats.x || 0, prevMonthStats.x || 0)] *)
Definition trend_of (current prev : option spec_float) : string :=
  calculateTrend (or_zero current) (or_zero prev).

End Trend.

(** ** Task routes (lines 195-224) *)

(** Request body of [POST /api/tasks]. *)
Module TaskBody.
Record t := mk {
  client_id : option Z; title : option string;
  assigned_to : option string; due_date : option string }.
End TaskBody.

(** [INSERT INTO tasks (client_id, title, assigned_to, due_date)]: [status]
    defaults to 'pending', [created_at] to CURRENT_TIMESTAMP; returns
    [lastInsertRowid]. *)
Definition ins_task_new (ck : option Z) (title assigned_to due_date : option string)
  : M Z :=
  stmt (OIns, TTasks) (fun d =>
    match title with
    | None => (Err (not_null_err "tasks.title"), d)
    | Some tl =>
        if negb (fk_ok d ck) then (Err fk_err, d) else
        let k := next_id (tasks d) in
        let r := Task.mk k ck tl assigned_to due_date (Some "pending") (Some (clock d)) in
        match tbl_insert (tasks d) r with
        | Some t => (Ok k, set_tasks d t)
        | None => (Err (pk_err "tasks.id"), d)
        end
    end).

(** [app.post("/api/tasks", ...)] (lines 195-205) *)
Definition post_tasks (b : TaskBody.t) : M response :=
  try_catch (ins_task_new (TaskBody.client_id b) (TaskBody.title b)
               (TaskBody.assigned_to b) (TaskBody.due_date b))
    (fun id => Resp 201 (BId id)) err500.

(** [UPDATE tasks SET status = ? WHERE id = ?] *)
Definition upd_task_status (k : Z) (status : option string) : M unit :=
  stmt (OUpd, TTasks) (fun d =>
    (Ok tt, set_tasks d (tbl_map (fun t =>
       if Task.id t =? k then
         Task.mk (Task.id t) (Task.client_id t) (Task.title t) (Task.assigned_to t)
           (Task.due_date t) status (Task.created_at t)
       else t) (tasks d)))).

(** [app.patch("/api/tasks/:id", ...)] (lines 207-215) *)
Definition patch_tasks (k : Z) (status : option string) : M response :=
  try_catch (upd_task_status k status) (fun _ => Resp 200 BSuccess) err500.

(** [DELETE FROM tasks WHERE id = ?] *)
Definition del_task (k : Z) : M unit :=
  stmt (ODel, TTasks) (fun d =>
    (Ok tt, set_tasks d (tbl_filter (fun t => negb (Task.id t =? k)) (tasks d)))).

(** [app.delete("/api/tasks/:id", ...)] (lines 217-224) *)
Definition delete_tasks_h (k : Z) : M response :=
  try_catch (del_task k) (fun _ => Resp 204 BEmpty) err500.

(** ** [GET /api/transactions] (lines 316-328) *)

Record txn_view := mkTxnView {
  xv_txn : Txn.row; xv_client_name : string; xv_company : option string }.

Section TxnListing.
(** [sqlite3AtoF] of the SQLite build. *)
Variable atof : string -> spec_float.

(** [ORDER BY t.created_at DESC] *)
Definition txn_created_desc (a b : txn_view) : bool :=
  match cmp_opt atof (Txn.created_at (xv_txn a)) (Txn.created_at (xv_txn b)) with
  | Lt => false
  | _ => true
  end.

(** transactions JOIN clients ON t.client_id = c.id *)
Definition get_transactions (d : db) : list txn_view :=
  isort txn_created_desc
    (flat_map (fun t =>
       match Txn.client_id t with
       | Some k =>
           match find (fun c => Client.id c =? k) (rows (clients d)) with
           | Some c => [mkTxnView t (Client.name c) (Client.company c)]
           | None => []
           end
       | None => []
       end) (rows (transactions d))).

End TxnListing.

(** ** [GET /api/health] (lines 90-102): the number of client rows *)
Definition get_health (d : db) : Z := Z.of_nat (length (rows (clients d))).

(** ** [GET /api/stats] (lines 104-155) *)

(** [FROM clients c LEFT JOIN payments p ON c.id = p.client_id]: one row per
    matching payment, or one row with NULLs when there is none. *)
Definition client_payment_join (d : db) (cs : list Client.row)
  : list (Client.row * option Payment.row) :=
  flat_map (fun c =>
    match filter (refs (Client.id c)) (rows (payments d)) with
    | [] => [(c, None)]
    | ps => map (fun p => (c, Some p)) ps
    end) cs.

(** SQL [SUM]: NULL over no non-NULL value. *)
Definition sql_sum (l : list (option Z)) : option Z :=
  fold_left (fun acc x =>
    match x with
    | None => acc
    | Some v => Some (match acc with None => v | Some a => a + v end)
    end) l None.

(** [x || 0] for a number or NULL. *)
Definition or0 (x : option Z) : Z := match x with Some v => v | None => 0 end.

(** [SUM(p.f)] over the joined rows. *)
Definition sum_col (f : Payment.row -> Z) (l : list (Client.row * option Payment.row))
  : option Z :=
  sql_sum (map (fun cp => option_map f (snd cp)) l).

Section Stats.
(** [sqlite3AtoF] of the SQLite build. *)
Variable atof : string -> spec_float.

(** [WHERE c.created_at < ?]: the column has NUMERIC affinity, so the
    bound text gets it too before the comparison; NULL compares to
    nothing. *)
Definition created_before (cutoff : string) (c : Client.row) : bool :=
  match Client.created_at c with
  | Some s =>
      match sval_cmp (numeric_affinity atof s) (numeric_affinity atof cutoff) with
      | Lt => true
      | _ => false
      end
  | None => false
  end.

Record stats := mkStats {
  revenue_value : Z; revenue_trend : string;
  received_value : Z; received_trend : string;
  pending_value : Z; clients_value : Z }.

(** The handler, with [firstDayCurrentMonth] (an ISO timestamp computed
    from the current date) as a parameter.  SQLite adds the REAL amounts
    as doubles; the amounts being integers in this model, the sums are
    kept exact, which the doubles match while every partial sum stays
    below 2^53.  The trends take the doubles of the sums. *)
Definition get_stats (d : db) (firstDayCurrentMonth : string) : stats :=
  let cur := client_payment_join d (rows (clients d)) in
  let prev := client_payment_join d
                (filter (created_before firstDayCurrentMonth) (rows (clients d))) in
  let total_revenue := sum_col Payment.total_amount cur in
  let total_received := sum_col Payment.advance_paid cur in
  let total_pending := sum_col Payment.remaining_balance cur in
  let total_clients := Z.of_nat (length cur) in
  let prev_revenue := sum_col Payment.total_amount prev in
  let prev_received := sum_col Payment.advance_paid prev in
  mkStats
    (or0 total_revenue)
    (trend_of (option_map js_number total_revenue) (option_map js_number prev_revenue))
    (or0 total_received)
    (trend_of (option_map js_number total_received) (option_map js_number prev_received))
    (or0 total_pending)
    total_clients.

End Stats.

(** ** Sample states *)

Definition empty_db : db :=
  mkDb (mkTable [] 0) (mkTable [] 0) (mkTable [] 0) (mkTable [] 0) (mkTable [] 0)
    "2026-10-17 09:00:00".

Definition body1 : CreateBody.t :=
  CreateBody.mk (Some "Acme") None None (Some "Acme Ltd")
    (Some [Some "SEO"; Some "Web"]) 1000 300 None None.

Definition db1 : db := let '(_, d, _) := post_clients body1 empty_db in d.

(** ** Well-formed states

    What SQLite maintains for every reachable state: rowids strictly
    increase in each table and never exceed its [sqlite_sequence] entry,
    and every non-NULL [client_id] names an existing client (foreign keys
    are enforced on insert and cascade on delete). *)

Fixpoint incr (l : list Z) : bool :=
  match l with
  | x :: ((y :: _) as r) => (x <? y) && incr r
  | _ => true
  end.

Definition tbl_ok {R} `{HasId R} (t : table R) : bool :=
  incr (map row_id (rows t)) && forallb (fun r => row_id r <=? seq t) (rows t).

Definition fk_valid (d : db) : bool :=
  forallb (fun r => fk_ok d (row_client r)) (rows (services d))
  && forallb (fun r => fk_ok d (row_client r)) (rows (payments d))
  && forallb (fun r => fk_ok d (row_client r)) (rows (tasks d))
  && forallb (fun r => fk_ok d (row_client r)) (rows (transactions d)).

Definition wf (d : db) : bool :=
  tbl_ok (clients d) && tbl_ok (services d) && tbl_ok (payments d)
  && tbl_ok (tasks d) && tbl_ok (transactions d) && fk_valid d.

(** The payment row an update writes for client [k]. *)
Definition paid_row (k adv rem : Z) (now : string) (p : Payment.row) : Payment.row :=
  if refs k p then
    Payment.mk (Payment.id p) (Payment.client_id p) (Payment.total_amount p)
      adv rem (Some now)
  else p.

(** The ledger row [INSERT INTO transactions (client_id, amount)] appends. *)
Definition ledger_row (d : db) (k a : Z) : Txn.row :=
  Txn.mk (next_id (transactions d)) (Some k) a (Some "payment") (Some (clock d)).

(** A payment row exists for client [k]. *)
Definition has_payment (d : db) (k : Z) : Prop :=
  exists p, In p (rows (payments d)) /\ Payment.client_id p = Some k.

(** A sample state reachable through [POST /api/restore]: client 1 owns
    two payment rows (nothing in the schema makes [payments.client_id]
    unique). *)
Definition dup_body : RestoreBody.t :=
  RestoreBody.mk
    [Client.mk 1 "Acme" None None None None None (Some "active")
       (Some "2026-10-01 10:00:00")]
    []
    [Payment.mk 1 (Some 1) 1000 0 1000 (Some "2026-10-01 10:00:00");
     Payment.mk 2 (Some 1) 500 0 500 (Some "2026-10-01 10:00:00")]
    [].

Definition db_dup : db := let '(_, d, _) := post_restore dup_body empty_db in d.

(** The first payment row of client 1 in [db1]. *)
Definition db1_payment : Payment.row :=
  Payment.mk 1 (Some 1) 1000 300 700 (Some "2026-10-17 09:00:00").

(** The client row [INSERT INTO clients (name, ...)] adds. *)
Definition new_client_row (d : db) (n : string) (b : CreateBody.t) : Client.row :=
  Client.mk (next_id (clients d)) n (CreateBody.email b) (CreateBody.phone b)
    (CreateBody.company b) (CreateBody.notes b) (CreateBody.managed_by b)
    (Some "active") (Some (clock d)).

(** The client row [UPDATE clients SET name = ?, ... WHERE id = ?] writes. *)
Definition updated_client (k : Z) (n : string) (b : UpdateBody.t) (c : Client.row)
  : Client.row :=
  if Client.id c =? k then
    Client.mk (Client.id c) n (UpdateBody.email b) (UpdateBody.phone b)
      (UpdateBody.company b) (UpdateBody.notes b) (UpdateBody.managed_by b)
      (Client.status c) (Client.created_at c)
  else c.

(** The state after the four DELETE statements of the restore. *)
Definition cleared (d : db) : db :=
  let d1 := set_tasks d (tbl_filter (fun _ => false) (tasks d)) in
  let d2 := set_payments d1 (tbl_filter (fun _ => false) (payments d1)) in
  let d3 := set_services d2 (tbl_filter (fun _ => false) (services d2)) in
  delete_clients_where (fun _ => true) d3.

Definition clear_trace : list tag :=
  [(ODel, TTasks); (ODel, TPayments); (ODel, TServices); (ODel, TClients)].

(** The state of [db1] after recording a payment of 100: one ledger row. *)
Definition db2 : db :=
  let '(_, d, _) := patch_payments 1 (PaymentBody.mk 400 (Some 100)) db1 in d.

(** A state with two tasks of client 1, one of them without a due date. *)
Definition tasks_body : RestoreBody.t :=
  RestoreBody.mk (rows (clients db1)) (rows (services db1)) (rows (payments db1))
    [Task.mk 1 (Some 1) "Launch site" None (Some "2026-10-20") (Some "pending")
       (Some "2026-10-17 09:00:00");
     Task.mk 2 (Some 1) "Call client" None None (Some "pending")
       (Some "2026-10-17 09:00:00")].

Definition dbT : db := let '(_, d, _) := post_restore tasks_body db1 in d.

(** A restore of one client with id [2^53 + 4], then [body1] posted: the
    new client gets id [2^53 + 5], which no double holds. *)
Definition big_body : RestoreBody.t :=
  RestoreBody.mk
    [Client.mk (2 ^ 53 + 4) "Acme" None None None None None (Some "active")
       (Some "2026-10-17 09:00:00")] [] [] [].

Definition db_big : db :=
  let '(_, d1, _) := post_restore big_body empty_db in
  let '(_, d2, _) := post_clients body1 d1 in d2.

(** Number of commas in a string. *)
Fixpoint count_commas (s : string) : nat :=
  match s with
  | EmptyString => 0
  | String c s' => ((if Ascii.eqb c comma then 1 else 0) + count_commas s')%nat
  end.

(** A client created with a single service of empty type. *)
Definition body_empty_service : CreateBody.t :=
  CreateBody.mk (Some "Blank") None None None (Some [Some ""]) 0 0 None None.

(** ** Handlers as state transformers

    A computation keeps well-formedness when every well-formed state it
    starts from ends well-formed, whatever the outcome. *)
Definition keeps_wf {A} (m : M A) : Prop :=
  forall d r d' t, m d = (r, d', t) -> wf d = true -> wf d' = true.

(** A computation that leaves the number of client rows as it was,
    whatever its outcome. *)
Definition keeps_client_count {A} (m : M A) : Prop :=
  forall d r d' t, m d = (r, d', t) ->
  length (rows (clients d')) = length (rows (clients d)).

(** A computation whose start and end states are always related by [P],
    whatever its outcome. *)
Definition keeps_rel {A} (P : db -> db -> Prop) (m : M A) : Prop :=
  forall d r d' t, m d = (r, d', t) -> P d d'.

(** The [sqlite_sequence] entry of [clients] has not decreased. *)
Definition client_seq_le (d d' : db) : Prop := seq (clients d) <= seq (clients d').

#[global] Instance client_seq_le_refl : Reflexive client_seq_le :=
  fun d => Z.le_refl _.
#[global] Instance client_seq_le_trans : Transitive client_seq_le :=
  fun d1 d2 d3 H1 H2 => Z.le_trans _ _ _ H1 H2.

(** A pending task of client [k], as [pending_tasks_of] counts them. *)
Definition pending_of (k : Z) (t : Task.row) : bool :=
  refs k t && match Task.status t with Some s => String.eqb s "pending" | None => false end.

(** ** Evaluations *)

Example trend_ex1 : calculateTrend (js_number 150) (js_number 100) = "+50.0%".
Proof. vm_compute. reflexivity. Qed.
Example trend_ex2 : calculateTrend (js_number 50) (js_number 100) = "-50.0%".
Proof. vm_compute. reflexivity. Qed.
Example trend_ex3 : calculateTrend (js_number 1) (js_number 3) = "-66.7%".
Proof. vm_compute. reflexivity. Qed.
Example trend_ex4 : calculateTrend (js_number 100) (js_number 100) = "+0.0%".
Proof. vm_compute. reflexivity. Qed.
Example trend_ex5 : calculateTrend (js_number (10^19 + 1)) (js_number 1) = "+1e+21%".
Proof. vm_compute. reflexivity. Qed.
Example trend_ex6 : calculateTrend (js_number 7) (S754_zero false) = "+100%".
Proof. vm_compute. reflexivity. Qed.
(** [(103 - 80) / 80 * 100] is the double 28.749999999999996. *)
Example trend_ex7 : calculateTrend (js_number 103) (js_number 80) = "+28.7%".
Proof. vm_compute. reflexivity. Qed.
Example trend_ex8 : calculateTrend (js_number 5) (js_number (-5)) = "-200.0%".
Proof. vm_compute. reflexivity. Qed.
Example trend_ex9 :
  calculateTrend (js_number (- 5)) (js_number (- 5)) = "+0.0%"
  /\ calculateTrend (S754_infinity false) (js_number 1) = "+Infinity%"
  /\ calculateTrend (S754_infinity true) (js_number 1) = "-Infinity%"
  /\ calculateTrend S754_nan (js_number 1) = "NaN%"
  /\ calculateTrend (js_number 1) S754_nan = "+100%".
Proof. vm_compute. repeat split. Qed.
Example toFixed1_ex :
  map (fun m => toFixed1 (dec_to_double false m (-2))) [5; 15; 25; 35; 45]
  = ["0.1"; "0.1"; "0.3"; "0.3"; "0.5"]
  /\ toFixed1 (dec_to_double true 4 (-2)) = "-0.0"
  /\ toFixed1 (dec_to_double false 1 21) = "1e+21"
  /\ toFixed1 (dec_to_double false 12345678901234567890 5) = "1.2345678901234568e+24".
Proof. vm_compute. repeat split. Qed.

(** NUMERIC affinity, as SQLite 3.40 stores these texts. *)
Example affinity_ex :
  map (numeric_affinity atof_nearest)
    ["9"; " 9 "; "9.0"; "1e3"; "-0.0"; "9223372036854775807"; "2026-10-17"; "1e"; "."]
  = [VInt 9; VInt 9; VInt 9; VInt 1000; VInt 0; VInt 9223372036854775807;
     VText "2026-10-17"; VText "1e"; VText "."]
  /\ numeric_affinity atof_nearest "9.5" = VReal (dec_to_double false 95 (-1))
  /\ numeric_affinity atof_nearest "9223372036854775808" = VReal (js_number (2 ^ 63))
  /\ numeric_affinity atof_nearest "1e999" = VReal (S754_infinity false).
Proof. vm_compute. repeat split. Qed.

Example cmp_opt_ex :
  cmp_opt atof_nearest (Some "9") (Some "10") = Lt
  /\ cmp_opt atof_nearest (Some "9") (Some " 9 ") = Eq
  /\ cmp_opt atof_nearest (Some "10") (Some "2026-01-01") = Lt
  /\ cmp_opt atof_nearest None (Some "9") = Lt
  /\ cmp_opt atof_nearest (Some "9.5") (Some "10") = Lt.
Proof. vm_compute. repeat split. Qed.

Example post_ex : fst (fst (post_clients body1 empty_db)) = Ok (Resp 201 (BId 1)).
Proof. vm_compute. reflexivity. Qed.

Example post_ex_rows :
  map Payment.remaining_balance (rows (payments db1)) = [700]
  /\ service_types_of db1 1 = ["SEO"; "Web"].
Proof. vm_compute. split; reflexivity. Qed.

Example patch_pay_ex :
  let '(r, d, _) := patch_payments 1 (PaymentBody.mk 400 (Some 100)) db1 in
  r = Ok (Resp 200 BSuccess)
  /\ map Payment.remaining_balance (rows (payments d)) = [600]
  /\ map Txn.amount (rows (transactions d)) = [100].
Proof. vm_compute. repeat split; reflexivity. Qed.

Example get_clients_ex :
  map v_services (get_clients atof_nearest db1) = [["SEO"; "Web"]].
Proof. vm_compute. reflexivity. Qed.

Example wf_db1 : wf db1 = true. Proof. vm_compute. reflexivity. Qed.

(** ** Generic lemmas *)

Lemma fold_max_ge : forall l a, a <= fold_left Z.max l a.
Proof.
  induction l as [|x l IH]; intros a; simpl; [lia|].
  specialize (IH (Z.max a x)). lia.
Qed.

Lemma fold_max_In : forall l a x, In x l -> x <= fold_left Z.max l a.
Proof.
  induction l as [|y l IH]; intros a x Hin; simpl in *; [contradiction|].
  destruct Hin as [<-|Hin].
  - pose proof (fold_max_ge l (Z.max a y)). lia.
  - auto.
Qed.

Section TableLemmas.
Context {R : Type} `{HasId R}.

Lemma next_id_gt : forall (t : table R) x, In x (rows t) -> row_id x < next_id t.
Proof.
  intros t x Hin. unfold next_id.
  pose proof (fold_max_In (map row_id (rows t)) (seq t) (row_id x)
                (in_map _ _ _ Hin)). lia.
Qed.

Lemma id_in_false : forall k (l : list R),
  (forall x, In x l -> row_id x < k) -> id_in k l = false.
Proof.
  intros k l Hlt. unfold id_in. apply Bool.not_true_iff_false. intro Hex.
  apply existsb_exists in Hex as [x [Hin Heq]].
  apply Z.eqb_eq in Heq. specialize (Hlt x Hin). lia.
Qed.

Lemma id_in_iff : forall k (l : list R),
  id_in k l = true <-> exists x, In x l /\ row_id x = k.
Proof.
  intros k l. unfold id_in. rewrite existsb_exists.
  split; intros [x [Hin Heq]]; exists x; split; auto; apply Z.eqb_eq; auto.
Qed.

Lemma ins_by_id_app : forall (r : R) l,
  (forall x, In x l -> row_id x < row_id r) -> ins_by_id r l = l ++ [r].
Proof.
  intros r l. induction l as [|x l IH]; intros Hlt; simpl; [reflexivity|].
  assert (Hx : row_id x < row_id r) by (apply Hlt; left; auto).
  destruct (Z.ltb_spec (row_id r) (row_id x)); [lia|].
  f_equal. apply IH. intros y Hy. apply Hlt. right. exact Hy.
Qed.

Lemma In_ins_by_id : forall (r x : R) l, In x (ins_by_id r l) <-> x = r \/ In x l.
Proof.
  intros r x l. induction l as [|y l IH]; simpl.
  - intuition.
  - destruct (row_id r <? row_id y); simpl; [intuition|].
    rewrite IH. intuition.
Qed.

Lemma incr_app_lt : forall l1 x l2,
  incr (l1 ++ x :: l2) = true -> forall y, In y l1 -> y < x.
Proof.
  induction l1 as [|a l1 IH]; intros x l2 Hinc y Hy; simpl in *; [contradiction|].
  destruct l1 as [|b l1'].
  - simpl in Hinc. apply andb_true_iff in Hinc as [Hlt _].
    apply Z.ltb_lt in Hlt. destruct Hy as [<-|[]]. exact Hlt.
  - simpl in Hinc. apply andb_true_iff in Hinc as [Hlt Hrest].
    apply Z.ltb_lt in Hlt.
    assert (Hbx : b < x) by (apply (IH x l2); [exact Hrest | left; auto]).
    destruct Hy as [<-|Hy]; [lia|].
    apply (IH x l2); [exact Hrest | exact Hy].
Qed.
End TableLemmas.

Section SortLemmas.
Context {A : Type} (le : A -> A -> bool).

Lemma In_insert_by : forall x y l, In y (insert_by le x l) <-> y = x \/ In y l.
Proof.
  intros x y l. induction l as [|z l IH]; simpl.
  - intuition.
  - destruct (le x z); simpl; [intuition|]. rewrite IH. intuition.
Qed.

Lemma In_isort : forall x l, In x (isort le l) <-> In x l.
Proof.
  intros x l. induction l as [|y l IH]; simpl; [tauto|].
  rewrite In_insert_by, IH. intuition.
Qed.

Hypothesis le_total : forall a b, le a b = false -> le b a = true.

Lemma insert_by_sorted : forall x l,
  Sorted (fun a b => le a b = true) l ->
  Sorted (fun a b => le a b = true) (insert_by le x l).
Proof.
  intros x l Hs. induction Hs as [|z l Hs IH Hhd]; simpl.
  - repeat constructor.
  - destruct (le x z) eqn:Hxz.
    + constructor; [constructor; auto | constructor; exact Hxz].
    + constructor; [exact IH|].
      destruct l as [|w l]; simpl.
      * constructor. apply le_total. exact Hxz.
      * inversion Hhd; subst. destruct (le x w); constructor; auto.
Qed.

Lemma isort_sorted : forall l, Sorted (fun a b => le a b = true) (isort le l).
Proof.
  induction l as [|x l IH]; simpl; [constructor|].
  apply insert_by_sorted. exact IH.
Qed.
End SortLemmas.

(** ** Running the monad *)

Lemma bind_ok : forall {A B} (m : M A) (k : A -> M B) d a d1 t1,
  m d = (Ok a, d1, t1) ->
  bind m k d = let '(r, d2, t2) := k a d1 in (r, d2, t1 ++ t2).
Proof. intros A B m k d a d1 t1 Hm. unfold bind. rewrite Hm. reflexivity. Qed.

Lemma bind_err : forall {A B} (m : M A) (k : A -> M B) d e d1 t1,
  m d = (Err e, d1, t1) -> bind m k d = (Err e, d1, t1).
Proof. intros A B m k d e d1 t1 Hm. unfold bind. rewrite Hm. reflexivity. Qed.

(** A failed transaction leaves the state as it was. *)
Lemma transaction_rollback : forall {A} (m : M A) d,
  match transaction m d with
  | (Ok _, _, _) => True
  | (Err _, d', _) => d' = d
  end.
Proof. intros A m d. unfold transaction. destruct (m d) as [[[a|e] d1] t]; auto. Qed.

Lemma client_exists_set_services : forall d t k,
  client_exists (set_services d t) k = client_exists d k.
Proof. reflexivity. Qed.

Lemma client_exists_set_payments : forall d t k,
  client_exists (set_payments d t) k = client_exists d k.
Proof. reflexivity. Qed.

(** Loops of explicit-id inserts, as in [POST /api/restore]. *)
Section InsRowLoop.
Context {R : Type} `{HasId R} (g : tag) (chk : db -> R -> bool)
  (get : db -> table R) (set : db -> table R -> db) (col : string).
Hypothesis get_set : forall d t, get (set d t) = t.
Hypothesis set_set : forall d t1 t2, set (set d t1) t2 = set d t2.
Hypothesis set_get : forall d, set d (get d) = d.
Hypothesis chk_set : forall d t r, chk (set d t) r = chk d r.

Lemma for_ins_row_ok : forall l d,
  Forall (fun r => chk d r = true) l ->
  incr (map row_id (rows (get d) ++ l)) = true ->
  exists t, for_ l (ins_row g chk get set col) d = (Ok tt, set d t, repeat g (length l))
            /\ rows t = rows (get d) ++ l.
Proof.
  induction l as [|a l IH]; intros d Hchk Hinc.
  - exists (get d). rewrite set_get, app_nil_r. split; reflexivity.
  - inversion Hchk as [|? ? Ha Hl]; subst.
    assert (Hlt : forall x, In x (rows (get d)) -> row_id x < row_id a).
    { intros x Hx. rewrite map_app in Hinc. simpl in Hinc.
      apply (incr_app_lt _ _ _ Hinc). apply in_map. exact Hx. }
    set (t1 := mkTable (rows (get d) ++ [a]) (Z.max (seq (get d)) (row_id a))).
    assert (Hstep : ins_row g chk get set col a d = (Ok tt, set d t1, [g])).
    { unfold ins_row, stmt, tbl_insert. rewrite Ha. simpl.
      rewrite (id_in_false _ _ Hlt), (ins_by_id_app _ _ Hlt). reflexivity. }
    destruct (IH (set d t1)) as [t [Hrun Hrows]].
    + eapply Forall_impl; [|exact Hl]. intros r Hr. rewrite chk_set. exact Hr.
    + rewrite get_set. unfold t1. simpl. rewrite <- app_assoc. exact Hinc.
    + exists t. simpl for_. rewrite (bind_ok _ _ _ _ _ _ Hstep), Hrun, set_set.
      split; [reflexivity|]. rewrite Hrows, get_set. unfold t1. simpl.
      rewrite <- app_assoc. reflexivity.
Qed.

Lemma for_ins_row_inv : forall l d d' tr,
  for_ l (ins_row g chk get set col) d = (Ok tt, d', tr) ->
  exists t, d' = set d t
    /\ (forall x, In x (rows t) <-> In x (rows (get d)) \/ In x l)
    /\ tr = repeat g (length l).
Proof.
  induction l as [|a l IH]; intros d d' tr Hrun.
  - simpl in Hrun. injection Hrun as Hd Ht. subst d' tr. exists (get d).
    rewrite set_get. split; [reflexivity|]. split; [|reflexivity].
    intros x. simpl. tauto.
  - simpl in Hrun. unfold bind at 1 in Hrun.
    unfold ins_row at 1, stmt at 1 in Hrun.
    destruct (chk d a) eqn:Ha; simpl in Hrun; [|discriminate].
    destruct (tbl_insert (get d) a) as [t1|] eqn:Hins; [|discriminate].
    destruct (for_ l (ins_row g chk get set col) (set d t1))
      as [[r2 d2] t2] eqn:Hl.
    inversion Hrun; subst.
    destruct (IH _ _ _ Hl) as [t [-> [Hmem Htr]]].
    exists t. rewrite set_set. split; [reflexivity|]. split.
    + intros x. rewrite Hmem, get_set.
      unfold tbl_insert in Hins. destruct (id_in (row_id a) (rows (get d)));
        [discriminate|]. inversion Hins; subst. simpl.
      rewrite In_ins_by_id. intuition.
    + rewrite Htr. reflexivity.
Qed.
End InsRowLoop.

(** Loops of [INSERT INTO services (client_id, service_type)] for one
    existing client, as in [POST /api/clients] and [PATCH /api/clients/:id]. *)
Lemma for_ins_service_new_ok : forall l d k,
  client_exists d k = true ->
  exists t,
    for_ (map Some l) (ins_service_new (Some k)) d
      = (Ok tt, set_services d t, repeat (OIns, TServices) (length l))
    /\ filter (fun s => negb (refs k s)) (rows t)
       = filter (fun s => negb (refs k s)) (rows (services d))
    /\ map Service.service_type (filter (refs k) (rows t))
       = map Service.service_type (filter (refs k) (rows (services d))) ++ l.
Proof.
  induction l as [|st l IH]; intros d k Hk.
  - exists (services d). rewrite app_nil_r. destruct d. repeat split.
  - set (r := Service.mk (next_id (services d)) (Some k) st 0).
    set (t1 := mkTable (rows (services d) ++ [r])
                 (Z.max (seq (services d)) (next_id (services d)))).
    assert (Hlt : forall x, In x (rows (services d)) -> row_id x < row_id r).
    { intros x Hx. apply (next_id_gt _ _ Hx). }
    assert (Hstep : ins_service_new (Some k) (Some st) d
                    = (Ok tt, set_services d t1, [(OIns, TServices)])).
    { unfold ins_service_new, stmt. simpl fk_ok. rewrite Hk. simpl.
      unfold tbl_insert. fold r.
      rewrite (id_in_false _ _ Hlt), (ins_by_id_app _ _ Hlt). reflexivity. }
    destruct (IH (set_services d t1) k) as [t [Hrun [Hoth Hmine]]].
    { rewrite client_exists_set_services. exact Hk. }
    exists t. simpl map. simpl for_.
    rewrite (bind_ok _ _ _ _ _ _ Hstep), Hrun. split; [reflexivity|]. split.
    + rewrite Hoth. simpl. rewrite filter_app. simpl.
      unfold refs at 2, row_client. simpl. rewrite Z.eqb_refl. simpl.
      apply app_nil_r.
    + rewrite Hmine. simpl. rewrite filter_app, map_app. simpl.
      unfold refs at 2, row_client. simpl. rewrite Z.eqb_refl. simpl.
      rewrite <- app_assoc. reflexivity.
Qed.

Lemma refs_true : forall {R} `{HasClient R} k (r : R),
  refs k r = true <-> row_client r = Some k.
Proof.
  intros R HC k r. unfold refs. destruct (row_client r) as [k'|]; split; intro Hr;
    try discriminate.
  - apply Z.eqb_eq in Hr. subst. reflexivity.
  - injection Hr as ->. apply Z.eqb_refl.
Qed.

Lemma wf_fk_payments : forall d p,
  wf d = true -> In p (rows (payments d)) -> fk_ok d (Payment.client_id p) = true.
Proof.
  intros d p Hwf Hin. unfold wf, fk_valid in Hwf.
  repeat rewrite andb_true_iff in Hwf.
  destruct Hwf as [_ [[[_ Hp] _] _]].
  rewrite forallb_forall in Hp. exact (Hp p Hin).
Qed.

Lemma patch_payments_found : forall d k b p,
  client_exists d k = true ->
  find (refs k) (rows (payments d)) = Some p ->
  exists d' tr,
    patch_payments k b d = (Ok (Resp 200 BSuccess), d', tr)
    /\ clients d' = clients d /\ services d' = services d /\ tasks d' = tasks d
    /\ rows (payments d') = map (paid_row k (PaymentBody.advance_paid b)
          (Payment.total_amount p - PaymentBody.advance_paid b) (clock d))
          (rows (payments d))
    /\ rows (transactions d') =
         rows (transactions d) ++
         match PaymentBody.amount_added b with
         | Some a => if 0 <? a then [ledger_row d k a] else []
         | None => []
         end.
Proof.
  intros d k [adv added] p Hk Hfind.
  assert (Hlt : forall x, In x (rows (transactions d)) ->
                row_id x < next_id (transactions d)).
  { intros x Hx. apply (next_id_gt _ _ Hx). }
  unfold patch_payments, try_catch, bind, sel_payment, transaction, upd_payments,
    stmt, ret.
  rewrite Hfind. cbn -[next_id id_in ins_by_id paid_row].
  destruct added as [a|]; cbn -[next_id id_in ins_by_id].
  - destruct (0 <? a) eqn:Ha; cbn -[next_id id_in ins_by_id].
    + unfold ins_txn_new, stmt. cbn -[next_id id_in ins_by_id].
      rewrite client_exists_set_payments, Hk. cbn -[next_id id_in ins_by_id].
      unfold tbl_insert. cbn -[next_id id_in ins_by_id].
      rewrite (id_in_false _ _ Hlt). rewrite ins_by_id_app by exact Hlt.
      eexists _, _. split; [reflexivity|]. repeat split.
    + eexists _, _. split; [reflexivity|]. simpl. rewrite app_nil_r. repeat split.
  - eexists _, _. split; [reflexivity|]. simpl. rewrite app_nil_r. repeat split.
Qed.

Lemma patch_payments_missing : forall d k b,
  find (refs k) (rows (payments d)) = None ->
  patch_payments k b d
    = (Ok (Resp 404 (BError "Payment record not found")), d, [(OSel, TPayments)]).
Proof.
  intros d k b Hfind.
  unfold patch_payments, try_catch, bind, sel_payment, stmt, ret.
  rewrite Hfind. reflexivity.
Qed.

Lemma find_payment_none : forall d k,
  find (refs k) (rows (payments d)) = None <-> ~ has_payment d k.
Proof.
  intros d k. split.
  - intros Hf [p [Hin Hcl]].
    pose proof (find_none _ _ Hf p Hin) as Hr.
    assert (refs k p = true) by (apply refs_true; exact Hcl). congruence.
  - intros Hno. destruct (find (refs k) (rows (payments d))) as [p|] eqn:Hf;
      [|reflexivity].
    exfalso. apply Hno. apply find_some in Hf as [Hin Hr].
    exists p. split; [exact Hin|]. apply refs_true in Hr. exact Hr.
Qed.

Lemma found_payment_client : forall d k p,
  wf d = true -> find (refs k) (rows (payments d)) = Some p ->
  client_exists d k = true.
Proof.
  intros d k p Hwf Hf. apply find_some in Hf as [Hin Hr].
  apply refs_true in Hr.
  pose proof (wf_fk_payments d p Hwf Hin) as Hfk.
  change (Payment.client_id p) with (row_client p) in Hfk.
  rewrite Hr in Hfk. exact Hfk.
Qed.

Example db_dup_ok :
  fst (fst (post_restore dup_body empty_db)) = Ok (Resp 200 BSuccess)
  /\ wf db_dup = true.
Proof. vm_compute. split; reflexivity. Qed.

(** ** Claims *)

(** C7: [PATCH /api/payments/:clientId] answers 404 exactly when no
    payment row exists for the client, and then leaves the database as it
    was; when a payment row exists it answers [{success: true}]. *)
Theorem patch_payments_not_found (d : db) (k : Z) (b : PaymentBody.t)
  (Hwf : wf d = true) :
  let '(r, d', _) := patch_payments k b d in
  (r = Ok (Resp 404 (BError "Payment record not found")) <-> ~ has_payment d k)
  /\ (~ has_payment d k -> d' = d)
  /\ (has_payment d k -> r = Ok (Resp 200 BSuccess)).
Proof.
  destruct (find (refs k) (rows (payments d))) as [p|] eqn:Hf.
  - destruct (patch_payments_found d k b p (found_payment_client d k p Hwf Hf) Hf)
      as [d' [tr [Hrun _]]].
    rewrite Hrun.
    assert (Hhas : has_payment d k).
    { apply find_some in Hf as [Hin Hr]. exists p. split; [exact Hin|].
      apply refs_true in Hr. exact Hr. }
    split; [|split].
    + split; [discriminate|]. intros Hno. contradiction.
    + intros Hno. contradiction.
    + intros _. reflexivity.
  - rewrite (patch_payments_missing d k b Hf).
    pose proof (proj1 (find_payment_none d k) Hf) as Hno.
    split; [|split].
    + split; intros _; [exact Hno | reflexivity].
    + intros _. reflexivity.
    + intros Hhas. contradiction.
Qed.

Lemma patch_payments_not_found_witness :
  wf db1 = true /\
  (let '(r, d', _) := patch_payments 2 (PaymentBody.mk 400 None) db1 in
   (r = Ok (Resp 404 (BError "Payment record not found")) <-> ~ has_payment db1 2)
   /\ (~ has_payment db1 2 -> d' = db1)
   /\ (has_payment db1 2 -> r = Ok (Resp 200 BSuccess))).
Proof.
  split; [vm_compute; reflexivity|].
  apply (patch_payments_not_found db1 2 (PaymentBody.mk 400 None)).
  vm_compute. reflexivity.
Defined.

(** C1, as stated, fails when a client owns two payment rows (a state
    [POST /api/restore] accepts): the UPDATE writes every row of the
    client with the remaining balance computed from the first row's
    total, so the second row (total 500) gets 1000 - 400 = 600 rather
    than 500 - 400. *)
Lemma patch_payments_dup_counterexample :
  let '(_, d', _) := patch_payments 1 (PaymentBody.mk 400 None) db_dup in
  map (fun p => (Payment.total_amount p, Payment.remaining_balance p))
      (rows (payments d')) = [(1000, 600); (500, 600)]
  /\ ~ (forall p, In p (rows (payments d')) -> Payment.client_id p = Some 1 ->
          Payment.remaining_balance p = Payment.total_amount p - 400).
Proof.
  vm_compute. split; [reflexivity|].
  intros H. specialize (H _ (or_intror (or_introl eq_refl)) eq_refl).
  discriminate H.
Qed.

(** C1 (amended): with [p] the first payment row of client [k] (total [T]),
    [PATCH /api/payments/:k] with [advance_paid = A] sets [advance_paid]
    to [A], [remaining_balance] to [T - A] and [last_updated] to now on
    every payment row of [k] (just [p] when it is the client's only row),
    touches no other row, appends exactly one ledger row
    [(k, amount_added, 'payment')] when [amount_added] is present and
    positive and none otherwise, and answers [{success: true}]. *)
Theorem patch_payments_update (d : db) (k : Z) (b : PaymentBody.t) (p : Payment.row)
  (Hwf : wf d = true) (Hfirst : find (refs k) (rows (payments d)) = Some p) :
  let '(r, d', _) := patch_payments k b d in
  r = Ok (Resp 200 BSuccess)
  /\ clients d' = clients d /\ services d' = services d /\ tasks d' = tasks d
  /\ rows (payments d') = map (paid_row k (PaymentBody.advance_paid b)
        (Payment.total_amount p - PaymentBody.advance_paid b) (clock d))
        (rows (payments d))
  /\ rows (transactions d') =
       rows (transactions d) ++
       match PaymentBody.amount_added b with
       | Some a => if 0 <? a then [ledger_row d k a] else []
       | None => []
       end.
Proof.
  destruct (patch_payments_found d k b p (found_payment_client d k p Hwf Hfirst) Hfirst)
    as [d' [tr [Hrun H]]].
  rewrite Hrun. split; [reflexivity | exact H].
Qed.

Lemma patch_payments_update_witness :
  wf db1 = true /\ find (refs 1) (rows (payments db1)) = Some db1_payment /\
  (let '(r, d', _) := patch_payments 1 (PaymentBody.mk 400 (Some 100)) db1 in
   r = Ok (Resp 200 BSuccess)
   /\ clients d' = clients db1 /\ services d' = services db1 /\ tasks d' = tasks db1
   /\ rows (payments d') = map (paid_row 1 400 (1000 - 400) (clock db1))
         (rows (payments db1))
   /\ rows (transactions d') = rows (transactions db1) ++ [ledger_row db1 1 100]).
Proof.
  split; [vm_compute; reflexivity|]. split; [vm_compute; reflexivity|].
  apply (patch_payments_update db1 1 (PaymentBody.mk 400 (Some 100)) db1_payment);
    vm_compute; reflexivity.
Defined.

Lemma get_clients_view : forall atof d v, In v (get_clients atof d) ->
  In (v_client v) (rows (clients d))
  /\ v_services v = services_field (group_concat (service_types_of d (Client.id (v_client v)))).
Proof.
  intros atof d v Hin. unfold get_clients in Hin. rewrite In_isort in Hin.
  apply in_flat_map in Hin as [c [Hc Hv]].
  destruct (filter (refs (Client.id c)) (rows (payments d))) as [|p ps].
  - destruct Hv as [<-|[]]. simpl. split; [exact Hc | reflexivity].
  - apply in_map_iff in Hv as [q [<- _]]. simpl. split; [exact Hc | reflexivity].
Qed.

Lemma cascade_removes : forall {R} `{HasClient R} (gone : Z -> bool) k (l : list R) x,
  gone k = true -> In x (filter (fun r => negb (refs_some gone r)) l) ->
  row_client x <> Some k.
Proof.
  intros R HC gone k l x Hg Hin Hcl. apply filter_In in Hin as [_ Hneg].
  unfold refs_some in Hneg. rewrite Hcl, Hg in Hneg. discriminate.
Qed.

Lemma gone_of_exists : forall d k, client_exists d k = true ->
  existsb (fun c => (Client.id c =? k) && (Client.id c =? k)) (rows (clients d)) = true.
Proof.
  intros d k Hk. unfold client_exists in Hk. apply id_in_iff in Hk as [c [Hin Hid]].
  apply existsb_exists. exists c. split; [exact Hin|].
  change (row_id c) with (Client.id c) in Hid. rewrite Hid, Z.eqb_refl. reflexivity.
Qed.

(** C2: after [DELETE /api/clients/:id] on an existing client [k],
    [GET /api/clients] no longer lists [k] and no service, payment or task
    row references [k] (ON DELETE CASCADE). *)
Theorem delete_client_cascade (d : db) (k : Z) (Hk : client_exists d k = true) :
  let '(r, d', _) := delete_clients_h k d in
  r = Ok (Resp 204 BEmpty)
  /\ (forall atof v, In v (get_clients atof d') -> Client.id (v_client v) <> k)
  /\ (forall s, In s (rows (services d')) -> Service.client_id s <> Some k)
  /\ (forall p, In p (rows (payments d')) -> Payment.client_id p <> Some k)
  /\ (forall t, In t (rows (tasks d')) -> Task.client_id t <> Some k).
Proof.
  pose proof (gone_of_exists d k Hk) as Hg.
  unfold delete_clients_h, bind, del_client, stmt, ret. simpl.
  split; [reflexivity|]. split; [|split; [|split]].
  - intros atof v Hv. apply get_clients_view in Hv as [Hc _].
    simpl in Hc. apply filter_In in Hc as [_ Hneg].
    intros Hid. rewrite Hid, Z.eqb_refl in Hneg. discriminate.
  - intros s Hs. exact (cascade_removes _ k _ s Hg Hs).
  - intros p Hp. exact (cascade_removes _ k _ p Hg Hp).
  - intros t Ht. exact (cascade_removes _ k _ t Hg Ht).
Qed.

Lemma delete_client_cascade_witness :
  client_exists db1 1 = true /\
  (let '(r, d', _) := delete_clients_h 1 db1 in
   r = Ok (Resp 204 BEmpty)
   /\ (forall atof v, In v (get_clients atof d') -> Client.id (v_client v) <> 1)
   /\ (forall s, In s (rows (services d')) -> Service.client_id s <> Some 1)
   /\ (forall p, In p (rows (payments d')) -> Payment.client_id p <> Some 1)
   /\ (forall t, In t (rows (tasks d')) -> Task.client_id t <> Some 1)).
Proof.
  split; [vm_compute; reflexivity|].
  apply (delete_client_cascade db1 1). vm_compute. reflexivity.
Defined.

Lemma filter_all_true : forall {A} (f : A -> bool) l,
  (forall x, In x l -> f x = true) -> filter f l = l.
Proof.
  intros A f l. induction l as [|x l IH]; intros Hall; simpl; [reflexivity|].
  rewrite (Hall x (or_introl eq_refl)). f_equal. apply IH.
  intros y Hy. apply Hall. right. exact Hy.
Qed.

Lemma filter_all_false : forall {A} (f : A -> bool) l,
  (forall x, In x l -> f x = false) -> filter f l = [].
Proof.
  intros A f l. induction l as [|x l IH]; intros Hall; simpl; [reflexivity|].
  rewrite (Hall x (or_introl eq_refl)). apply IH.
  intros y Hy. apply Hall. right. exact Hy.
Qed.

(** Under [wf], no child row of a table references a client that does
    not exist. *)
Lemma fk_no_ref : forall {R} `{HasClient R} d k (l : list R),
  forallb (fun r => fk_ok d (row_client r)) l = true ->
  client_exists d k = false -> forall x, In x l -> refs k x = false.
Proof.
  intros R HC d k l Hall Hk x Hin. rewrite forallb_forall in Hall.
  specialize (Hall x Hin). unfold refs. unfold fk_ok in Hall.
  destruct (row_client x) as [k'|]; [|reflexivity].
  destruct (Z.eqb_spec k' k); [subst; congruence | reflexivity].
Qed.

Lemma wf_fk : forall d, wf d = true ->
  forallb (fun r => fk_ok d (row_client r)) (rows (services d)) = true
  /\ forallb (fun r => fk_ok d (row_client r)) (rows (payments d)) = true
  /\ forallb (fun r => fk_ok d (row_client r)) (rows (tasks d)) = true
  /\ forallb (fun r => fk_ok d (row_client r)) (rows (transactions d)) = true.
Proof.
  intros d Hwf. unfold wf, fk_valid in Hwf. repeat rewrite andb_true_iff in Hwf.
  tauto.
Qed.

Lemma ins_client_new_ok : forall d n b,
  ins_client_new (Some n) (CreateBody.email b) (CreateBody.phone b)
    (CreateBody.company b) (CreateBody.notes b) (CreateBody.managed_by b) d
  = (Ok (next_id (clients d)),
     set_clients d (mkTable (rows (clients d) ++ [new_client_row d n b])
                     (Z.max (seq (clients d)) (next_id (clients d)))),
     [(OIns, TClients)]).
Proof.
  intros d n b.
  assert (Hlt : forall x, In x (rows (clients d)) -> row_id x < next_id (clients d)).
  { intros x Hx. apply (next_id_gt _ _ Hx). }
  unfold ins_client_new, stmt, tbl_insert.
  change (row_id (new_client_row d n b)) with (next_id (clients d)).
  cbn -[next_id id_in ins_by_id].
  rewrite (id_in_false _ _ Hlt). rewrite ins_by_id_app by exact Hlt. reflexivity.
Qed.

Lemma ins_payment_new_ok : forall d k total adv rem,
  client_exists d k = true ->
  ins_payment_new (Some k) total adv rem d
  = (Ok tt,
     set_payments d (mkTable (rows (payments d) ++
        [Payment.mk (next_id (payments d)) (Some k) total adv rem (Some (clock d))])
        (Z.max (seq (payments d)) (next_id (payments d)))),
     [(OIns, TPayments)]).
Proof.
  intros d k total adv rem Hk.
  assert (Hlt : forall x, In x (rows (payments d)) -> row_id x < next_id (payments d)).
  { intros x Hx. apply (next_id_gt _ _ Hx). }
  unfold ins_payment_new, stmt, tbl_insert. simpl fk_ok. rewrite Hk.
  cbn -[next_id id_in ins_by_id].
  rewrite (id_in_false _ _ Hlt). rewrite ins_by_id_app by exact Hlt. reflexivity.
Qed.

Lemma post_clients_shape : forall d b,
  let '(r, d', _) := post_clients b d in
  (exists k, r = Ok (Resp 201 (BId k))) \/ (exists e, r = Ok (err500 e) /\ d' = d).
Proof.
  intros d b. unfold post_clients, try_catch, transaction.
  match goal with |- context [match ?m d with _ => _ end] =>
    destruct (m d) as [[[k|e] d1] t] end.
  - left. exists k. reflexivity.
  - right. exists e. split; reflexivity.
Qed.

Lemma post_clients_success : forall d b n l,
  wf d = true ->
  CreateBody.name b = Some n -> CreateBody.services b = Some (map Some l) ->
  let k := next_id (clients d) in
  exists d' tr,
    post_clients b d = (Ok (Resp 201 (BId k)), d', tr)
    /\ client_exists d k = false
    /\ rows (clients d') = rows (clients d) ++ [new_client_row d n b]
    /\ service_types_of d' k = l
    /\ filter (fun s => negb (refs k s)) (rows (services d')) = rows (services d)
    /\ filter (refs k) (rows (payments d'))
       = [Payment.mk (next_id (payments d)) (Some k) (CreateBody.total_amount b)
            (CreateBody.advance_paid b)
            (CreateBody.total_amount b - CreateBody.advance_paid b) (Some (clock d))]
    /\ filter (fun p => negb (refs k p)) (rows (payments d')) = rows (payments d)
    /\ tasks d' = tasks d /\ transactions d' = transactions d.
Proof.
  intros d b n l Hwf Hn Hs k.
  destruct (wf_fk d Hwf) as [Hfs [Hfp _]].
  assert (Hfresh : client_exists d k = false).
  { unfold client_exists. apply id_in_false. intros x Hx. apply (next_id_gt _ _ Hx). }
  set (d1 := set_clients d (mkTable (rows (clients d) ++ [new_client_row d n b])
                (Z.max (seq (clients d)) (next_id (clients d))))).
  assert (Hk1 : client_exists d1 k = true).
  { unfold client_exists, d1. simpl. apply id_in_iff.
    exists (new_client_row d n b). split; [apply in_or_app; right; left; reflexivity|].
    reflexivity. }
  destruct (for_ins_service_new_ok l d1 k Hk1) as [t [Hfor [Hoth Hmine]]].
  assert (Hk2 : client_exists (set_services d1 t) k = true) by exact Hk1.
  unfold post_clients, try_catch, transaction. rewrite Hn.
  rewrite (bind_ok _ _ _ _ _ _ (ins_client_new_ok d n b)). fold d1. cbv beta.
  rewrite Hs. cbv beta iota.
  rewrite (bind_ok _ _ _ _ _ _ Hfor). cbv beta zeta.
  rewrite (bind_ok _ _ _ _ _ _ (ins_payment_new_ok _ _ _ _ _ Hk2)).
  eexists _, _. split; [reflexivity|].
  split; [exact Hfresh|]. split; [reflexivity|].
  assert (Hnone_s : filter (refs k) (rows (services d)) = []).
  { apply filter_all_false. intros x Hx. exact (fk_no_ref d k _ Hfs Hfresh x Hx). }
  assert (Hall_s : filter (fun s => negb (refs k s)) (rows (services d)) = rows (services d)).
  { apply filter_all_true. intros x Hx. rewrite (fk_no_ref d k _ Hfs Hfresh x Hx).
    reflexivity. }
  assert (Hnone_p : filter (refs k) (rows (payments d)) = []).
  { apply filter_all_false. intros x Hx. exact (fk_no_ref d k _ Hfp Hfresh x Hx). }
  assert (Hall_p : filter (fun p => negb (refs k p)) (rows (payments d)) = rows (payments d)).
  { apply filter_all_true. intros x Hx. rewrite (fk_no_ref d k _ Hfp Hfresh x Hx).
    reflexivity. }
  split.
  { unfold service_types_of. simpl. rewrite Hmine. simpl. rewrite Hnone_s. reflexivity. }
  split.
  { simpl. rewrite Hoth. simpl. exact Hall_s. }
  split.
  { simpl. rewrite filter_app, Hnone_p. simpl.
    unfold refs at 1, row_client. simpl. rewrite Z.eqb_refl. reflexivity. }
  split.
  { simpl. rewrite filter_app, Hall_p. simpl.
    unfold refs at 1, row_client. simpl. rewrite Z.eqb_refl. apply app_nil_r. }
  split; reflexivity.
Qed.



(** A failing creation: a null entry in [services] makes the service
    insert fail after the client row was written, and the transaction
    rolls everything back. *)
Example post_clients_rollback_ex :
  let b := CreateBody.mk (Some "Beta") None None None (Some [Some "SEO"; None])
             500 100 None None in
  let '(r, d', _) := post_clients b db1 in
  r = Ok (err500 "NOT NULL constraint failed: services.service_type") /\ d' = db1.
Proof. vm_compute. split; reflexivity. Qed.

Lemma filter_filter_neg : forall {A} (f : A -> bool) l,
  filter f (filter (fun x => negb (f x)) l) = [].
Proof.
  intros A f l. induction l as [|x l IH]; simpl; [reflexivity|].
  destruct (f x) eqn:Hx; simpl; [exact IH|]. rewrite Hx. exact IH.
Qed.

Lemma filter_idem : forall {A} (f : A -> bool) l, filter f (filter f l) = filter f l.
Proof.
  intros A f l. induction l as [|x l IH]; simpl; [reflexivity|].
  destruct (f x) eqn:Hx; simpl; [rewrite Hx, IH|]; auto.
Qed.

Lemma id_in_map_updated : forall k k' n b l,
  id_in k' (map (updated_client k n b) l) = id_in k' l.
Proof.
  intros k k' n b l. induction l as [|c l IH]; simpl; [reflexivity|].
  rewrite IH. unfold updated_client. destruct (Client.id c =? k); reflexivity.
Qed.

Lemma patch_clients_success : forall d k b n l,
  client_exists d k = true ->
  UpdateBody.name b = Some n -> UpdateBody.services b = Some (map Some l) ->
  exists d' tr,
    patch_clients k b d = (Ok (Resp 200 BSuccess), d', tr)
    /\ service_types_of d' k = l
    /\ filter (fun s => negb (refs k s)) (rows (services d'))
       = filter (fun s => negb (refs k s)) (rows (services d)).
Proof.
  intros d k b n l Hk Hn Hs.
  set (d1 := set_clients d (tbl_map (updated_client k n b) (clients d))).
  assert (Hupd : upd_client k (UpdateBody.name b) (UpdateBody.email b)
                   (UpdateBody.phone b) (UpdateBody.company b) (UpdateBody.notes b)
                   (UpdateBody.managed_by b) d = (Ok tt, d1, [(OUpd, TClients)])).
  { unfold upd_client, stmt. rewrite Hk, Hn. reflexivity. }
  set (d2 := set_services d1 (tbl_filter (fun s => negb (refs k s)) (services d1))).
  assert (Hk2 : client_exists d2 k = true).
  { unfold client_exists, d2, d1. simpl. rewrite id_in_map_updated. exact Hk. }
  destruct (for_ins_service_new_ok l d2 k Hk2) as [t [Hfor [Hoth Hmine]]].
  unfold patch_clients, try_catch, transaction.
  rewrite (bind_ok _ _ _ _ _ _ Hupd). cbv beta. rewrite Hs. cbv beta iota.
  assert (Hdel : del_services_of k d1 = (Ok tt, d2, [(ODel, TServices)]))
    by reflexivity.
  rewrite (bind_ok _ _ _ _ _ _ Hdel). cbv beta.
  change (fun service : option string => ins_service_new (Some k) service)
    with (ins_service_new (Some k)).
  rewrite Hfor.
  eexists _, _. split; [reflexivity|]. split.
  - unfold service_types_of. simpl. rewrite Hmine. unfold d2. simpl.
    rewrite filter_filter_neg. reflexivity.
  - simpl. rewrite Hoth. unfold d2, d1. simpl.
    apply filter_idem.
Qed.

Lemma patch_clients_shape : forall d k b,
  let '(r, d', _) := patch_clients k b d in
  r = Ok (Resp 200 BSuccess) \/ (exists e, r = Ok (err500 e) /\ d' = d).
Proof.
  intros d k b. unfold patch_clients, try_catch, transaction.
  match goal with |- context [match ?m d with _ => _ end] =>
    destruct (m d) as [[[u|e] d1] t] end.
  - left. reflexivity.
  - right. exists e. split; reflexivity.
Qed.

(** C6, as stated, fails for a request that carries [services] but no
    [name]: the handler also writes [name = NULL] in the same transaction,
    the NOT NULL constraint aborts it, and the prior services stay. *)
Lemma patch_clients_no_name_counterexample :
  let b := UpdateBody.mk None None None None None (Some [Some "Ads"; Some "Video"]) None in
  let '(r, d', _) := patch_clients 1 b db1 in
  r = Ok (err500 "NOT NULL constraint failed: clients.name")
  /\ service_types_of d' 1 = ["SEO"; "Web"]
  /\ service_types_of d' 1 <> ["Ads"; "Video"].
Proof. vm_compute. split; [reflexivity|]. split; [reflexivity|]. discriminate. Qed.

(** A loop of [INSERT INTO services] over a list holding a null service
    type fails, whatever the earlier inserts do. *)
Lemma for_ins_service_new_null : forall l ck d, In None l ->
  exists e d1 t, for_ l (ins_service_new ck) d = (Err e, d1, t).
Proof.
  induction l as [|x l IH]; intros ck d Hin; [destruct Hin|].
  simpl for_. destruct x as [st|].
  - destruct Hin as [Hx|Hin]; [discriminate|].
    destruct (ins_service_new ck (Some st) d) as [[[u|e] d1] t1] eqn:Hs.
    + destruct u. rewrite (bind_ok _ _ _ _ _ _ Hs).
      destruct (IH ck d1 Hin) as (e & d2 & t2 & Hr). rewrite Hr. eauto.
    + rewrite (bind_err _ _ _ _ _ _ Hs). eauto.
  - unfold bind. simpl. eauto.
Qed.

Lemma not_in_none_map : forall (l : list (option string)), ~ In None l ->
  exists l', l = map Some l'.
Proof.
  induction l as [|[x|] l IH]; intros H.
  - exists []. reflexivity.
  - destruct IH as [l' ->]; [intro E; apply H; right; exact E|].
    exists (x :: l'). reflexivity.
  - exfalso. apply H. left. reflexivity.
Qed.

(** The transaction body of [PATCH /api/clients/:id] failing makes the
    handler answer 500 with the state rolled back. *)
Lemma patch_clients_body_err : forall d k b,
  let body :=
      upd_client k (UpdateBody.name b) (UpdateBody.email b)
        (UpdateBody.phone b) (UpdateBody.company b) (UpdateBody.notes b)
        (UpdateBody.managed_by b) ;;;
      match UpdateBody.services b with
      | None => ret tt
      | Some l =>
          del_services_of k ;;;
          for_ l (fun service => ins_service_new (Some k) service)
      end in
  forall e d1 t, body d = (Err e, d1, t) ->
  patch_clients k b d = (Ok (err500 e), d, t).
Proof.
  intros d k b body e d1 t H. unfold patch_clients, try_catch, transaction.
  fold body. rewrite H. reflexivity.
Qed.

Lemma patch_clients_null_name : forall d k b,
  client_exists d k = true -> UpdateBody.name b = None ->
  exists t, patch_clients k b d = (Ok (err500 (not_null_err "clients.name")), d, t).
Proof.
  intros d k b Hk Hn. eexists. apply (patch_clients_body_err d k b _ d).
  apply bind_err. unfold upd_client, stmt. rewrite Hk, Hn. reflexivity.
Qed.

Lemma patch_clients_null_service : forall d k b l,
  UpdateBody.services b = Some l -> In None l ->
  exists e t, patch_clients k b d = (Ok (err500 e), d, t).
Proof.
  intros d k b l Hs Hin.
  destruct (upd_client k (UpdateBody.name b) (UpdateBody.email b)
              (UpdateBody.phone b) (UpdateBody.company b) (UpdateBody.notes b)
              (UpdateBody.managed_by b) d) as [[[u|e] d1] t1] eqn:Hu.
  - destruct u.
    assert (Hdel : del_services_of k d1
                   = (Ok tt, set_services d1 (tbl_filter (fun s => negb (refs k s))
                                                (services d1)), [(ODel, TServices)]))
      by reflexivity.
    destruct (for_ins_service_new_null l (Some k)
      (set_services d1 (tbl_filter (fun s => negb (refs k s)) (services d1))) Hin)
      as (e & d3 & t3 & Hf).
    exists e. eexists. eapply patch_clients_body_err.
    rewrite (bind_ok _ _ _ _ _ _ Hu). cbv beta. rewrite Hs. cbv beta iota.
    rewrite (bind_ok _ _ _ _ _ _ Hdel). cbv beta.
    change (fun service : option string => ins_service_new (Some k) service)
      with (ins_service_new (Some k)).
    rewrite Hf. reflexivity.
  - exists e. eexists. eapply patch_clients_body_err. apply bind_err. exact Hu.
Qed.

Lemma patch_clients_no_services : forall d k b n,
  client_exists d k = true -> UpdateBody.name b = Some n ->
  UpdateBody.services b = None ->
  fst (fst (patch_clients k b d)) = Ok (Resp 200 BSuccess).
Proof.
  intros d k b n Hk Hn Hs. unfold patch_clients, try_catch, transaction.
  unfold bind at 1. unfold upd_client at 1, stmt at 1. rewrite Hk, Hn, Hs.
  reflexivity.
Qed.

(** C6 (amended): [PATCH /api/clients/:id] runs in one transaction that
    either commits (200) or leaves the database unchanged (500).  For an
    existing client it commits exactly when the request carries a
    non-null [name] and no null service type; a null or absent [name]
    fails the NOT NULL constraint on clients.name, whatever the services.
    With a non-null [name] and a services list [l] of non-null service
    types it commits, the client's service rows become exactly [l] (in
    order), whatever they were, and the other clients' service rows are
    untouched. *)
Theorem patch_clients_replace (d : db) (k : Z) (b : UpdateBody.t)
  (Hk : client_exists d k = true) :
  let '(r, d', _) := patch_clients k b d in
  (r = Ok (Resp 200 BSuccess) \/ (exists e, r = Ok (err500 e) /\ d' = d))
  /\ (r = Ok (Resp 200 BSuccess) <->
      UpdateBody.name b <> None
      /\ forall l, UpdateBody.services b = Some l -> ~ In None l)
  /\ (UpdateBody.name b = None ->
      r = Ok (err500 (not_null_err "clients.name")) /\ d' = d)
  /\ (forall n l, UpdateBody.name b = Some n -> UpdateBody.services b = Some (map Some l) ->
      r = Ok (Resp 200 BSuccess)
      /\ service_types_of d' k = l
      /\ filter (fun s => negb (refs k s)) (rows (services d'))
         = filter (fun s => negb (refs k s)) (rows (services d))).
Proof.
  pose proof (patch_clients_shape d k b) as Hshape.
  pose proof (patch_clients_null_name d k b Hk) as Hnull.
  pose proof (patch_clients_null_service d k b) as Hnulls.
  pose proof (patch_clients_no_services d k b) as Hnos.
  pose proof (fun n l => patch_clients_success d k b n l Hk) as Hsucc.
  destruct (patch_clients k b d) as [[r d'] tr] eqn:Hrun.
  split; [exact Hshape|]. split; [|split].
  - split.
    + intros Hr. split.
      * intros Hn. destruct (Hnull Hn) as [t E]. injection E as E _ _.
        rewrite Hr in E. discriminate.
      * intros l Hs Hin. destruct (Hnulls l Hs Hin) as (e & t & E).
        injection E as E _ _. rewrite Hr in E. discriminate.
    + intros [Hn Hs]. destruct (UpdateBody.name b) as [n|] eqn:En; [|contradiction].
      destruct (UpdateBody.services b) as [l|] eqn:Es.
      * destruct (not_in_none_map l (Hs l eq_refl)) as [l' ->].
        destruct (Hsucc n l' eq_refl eq_refl) as (d2 & tr2 & E & _).
        injection E as E _ _. exact E.
      * exact (Hnos n Hk eq_refl eq_refl).
  - intros Hn. destruct (Hnull Hn) as [t E]. injection E as -> -> _. split; reflexivity.
  - intros n l Hn Hs.
    destruct (Hsucc n l Hn Hs) as [d2 [tr2 [Hrun2 H]]].
    injection Hrun2 as -> -> ->.
    split; [reflexivity | exact H].
Qed.

Lemma patch_clients_replace_witness :
  client_exists db1 1 = true /\
  (let b := UpdateBody.mk (Some "Acme") None None None None
              (Some [Some "Ads"; Some "Video"]) None in
   let '(r, d', _) := patch_clients 1 b db1 in
   (r = Ok (Resp 200 BSuccess) \/ (exists e, r = Ok (err500 e) /\ d' = db1))
   /\ (r = Ok (Resp 200 BSuccess) <->
       UpdateBody.name b <> None
       /\ forall l, UpdateBody.services b = Some l -> ~ In None l)
   /\ (UpdateBody.name b = None ->
       r = Ok (err500 (not_null_err "clients.name")) /\ d' = db1)
   /\ (forall n l, UpdateBody.name b = Some n -> UpdateBody.services b = Some (map Some l) ->
       r = Ok (Resp 200 BSuccess)
       /\ service_types_of d' 1 = l
       /\ filter (fun s => negb (refs 1 s)) (rows (services d'))
          = filter (fun s => negb (refs 1 s)) (rows (services db1)))).
Proof.
  split; [vm_compute; reflexivity|].
  apply (patch_clients_replace db1 1). vm_compute. reflexivity.
Defined.

(** *** Backup and restore *)

Lemma set_clients_get : forall d, set_clients d (clients d) = d.
Proof. intros []. reflexivity. Qed.
Lemma set_services_get : forall d, set_services d (services d) = d.
Proof. intros []. reflexivity. Qed.
Lemma set_payments_get : forall d, set_payments d (payments d) = d.
Proof. intros []. reflexivity. Qed.
Lemma set_tasks_get : forall d, set_tasks d (tasks d) = d.
Proof. intros []. reflexivity. Qed.

Ltac ins_row_hyps :=
  first [ intros; reflexivity
        | exact set_clients_get | exact set_services_get
        | exact set_payments_get | exact set_tasks_get ].

Lemma for_ins_client_row_ok : forall l d,
  incr (map row_id (rows (clients d) ++ l)) = true ->
  exists t, for_ l ins_client_row d = (Ok tt, set_clients d t, repeat (OIns, TClients) (length l))
            /\ rows t = rows (clients d) ++ l.
Proof.
  intros l d Hinc. unfold ins_client_row.
  apply for_ins_row_ok; try ins_row_hyps; [|exact Hinc].
  apply Forall_forall. reflexivity.
Qed.

Lemma for_ins_service_row_ok : forall l d,
  Forall (fun r => fk_ok d (Service.client_id r) = true) l ->
  incr (map row_id (rows (services d) ++ l)) = true ->
  exists t, for_ l ins_service_row d = (Ok tt, set_services d t, repeat (OIns, TServices) (length l))
            /\ rows t = rows (services d) ++ l.
Proof.
  intros l d Hfk Hinc. unfold ins_service_row.
  apply for_ins_row_ok; try ins_row_hyps; [exact Hfk | exact Hinc].
Qed.

Lemma for_ins_payment_row_ok : forall l d,
  Forall (fun r => fk_ok d (Payment.client_id r) = true) l ->
  incr (map row_id (rows (payments d) ++ l)) = true ->
  exists t, for_ l ins_payment_row d = (Ok tt, set_payments d t, repeat (OIns, TPayments) (length l))
            /\ rows t = rows (payments d) ++ l.
Proof.
  intros l d Hfk Hinc. unfold ins_payment_row.
  apply for_ins_row_ok; try ins_row_hyps; [exact Hfk | exact Hinc].
Qed.

Lemma for_ins_task_row_ok : forall l d,
  Forall (fun r => fk_ok d (Task.client_id r) = true) l ->
  incr (map row_id (rows (tasks d) ++ l)) = true ->
  exists t, for_ l ins_task_row d = (Ok tt, set_tasks d t, repeat (OIns, TTasks) (length l))
            /\ rows t = rows (tasks d) ++ l.
Proof.
  intros l d Hfk Hinc. unfold ins_task_row.
  apply for_ins_row_ok; try ins_row_hyps; [exact Hfk | exact Hinc].
Qed.

Lemma restore_body_clear : forall b d,
  restore_body b d =
  let '(r, d', t) :=
    (for_ (RestoreBody.clients b) ins_client_row ;;;
     for_ (RestoreBody.services b) ins_service_row ;;;
     for_ (RestoreBody.payments b) ins_payment_row ;;;
     for_ (RestoreBody.tasks b) ins_task_row) (cleared d) in
  (r, d', clear_trace ++ t).
Proof.
  intros b d. unfold restore_body.
  rewrite (bind_ok _ _ _ _ _ _ (eq_refl (del_all_tasks d))). cbv beta.
  rewrite (bind_ok _ _ _ _ _ _ (eq_refl (del_all_payments _))). cbv beta.
  rewrite (bind_ok _ _ _ _ _ _ (eq_refl (del_all_services _))). cbv beta.
  rewrite (bind_ok _ _ _ _ _ _ (eq_refl (del_all_clients _))). cbv beta.
  change (delete_clients_where (fun _ => true) _) with (cleared d).
  match goal with |- context [?m (cleared d)] =>
    destruct (m (cleared d)) as [[r d'] t] end.
  reflexivity.
Qed.

Lemma filter_const_false : forall {A} (l : list A), filter (fun _ => false) l = [].
Proof. intros A l. apply filter_all_false. reflexivity. Qed.

Lemma cleared_rows : forall d,
  rows (clients (cleared d)) = [] /\ rows (services (cleared d)) = []
  /\ rows (payments (cleared d)) = [] /\ rows (tasks (cleared d)) = []
  /\ rows (transactions (cleared d))
     = filter (fun x => negb (refs_some (client_exists d) x)) (rows (transactions d)).
Proof.
  intros d. unfold cleared, delete_clients_where, tbl_filter. simpl.
  rewrite !filter_const_false. simpl. repeat split.
Qed.

Lemma fk_ok_same_clients : forall d d' c,
  rows (clients d') = rows (clients d) -> fk_ok d' c = fk_ok d c.
Proof.
  intros d d' [k|] Hc; [|reflexivity]. unfold fk_ok, client_exists. rewrite Hc.
  reflexivity.
Qed.

Lemma wf_incr : forall d, wf d = true ->
  incr (map row_id (rows (clients d))) = true
  /\ incr (map row_id (rows (services d))) = true
  /\ incr (map row_id (rows (payments d))) = true
  /\ incr (map row_id (rows (tasks d))) = true.
Proof.
  intros d Hwf. unfold wf, tbl_ok in Hwf. repeat rewrite andb_true_iff in Hwf. tauto.
Qed.

Lemma forallb_fk_Forall : forall {R} `{HasClient R} d d' (l : list R),
  rows (clients d') = rows (clients d) ->
  forallb (fun r => fk_ok d (row_client r)) l = true ->
  Forall (fun r => fk_ok d' (row_client r) = true) l.
Proof.
  intros R HC d d' l Hc Hall. apply Forall_forall. intros x Hx.
  rewrite (fk_ok_same_clients d d' _ Hc). rewrite forallb_forall in Hall. auto.
Qed.

(** C4, as stated, fails: [db_big] is well formed, but its backup gives
    both clients the id [2^53 + 4] (better-sqlite3 returns an INTEGER as
    the nearest double), and restoring it fails on the primary key. *)
Lemma backup_restore_counterexample :
  wf db_big = true
  /\ map Client.id (rows (clients db_big)) = [2 ^ 53 + 4; 2 ^ 53 + 5]
  /\ match restore_body_of (get_backup atof_nearest db_big "2026-10-17T09:00:00.000Z") with
     | Some b =>
         map Client.id (RestoreBody.clients b) = [2 ^ 53 + 4; 2 ^ 53 + 4]
         /\ fst (fst (post_restore b db_big)) = Ok (err500 (pk_err "clients.id"))
     | None => False
     end.
Proof. vm_compute. split; [reflexivity|]. split; [reflexivity|]. split; reflexivity. Qed.

Lemma bind_inv : forall {A B} (m : M A) (k : A -> M B) d b d' tr,
  bind m k d = (Ok b, d', tr) ->
  exists a d1 t1 t2, m d = (Ok a, d1, t1) /\ k a d1 = (Ok b, d', t2) /\ tr = t1 ++ t2.
Proof.
  intros A B m k d b d' tr H. unfold bind in H.
  destruct (m d) as [[[a|e] d1] t1]; [|discriminate].
  destruct (k a d1) as [[r d2] t2] eqn:Hk. injection H as H1 H2 H3. subst.
  exists a, d1, t1, t2. auto.
Qed.

Lemma for_ins_client_row_inv : forall l d d' tr,
  for_ l ins_client_row d = (Ok tt, d', tr) ->
  exists t, d' = set_clients d t
    /\ (forall x, In x (rows t) <-> In x (rows (clients d)) \/ In x l)
    /\ tr = repeat (OIns, TClients) (length l).
Proof. intros l d d' tr. unfold ins_client_row. apply for_ins_row_inv; ins_row_hyps. Qed.

Lemma for_ins_service_row_inv : forall l d d' tr,
  for_ l ins_service_row d = (Ok tt, d', tr) ->
  exists t, d' = set_services d t
    /\ (forall x, In x (rows t) <-> In x (rows (services d)) \/ In x l)
    /\ tr = repeat (OIns, TServices) (length l).
Proof. intros l d d' tr. unfold ins_service_row. apply for_ins_row_inv; ins_row_hyps. Qed.

Lemma for_ins_payment_row_inv : forall l d d' tr,
  for_ l ins_payment_row d = (Ok tt, d', tr) ->
  exists t, d' = set_payments d t
    /\ (forall x, In x (rows t) <-> In x (rows (payments d)) \/ In x l)
    /\ tr = repeat (OIns, TPayments) (length l).
Proof. intros l d d' tr. unfold ins_payment_row. apply for_ins_row_inv; ins_row_hyps. Qed.

Lemma for_ins_task_row_inv : forall l d d' tr,
  for_ l ins_task_row d = (Ok tt, d', tr) ->
  exists t, d' = set_tasks d t
    /\ (forall x, In x (rows t) <-> In x (rows (tasks d)) \/ In x l)
    /\ tr = repeat (OIns, TTasks) (length l).
Proof. intros l d d' tr. unfold ins_task_row. apply for_ins_row_inv; ins_row_hyps. Qed.

(** C5, as stated, fails: restoring [db2]'s own backup empties the ledger,
    because [DELETE FROM clients] cascades into [transactions] through its
    ON DELETE CASCADE foreign key, although the handler issues no
    statement on that table. *)
Lemma restore_ledger_counterexample :
  match restore_body_of (get_backup atof_nearest db2 "2026-10-17T09:00:00.000Z") with
  | Some b =>
      let '(r, d', tr) := post_restore b db2 in
      r = Ok (Resp 200 BSuccess)
      /\ length (rows (transactions db2)) = 1%nat
      /\ rows (transactions d') = []
      /\ forallb (fun g => match snd g with TTransactions => false | _ => true end) tr = true
  | None => False
  end.
Proof. vm_compute. repeat split. Qed.

(** C5 (amended): [POST /api/restore] runs in one transaction that either
    commits with 200, or fails with 500 and leaves the database unchanged.
    On success it has issued, in this order, the DELETEs on tasks,
    payments, services and clients, then one INSERT per supplied client,
    service, payment and task row, and no statement on [transactions];
    the four tables then hold exactly the supplied rows (ids included).
    The ledger is not preserved, though: the cascade of
    [DELETE FROM clients] has removed every ledger row referencing a
    client, so [transactions] keeps only its rows with no client. *)
Theorem post_restore_replace : forall d p,
  let '(r, d', tr) := post_restore p d in
  (r = Ok (Resp 200 BSuccess)
   /\ tr = clear_trace
           ++ repeat (OIns, TClients) (length (RestoreBody.clients p))
           ++ repeat (OIns, TServices) (length (RestoreBody.services p))
           ++ repeat (OIns, TPayments) (length (RestoreBody.payments p))
           ++ repeat (OIns, TTasks) (length (RestoreBody.tasks p))
   /\ (forall x, In x (rows (clients d')) <-> In x (RestoreBody.clients p))
   /\ (forall x, In x (rows (services d')) <-> In x (RestoreBody.services p))
   /\ (forall x, In x (rows (payments d')) <-> In x (RestoreBody.payments p))
   /\ (forall x, In x (rows (tasks d')) <-> In x (RestoreBody.tasks p))
   /\ rows (transactions d')
      = filter (fun x => negb (refs_some (client_exists d) x)) (rows (transactions d)))
  \/ (exists e, r = Ok (err500 e) /\ d' = d).
Proof.
  intros d p. unfold post_restore, try_catch, transaction. rewrite restore_body_clear.
  destruct (cleared_rows d) as (Ec & Es & Ep & Et & Etx).
  match goal with |- context [?m (cleared d)] =>
    destruct (m (cleared d)) as [[[u|e] d5] t] eqn:H end.
  - left. destruct u.
    apply bind_inv in H as ([] & d1 & t1 & t1' & H1 & H' & ->).
    apply for_ins_client_row_inv in H1 as (c & -> & Hc & ->).
    apply bind_inv in H' as ([] & d2 & t2 & t2' & H2 & H' & ->).
    apply for_ins_service_row_inv in H2 as (s & -> & Hs & ->).
    apply bind_inv in H' as ([] & d3 & t3 & t3' & H3 & H4 & ->).
    apply for_ins_payment_row_inv in H3 as (pa & -> & Hp & ->).
    apply for_ins_task_row_inv in H4 as (ta & -> & Ht & ->).
    cbn [clients services payments tasks transactions
         set_clients set_services set_payments set_tasks] in *.
    rewrite Ec in Hc. rewrite Es in Hs. rewrite Ep in Hp. rewrite Et in Ht.
    split; [reflexivity|]. split; [reflexivity|].
    split; [intro x; rewrite Hc; simpl; tauto|].
    split; [intro x; rewrite Hs; simpl; tauto|].
    split; [intro x; rewrite Hp; simpl; tauto|].
    split; [intro x; rewrite Ht; simpl; tauto|].
    exact Etx.
  - right. exists e. split; reflexivity.
Qed.

Lemma xcmp_antisym : forall a b, xcmp a b = CompOpp (xcmp b a).
Proof. intros [|x|] [|y|]; simpl; try reflexivity. symmetry. apply Qcompare_antisym. Qed.

Lemma num_cmp_antisym : forall a b, num_cmp a b = CompOpp (num_cmp b a).
Proof. intros [x|] [y|]; simpl; try reflexivity. apply xcmp_antisym. Qed.

Lemma sval_cmp_antisym : forall a b, sval_cmp a b = CompOpp (sval_cmp b a).
Proof.
  intros [|i|r|x] [|j|r'|y]; cbn [sval_cmp]; try reflexivity;
    try apply num_cmp_antisym.
  - apply Z.compare_antisym.
  - apply String.compare_antisym.
Qed.

Lemma cmp_opt_antisym : forall atof a b, cmp_opt atof a b = CompOpp (cmp_opt atof b a).
Proof. intros atof a b. apply sval_cmp_antisym. Qed.

Lemma task_le_total : forall atof a b, task_le atof a b = false -> task_le atof b a = true.
Proof.
  intros atof a b H. unfold task_le in *.
  rewrite (cmp_opt_antisym atof (Task.due_date (tv_task b))).
  rewrite (cmp_opt_antisym atof (Task.created_at (tv_task b))).
  destruct (cmp_opt atof (Task.due_date (tv_task a)) (Task.due_date (tv_task b)));
    simpl; try discriminate; try reflexivity.
  destruct (cmp_opt atof (Task.created_at (tv_task a)) (Task.created_at (tv_task b)));
    simpl; try discriminate; reflexivity.
Qed.

(** C8, as stated, fails: SQLite sorts NULL before every other value under
    [ASC], so a task with no due date comes first, not last. *)
Lemma get_tasks_nulls_counterexample :
  fst (fst (post_restore tasks_body db1)) = Ok (Resp 200 BSuccess)
  /\ wf dbT = true
  /\ map (fun v => (Task.id (tv_task v), Task.due_date (tv_task v)))
         (get_tasks atof_nearest dbT (Some 1))
     = [(2, None); (1, Some "2026-10-20")].
Proof. vm_compute. repeat split. Qed.

(** C8 (amended): [GET /api/tasks?clientId=k] returns exactly the task
    rows whose client_id is k, provided client k exists (inner join), each
    with that client's name; the list is ordered by due_date ascending
    and by created_at descending among equal (or both absent) due dates,
    in SQLite's order of these NUMERIC-affinity columns: tasks with no due
    date FIRST, then dates that read as numbers ([atof]), by value, then
    the other dates by their bytes. *)
Theorem get_tasks_client : forall atof d k,
  (forall v, In v (get_tasks atof d (Some k)) <->
     In (tv_task v) (rows (tasks d))
     /\ Task.client_id (tv_task v) = Some k
     /\ exists c, find (fun c => Client.id c =? k) (rows (clients d)) = Some c
                  /\ tv_client_name v = Client.name c)
  /\ Sorted (fun a b => task_le atof a b = true) (get_tasks atof d (Some k)).
Proof.
  intros atof d k. split.
  - intros v. unfold get_tasks. rewrite In_isort, filter_In, in_flat_map. split.
    + intros [[t [Ht Hv]] Hr].
      destruct (Task.client_id t) as [k'|] eqn:Hc; [|contradiction].
      destruct (find (fun c => Client.id c =? k') (rows (clients d))) as [c|] eqn:Hf;
        [|contradiction].
      destruct Hv as [<-|[]]. simpl.
      unfold refs in Hr. simpl in Hr. unfold row_client, task_cl_inst in Hr.
      rewrite Hc in Hr. apply Z.eqb_eq in Hr. subst k'.
      split; [exact Ht|]. split; [exact Hc|]. exists c. auto.
    + intros (Ht & Hc & c & Hf & Hn). split.
      * exists (tv_task v). split; [exact Ht|]. rewrite Hc, Hf. left.
        destruct v as [t n]. simpl in *. rewrite Hn. reflexivity.
      * unfold refs, row_client, task_cl_inst. rewrite Hc. apply Z.eqb_refl.
  - unfold get_tasks. apply isort_sorted. exact (task_le_total atof).
Qed.

(** *** Decimal digits *)

Lemma digits_fuel_nonempty : forall f n, digits_fuel f n <> [].
Proof.
  induction f as [|f IH]; intros n; simpl; [discriminate|].
  destruct (n <? 10); [discriminate|].
  intro H. apply app_eq_nil in H. destruct H as [_ H]. discriminate.
Qed.

Lemma digits_value_app : forall l x, digits_value (l ++ [x]) = digits_value l * 10 + x.
Proof. intros l x. unfold digits_value. rewrite fold_left_app. reflexivity. Qed.

Lemma digits_fuel_value : forall f n, 0 <= n -> digits_value (digits_fuel f n) = n.
Proof.
  induction f as [|f IH]; intros n Hn; simpl; [reflexivity|].
  destruct (n <? 10); [reflexivity|].
  rewrite digits_value_app, IH by (apply Z.div_pos; lia).
  pose proof (Z.div_mod n 10). lia.
Qed.

Lemma digits_fuel_digits : forall f n, 0 <= n < 10 ^ Z.of_nat (S f) ->
  Forall (fun x => 0 <= x <= 9) (digits_fuel f n).
Proof.
  induction f as [|f IH]; intros n Hn; simpl.
  - constructor; [simpl in Hn; lia | constructor].
  - destruct (n <? 10) eqn:H10.
    + apply Z.ltb_lt in H10. constructor; [lia | constructor].
    + apply Forall_app. split.
      * apply IH. split; [apply Z.div_pos; lia|].
        apply Z.div_lt_upper_bound; [lia|].
        rewrite <- Z.pow_succ_r by lia. rewrite <- Nat2Z.inj_succ. lia.
      * constructor; [|constructor]. pose proof (Z.mod_pos_bound n 10). lia.
Qed.

Lemma hd_app_nonempty : forall (l r : list Z), l <> [] -> hd 0 (l ++ r) = hd 0 l.
Proof. intros [|x l] r H; [contradiction|reflexivity]. Qed.

Lemma digits_fuel_head : forall f n, 0 < n -> hd 0 (digits_fuel f n) <> 0.
Proof.
  induction f as [|f IH]; intros n Hn; simpl; [lia|].
  destruct (n <? 10) eqn:H10; simpl; [lia|].
  apply Z.ltb_ge in H10.
  rewrite hd_app_nonempty by apply digits_fuel_nonempty.
  apply IH. apply Z.div_str_pos. lia.
Qed.

Lemma digits_bound : forall n, 0 <= n ->
  n < 10 ^ Z.of_nat (S (S (Z.to_nat (Z.log2 n)))).
Proof.
  intros n Hn. pose proof (Z.log2_nonneg n) as Hl.
  rewrite !Nat2Z.inj_succ, Z2Nat.id by exact Hl.
  destruct (Z.eq_dec n 0) as [->|Hn0].
  - apply Z.pow_pos_nonneg; lia.
  - destruct (Z.log2_spec n) as [_ Hlt]; [lia|].
    assert (2 ^ Z.succ (Z.log2 n) <= 10 ^ Z.succ (Z.log2 n))
      by (apply Z.pow_le_mono_l; lia).
    assert (10 ^ Z.succ (Z.log2 n) < 10 ^ Z.succ (Z.succ (Z.log2 n)))
      by (apply Z.pow_lt_mono_r; lia).
    lia.
Qed.

Lemma digits_ok : forall n, 0 <= n ->
  digits n <> [] /\ Forall (fun x => 0 <= x <= 9) (digits n)
  /\ digits_value (digits n) = n /\ (0 < n -> hd 0 (digits n) <> 0).
Proof.
  intros n Hn. unfold digits. split; [apply digits_fuel_nonempty|].
  split; [apply digits_fuel_digits; split; [exact Hn | apply digits_bound; exact Hn]|].
  split; [apply digits_fuel_value; exact Hn|].
  apply digits_fuel_head.
Qed.

(** The digits [toFixed(1)] prints for the scaled, rounded value [n]:
    an integer part without leading zeros, one fractional digit. *)
Lemma fixed_digits : forall n, 0 <= n ->
  let m' := if (length (digits n) <=? 1)%nat then (0 :: digits n) else digits n in
  removelast m' <> []
  /\ Forall (fun x => 0 <= x <= 9) (removelast m' ++ [last m' 0])
  /\ digits_value (removelast m' ++ [last m' 0]) = n
  /\ (removelast m' = [0] \/ hd 0 (removelast m') <> 0).
Proof.
  intros n Hn m'. destruct (digits_ok n Hn) as (Hne & Hdig & Hval & Hhd).
  subst m'. destruct (length (digits n) <=? 1)%nat eqn:Hlen.
  - apply Nat.leb_le in Hlen.
    destruct (digits n) as [|x [|y l]] eqn:Hd; [contradiction| |simpl in Hlen; lia].
    simpl. split; [discriminate|]. split.
    + constructor; [lia | exact Hdig].
    + split; [exact Hval | left; reflexivity].
  - apply Nat.leb_gt in Hlen.
    pose proof (app_removelast_last 0 Hne) as Happ.
    rewrite <- Happ.
    assert (Hrl : removelast (digits n) <> []).
    { intro E. rewrite E in Happ. rewrite Happ in Hlen. simpl in Hlen. lia. }
    split; [exact Hrl|]. split; [exact Hdig|]. split; [exact Hval|].
    right. rewrite <- (hd_app_nonempty _ [last (digits n) 0] Hrl), <- Happ.
    apply Hhd. destruct (Z.eq_dec n 0) as [->|]; [|lia].
    vm_compute in Hlen. lia.
Qed.

Lemma round_half_up_comp : forall x y, (x == y)%Q -> round_half_up x = round_half_up y.
Proof. intros x y H. unfold round_half_up. apply Qfloor_comp. rewrite H. reflexivity. Qed.

Lemma round_half_up_nonneg : forall x, (0 <= x)%Q -> 0 <= round_half_up x.
Proof.
  intros x Hx. unfold round_half_up.
  change 0 with (Qfloor 0). apply Qfloor_resp_le.
  apply (Qle_trans _ x); [exact Hx|].
  rewrite <- (Qplus_0_r x) at 1. apply Qplus_le_compat; [apply Qle_refl | discriminate].
Qed.

Lemma sf_mag_pos : forall m e, (0 < sf_mag m e)%Q.
Proof.
  intros m [|p|p]; unfold sf_mag, Qlt.
  - simpl. lia.
  - cbn [Qnum Qden inject_Z]. rewrite Z.mul_0_l, Z.mul_1_r.
    pose proof (Z.pow_pos_nonneg 2 (Zpos p) ltac:(lia) ltac:(lia)). nia.
  - simpl. lia.
Qed.

Lemma Qabs_sf_value : forall s m e, (Qabs (sf_value (S754_finite s m e)) == sf_mag m e)%Q.
Proof.
  intros s m e. pose proof (sf_mag_pos m e) as Hp. cbn [sf_value]. destruct s.
  - rewrite Qabs_opp. apply Qabs_pos. apply Qlt_le_weak. exact Hp.
  - apply Qabs_pos. apply Qlt_le_weak. exact Hp.
Qed.

(** A finite double is non-negative exactly when its sign bit is clear. *)
Lemma Qle_bool_sf_value : forall s m e,
  Qle_bool 0 (sf_value (S754_finite s m e)) = negb s.
Proof.
  intros s m e. pose proof (sf_mag_pos m e) as Hp. cbn [sf_value]. destruct s.
  - apply not_true_is_false. intros H. apply Qle_bool_iff in H.
    apply Qopp_le_compat in H. rewrite Qopp_involutive in H.
    apply (Qlt_irrefl 0). exact (Qlt_le_trans _ _ _ Hp H).
  - apply Qle_bool_iff. apply Qlt_le_weak. exact Hp.
Qed.

(** [0 <= x] on doubles against the sign of the value. *)
Lemma SFleb_zero_finite : forall x, sf_is_finite x = true ->
  SFleb (S754_zero false) x = Qle_bool 0 (sf_value x).
Proof.
  intros [s|s| |s m e] Hf; try discriminate.
  - destruct s; reflexivity.
  - rewrite Qle_bool_sf_value. destruct s; reflexivity.
Qed.

Lemma falsy_SFeqb : forall p, falsy p = false -> SFeqb p (S754_zero false) = false.
Proof. intros [s|s| |s m e] Hp; try discriminate; destruct s; reflexivity. Qed.

Lemma fixed1_comp : forall x y, (x == y)%Q -> fixed1 x = fixed1 y.
Proof.
  intros x y H. unfold fixed1.
  rewrite (round_half_up_comp (x * 10) (y * 10)) by (rewrite H; reflexivity).
  reflexivity.
Qed.

(** Step 7 of [toFixed(1)]: the digits of the integer part (no leading
    zero unless it is 0), a point and one digit, which together spell
    [y * 10] rounded half up. *)
Lemma fixed1_digits : forall y, (0 <= y)%Q ->
  exists a b, a <> [] /\ Forall (fun d => 0 <= d <= 9) (a ++ [b])
    /\ digits_value (a ++ [b]) = round_half_up (y * 10)
    /\ (a = [0] \/ hd 0 a <> 0)
    /\ fixed1 y = (digits_str a ++ "." ++ digits_str [b])%string.
Proof.
  intros y Hy.
  assert (Hn : 0 <= round_half_up (y * 10)).
  { apply round_half_up_nonneg. apply Qmult_le_0_compat; [exact Hy | discriminate]. }
  pose proof (fixed_digits _ Hn) as F. cbv zeta in F.
  destruct F as (H1 & H2 & H3 & H4).
  eexists. eexists. split; [exact H1|]. split; [exact H2|]. split; [exact H3|].
  split; [exact H4|]. reflexivity.
Qed.

(** [x.toFixed(1)] for a finite double below 10^21: a minus sign when
    [x] is negative, then step 7 on [|x|]. *)
Lemma toFixed1_small : forall x, sf_is_finite x = true ->
  (Qabs (sf_value x) < inject_Z (10 ^ 21))%Q ->
  toFixed1 x
  = ((if Qle_bool 0 (sf_value x) then "" else "-") ++ fixed1 (Qabs (sf_value x)))%string.
Proof.
  intros [s|s| |s m e] Hf Hx; try discriminate.
  - reflexivity.
  - pose proof (Qabs_sf_value s m e) as Habs.
    unfold toFixed1.
    destruct (Qle_bool (inject_Z (10 ^ 21)) (sf_mag m e)) eqn:Hb.
    + exfalso. apply Qle_bool_iff in Hb. rewrite Habs in Hx.
      apply (Qlt_not_le _ _ Hx Hb).
    + rewrite (fixed1_comp _ _ Habs), Qle_bool_sf_value. destruct s; reflexivity.
Qed.

Lemma str_app_assoc : forall a b c : string,
  ((a ++ b) ++ c)%string = (a ++ (b ++ c))%string.
Proof. induction a as [|ch a IH]; intros b c; simpl; [reflexivity | rewrite IH; reflexivity]. Qed.




Lemma split_aux_length : forall s cur, length (split_aux s cur) = S (count_commas s).
Proof.
  induction s as [|c s IH]; intros cur; simpl; [reflexivity|].
  destruct (Ascii.eqb c comma); simpl; rewrite IH; reflexivity.
Qed.

Lemma count_commas_app : forall a b,
  count_commas (a ++ b) = (count_commas a + count_commas b)%nat.
Proof.
  induction a as [|c a IH]; intros b; simpl; [reflexivity|]. rewrite IH. lia.
Qed.

Lemma count_commas_fold : forall r acc,
  count_commas (fold_left (fun acc y => (acc ++ "," ++ y)%string) r acc)
  = (count_commas acc + list_sum (map count_commas r) + length r)%nat.
Proof.
  induction r as [|y r IH]; intros acc; simpl; [lia|].
  rewrite IH, !count_commas_app. simpl. lia.
Qed.

Lemma fold_concat_empty : forall r acc,
  fold_left (fun acc y => (acc ++ "," ++ y)%string) r acc = EmptyString ->
  r = [] /\ acc = EmptyString.
Proof.
  induction r as [|y r IH]; intros acc H; simpl in H; [auto|].
  apply IH in H as [_ H]. destruct acc; discriminate.
Qed.

Lemma services_field_group_concat : forall l,
  (services_field (group_concat l) = [] <-> l = [] \/ l = [""])
  /\ (l = [] \/ l = [""]
      \/ length (services_field (group_concat l))
         = (length l + list_sum (map count_commas l))%nat).
Proof.
  intros [|x r]; [simpl; split; [tauto | left; reflexivity]|].
  unfold group_concat, services_field.
  set (s := fold_left (fun acc y => (acc ++ "," ++ y)%string) r x).
  destruct (String.eqb s "") eqn:Hs.
  - apply String.eqb_eq in Hs. apply fold_concat_empty in Hs as [-> ->].
    split; [tauto | right; left; reflexivity].
  - assert (Hne : x :: r <> [""]).
    { intro E. injection E as -> ->. discriminate Hs. }
    assert (Hlen : length (split_comma s)
                   = (length (x :: r) + list_sum (map count_commas (x :: r)))%nat).
    { unfold split_comma. rewrite split_aux_length. subst s.
      rewrite count_commas_fold. simpl. lia. }
    split.
    + split; [|intros [E|E]; [discriminate | contradiction]].
      intro E. rewrite E in Hlen. simpl in Hlen. lia.
    + right; right. exact Hlen.
Qed.

Lemma list_sum_zero : forall l : list nat,
  list_sum l = 0%nat <-> Forall (fun n => n = 0%nat) l.
Proof.
  induction l as [|x l IH]; simpl; [split; auto|].
  rewrite Forall_cons_iff, <- IH. lia.
Qed.

(** C10, as stated, fails: a client whose only service has the empty
    type gets [services: []] ([GROUP_CONCAT] yields "", which is falsy),
    although it has a service row. *)
Lemma get_clients_empty_type_counterexample :
  let d := snd (fst (post_clients body_empty_service empty_db)) in
  fst (fst (post_clients body_empty_service empty_db)) = Ok (Resp 201 (BId 1))
  /\ service_types_of d 1 = [""]
  /\ map v_services (get_clients atof_nearest d) = [[]].
Proof. vm_compute. repeat split. Qed.

(** C10 (amended): in [GET /api/clients], with [l] the client's
    service_type values, [services] is the empty array exactly when [l]
    is empty or is the single empty string; otherwise it has
    [length l] plus the total number of commas in [l] entries.  Hence
    its length equals the number of service rows exactly when no type
    contains a comma and [l] is not the single empty string. *)
Theorem get_clients_services : forall atof d v, In v (get_clients atof d) ->
  let l := service_types_of d (Client.id (v_client v)) in
  (v_services v = [] <-> l = [] \/ l = [""])
  /\ (l = [] \/ l = [""]
      \/ length (v_services v) = (length l + list_sum (map count_commas l))%nat)
  /\ (length (v_services v) = length l
      <-> l <> [""] /\ Forall (fun s => count_commas s = 0%nat) l).
Proof.
  intros atof d v Hin. cbv zeta. destruct (get_clients_view atof d v Hin) as [_ Hv].
  rewrite Hv. generalize (service_types_of d (Client.id (v_client v))) as l. intros l.
  destruct (services_field_group_concat l) as [H1 H2].
  split; [exact H1|]. split; [exact H2|].
  assert (Hz : list_sum (map count_commas l) = 0%nat
               <-> Forall (fun s => count_commas s = 0%nat) l)
    by (rewrite list_sum_zero, Forall_map; reflexivity).
  rewrite <- Hz.
  destruct H2 as [E|[E|E]].
  - rewrite E. simpl. split; [intros _; split; [discriminate | reflexivity] | reflexivity].
  - rewrite E. simpl. split; [discriminate | intros [F _]; contradiction].
  - rewrite E. split.
    + intros F. split; [intro G; rewrite G in E; simpl in E; discriminate | lia].
    + intros [_ F]. lia.
Qed.

Lemma get_clients_services_witness :
  In (hd (mkView (Client.mk 0 "" None None None None None None None) [] None None None 0)
         (get_clients atof_nearest db1)) (get_clients atof_nearest db1)
  /\ length (v_services (hd (mkView (Client.mk 0 "" None None None None None None None)
                              [] None None None 0) (get_clients atof_nearest db1))) = 2%nat.
Proof.
  assert (Hin : In (hd (mkView (Client.mk 0 "" None None None None None None None)
                         [] None None None 0) (get_clients atof_nearest db1))
                 (get_clients atof_nearest db1))
    by (vm_compute; left; reflexivity).
  split; [exact Hin|].
  destruct (get_clients_services atof_nearest db1 _ Hin) as (_ & _ & H3).
  apply H3. vm_compute. split; [discriminate | repeat constructor].
Defined.

(** ** Well-formedness is an invariant of every write handler *)

Lemma incr_strong : forall l, incr l = true <-> StronglySorted Z.lt l.
Proof.
  induction l as [|x l IH].
  - split; intros _; [constructor | reflexivity].
  - split.
    + intros H. destruct l as [|y l'].
      * repeat constructor.
      * change ((x <? y) && incr (y :: l') = true) in H.
        apply andb_true_iff in H as [Hxy Hl]. apply Z.ltb_lt in Hxy.
        apply IH in Hl. constructor; [exact Hl|].
        apply StronglySorted_inv in Hl as [_ Hy].
        constructor; [exact Hxy|]. eapply Forall_impl; [|exact Hy].
        intros z Hz. lia.
    + intros H. apply StronglySorted_inv in H as [Hl Hx].
      apply IH in Hl. destruct l as [|y l']; [reflexivity|].
      change ((x <? y) && incr (y :: l') = true). rewrite Hl.
      inversion Hx; subst. apply andb_true_iff.
      split; [apply Z.ltb_lt; assumption | reflexivity].
Qed.

Lemma forallb_incl : forall {A} (P Q : A -> bool) l l',
  (forall x, In x l' -> In x l) -> (forall x, In x l -> P x = true -> Q x = true) ->
  forallb P l = true -> forallb Q l' = true.
Proof.
  intros A P Q l l' Hincl HPQ H. rewrite forallb_forall in *. intros x Hx.
  apply HPQ; auto.
Qed.

Section WfTable.
Context {R : Type} `{HasId R}.

Lemma sorted_map_filter : forall (p : R -> bool) l,
  StronglySorted Z.lt (map row_id l) -> StronglySorted Z.lt (map row_id (filter p l)).
Proof.
  intros p l. induction l as [|x l IH]; simpl; intros Hs; [constructor|].
  apply StronglySorted_inv in Hs as [Hl Hx].
  destruct (p x); simpl; [|auto]. constructor; [auto|].
  rewrite Forall_forall in *. intros y Hy. apply in_map_iff in Hy as [z [<- Hz]].
  apply filter_In in Hz as [Hz _]. apply Hx. apply in_map. exact Hz.
Qed.

Lemma sorted_ins_by_id : forall (r : R) l,
  id_in (row_id r) l = false ->
  StronglySorted Z.lt (map row_id l) -> StronglySorted Z.lt (map row_id (ins_by_id r l)).
Proof.
  intros r l. induction l as [|x l IH]; simpl; intros Hin Hs; [repeat constructor|].
  apply orb_false_iff in Hin as [Hxr Hin]. apply Z.eqb_neq in Hxr.
  apply StronglySorted_inv in Hs as [Hl Hx].
  destruct (row_id r <? row_id x) eqn:Hlt.
  - apply Z.ltb_lt in Hlt. simpl. constructor; [constructor; assumption|].
    constructor; [exact Hlt|]. eapply Forall_impl; [|exact Hx]. intros z Hz. lia.
  - apply Z.ltb_ge in Hlt. simpl. constructor; [auto|].
    rewrite Forall_forall in *. intros y Hy. apply in_map_iff in Hy as [z [<- Hz]].
    apply In_ins_by_id in Hz as [->|Hz]; [lia|]. apply Hx, in_map, Hz.
Qed.

Lemma tbl_ok_insert : forall (t t' : table R) r,
  tbl_ok t = true -> tbl_insert t r = Some t' -> tbl_ok t' = true.
Proof.
  intros t t' r Hok Hins. unfold tbl_insert in Hins.
  destruct (id_in (row_id r) (rows t)) eqn:Hin; [discriminate|].
  injection Hins as <-. unfold tbl_ok in *. apply andb_true_iff in Hok as [Hi Hs].
  simpl. apply andb_true_iff. split.
  - apply incr_strong. apply sorted_ins_by_id; [exact Hin|]. apply incr_strong, Hi.
  - rewrite forallb_forall in *. intros x Hx. apply In_ins_by_id in Hx as [->|Hx].
    + apply Z.leb_le. lia.
    + specialize (Hs x Hx). apply Z.leb_le in Hs. apply Z.leb_le. lia.
Qed.

Lemma tbl_ok_filter : forall (t : table R) p, tbl_ok t = true -> tbl_ok (tbl_filter p t) = true.
Proof.
  intros t p Hok. unfold tbl_ok, tbl_filter in *. simpl.
  apply andb_true_iff in Hok as [Hi Hs]. apply andb_true_iff. split.
  - apply incr_strong, sorted_map_filter, incr_strong, Hi.
  - eapply forallb_incl; [|intros x _ Hx; exact Hx|exact Hs].
    intros x Hx. apply filter_In in Hx. tauto.
Qed.

Lemma tbl_ok_map : forall (t : table R) f,
  (forall x, row_id (f x) = row_id x) -> tbl_ok t = true -> tbl_ok (tbl_map f t) = true.
Proof.
  intros t f Hf Hok. unfold tbl_ok, tbl_map in *. simpl.
  rewrite map_map. rewrite (map_ext _ _ Hf). apply andb_true_iff in Hok as [Hi Hs].
  rewrite Hi. simpl. rewrite forallb_forall in *. intros x Hx.
  apply in_map_iff in Hx as [y [<- Hy]]. rewrite Hf. apply Hs, Hy.
Qed.

Lemma id_in_map : forall f k (l : list R),
  (forall x, row_id (f x) = row_id x) -> id_in k (map f l) = id_in k l.
Proof.
  intros f k l Hf. induction l as [|x l IH]; simpl; [reflexivity|].
  unfold id_in in *. simpl. rewrite Hf, IH. reflexivity.
Qed.
End WfTable.

Lemma wf_iff : forall d, wf d = true <->
  tbl_ok (clients d) = true /\ tbl_ok (services d) = true /\ tbl_ok (payments d) = true
  /\ tbl_ok (tasks d) = true /\ tbl_ok (transactions d) = true
  /\ forallb (fun r => fk_ok d (row_client r)) (rows (services d)) = true
  /\ forallb (fun r => fk_ok d (row_client r)) (rows (payments d)) = true
  /\ forallb (fun r => fk_ok d (row_client r)) (rows (tasks d)) = true
  /\ forallb (fun r => fk_ok d (row_client r)) (rows (transactions d)) = true.
Proof. intros d. unfold wf, fk_valid. rewrite !andb_true_iff. tauto. Qed.

Lemma fk_ok_mono : forall d d' c,
  (forall k, client_exists d k = true -> client_exists d' k = true) ->
  fk_ok d c = true -> fk_ok d' c = true.
Proof. intros d d' [k|] Hm H; simpl in *; auto. Qed.

Lemma forallb_fk_mono : forall {R} `{HasClient R} d d' (l l' : list R),
  (forall k, client_exists d k = true -> client_exists d' k = true) ->
  (forall x, In x l' -> In x l) ->
  forallb (fun r => fk_ok d (row_client r)) l = true ->
  forallb (fun r => fk_ok d' (row_client r)) l' = true.
Proof.
  intros R HC d d' l l' Hm Hincl H. eapply forallb_incl; [exact Hincl| |exact H].
  intros x _. apply fk_ok_mono, Hm.
Qed.

Lemma forallb_fk_insert : forall {R} `{HasId R} `{HasClient R} d (l : list R) r,
  forallb (fun x => fk_ok d (row_client x)) l = true -> fk_ok d (row_client r) = true ->
  forallb (fun x => fk_ok d (row_client x)) (ins_by_id r l) = true.
Proof.
  intros R HI HC d l r Hl Hr. rewrite forallb_forall in *. intros x Hx.
  apply In_ins_by_id in Hx as [->|Hx]; auto.
Qed.

Lemma forallb_fk_map : forall {R} `{HasClient R} d (f : R -> R) l,
  (forall x, row_client (f x) = row_client x) ->
  forallb (fun x => fk_ok d (row_client x)) l = true ->
  forallb (fun x => fk_ok d (row_client x)) (map f l) = true.
Proof.
  intros R HC d f l Hf Hl. rewrite forallb_forall in *. intros x Hx.
  apply in_map_iff in Hx as [y [<- Hy]]. rewrite Hf. auto.
Qed.

Ltac wf_unpack H :=
  apply wf_iff in H; destruct H as (Hc & Hs & Hp & Ht & Hx & Fs & Fp & Ft & Fx).

Lemma wf_set_clients_grow : forall d t,
  wf d = true -> tbl_ok t = true -> (forall x, In x (rows (clients d)) -> In x (rows t)) ->
  wf (set_clients d t) = true.
Proof.
  intros d t Hwf Hok Hincl. wf_unpack Hwf.
  assert (Hm : forall k, client_exists d k = true -> client_exists (set_clients d t) k = true).
  { unfold client_exists. intros k Hk. apply id_in_iff in Hk as [y [Hy Hid]].
    apply id_in_iff. exists y. split; [apply Hincl, Hy | exact Hid]. }
  apply wf_iff. cbn [clients services payments tasks transactions set_clients].
  repeat split; try assumption; eapply forallb_fk_mono; eauto.
Qed.

Lemma wf_set_clients_map : forall d f,
  (forall x, Client.id (f x) = Client.id x) -> wf d = true ->
  wf (set_clients d (tbl_map f (clients d))) = true.
Proof.
  intros d f Hf Hwf. wf_unpack Hwf.
  assert (Hm : forall k, client_exists d k = true ->
                 client_exists (set_clients d (tbl_map f (clients d))) k = true).
  { intros k Hk. unfold client_exists, tbl_map. cbn [rows clients set_clients].
    rewrite id_in_map by exact Hf. exact Hk. }
  apply wf_iff. cbn [clients services payments tasks transactions set_clients].
  repeat split; try assumption.
  - apply tbl_ok_map; [exact Hf | exact Hc].
  - eapply forallb_fk_mono; eauto.
  - eapply forallb_fk_mono; eauto.
  - eapply forallb_fk_mono; eauto.
  - eapply forallb_fk_mono; eauto.
Qed.

Lemma wf_set_services : forall d t, wf d = true -> tbl_ok t = true ->
  forallb (fun r => fk_ok d (row_client r)) (rows t) = true -> wf (set_services d t) = true.
Proof.
  intros d t Hwf Hok Hfk. wf_unpack Hwf. apply wf_iff.
  cbn [clients services payments tasks transactions set_services]. repeat split; assumption.
Qed.

Lemma wf_set_payments : forall d t, wf d = true -> tbl_ok t = true ->
  forallb (fun r => fk_ok d (row_client r)) (rows t) = true -> wf (set_payments d t) = true.
Proof.
  intros d t Hwf Hok Hfk. wf_unpack Hwf. apply wf_iff.
  cbn [clients services payments tasks transactions set_payments]. repeat split; assumption.
Qed.

Lemma wf_set_tasks : forall d t, wf d = true -> tbl_ok t = true ->
  forallb (fun r => fk_ok d (row_client r)) (rows t) = true -> wf (set_tasks d t) = true.
Proof.
  intros d t Hwf Hok Hfk. wf_unpack Hwf. apply wf_iff.
  cbn [clients services payments tasks transactions set_tasks]. repeat split; assumption.
Qed.

Lemma wf_set_transactions : forall d t, wf d = true -> tbl_ok t = true ->
  forallb (fun r => fk_ok d (row_client r)) (rows t) = true -> wf (set_transactions d t) = true.
Proof.
  intros d t Hwf Hok Hfk. wf_unpack Hwf. apply wf_iff.
  cbn [clients services payments tasks transactions set_transactions]. repeat split; assumption.
Qed.

Lemma forallb_fk_cascade : forall {R} `{HasClient R} d (p : Client.row -> bool) (l : list R),
  forallb (fun r => fk_ok d (row_client r)) l = true ->
  forallb (fun r => fk_ok (delete_clients_where p d) (row_client r))
    (filter (fun r => negb (refs_some
       (fun k => existsb (fun c => p c && (Client.id c =? k)) (rows (clients d))) r)) l)
  = true.
Proof.
  intros R HC d p l Hl. rewrite forallb_forall in *. intros x Hx.
  apply filter_In in Hx as [Hx Hkeep]. specialize (Hl x Hx).
  unfold refs_some in Hkeep. destruct (row_client x) as [k|] eqn:Hk; [|reflexivity].
  simpl in *. unfold client_exists in *. apply id_in_iff in Hl as [c [Hc Hid]].
  apply id_in_iff. exists c. split; [|exact Hid].
  cbn [delete_clients_where clients tbl_filter rows]. apply filter_In. split; [exact Hc|].
  destruct (p c) eqn:Hp; [|reflexivity]. exfalso.
  apply negb_true_iff in Hkeep. apply not_true_iff_false in Hkeep. apply Hkeep.
  apply existsb_exists. exists c. split; [exact Hc|]. rewrite Hp.
  change (Client.id c) with (row_id c). rewrite Hid. apply Z.eqb_refl.
Qed.

Lemma wf_delete_clients : forall d p, wf d = true -> wf (delete_clients_where p d) = true.
Proof.
  intros d p Hwf. pose proof Hwf as Hwf'. wf_unpack Hwf. apply wf_iff.
  unfold delete_clients_where at 1 2 3 4 5 6 7 8 9.
  cbn [clients services payments tasks transactions].
  repeat split; try (apply tbl_ok_filter; assumption);
    unfold tbl_filter; cbn [rows]; apply forallb_fk_cascade; assumption.
Qed.

Lemma tbl_insert_rows : forall {R} `{HasId R} (t t' : table R) r,
  tbl_insert t r = Some t' -> rows t' = ins_by_id r (rows t).
Proof.
  intros R HI t t' r H. unfold tbl_insert in H.
  destruct (id_in (row_id r) (rows t)); [discriminate|]. injection H as <-. reflexivity.
Qed.

Lemma keeps_wf_stmt : forall {A} g (f : db -> result A * db),
  (forall d, wf d = true -> wf (snd (f d)) = true) -> keeps_wf (stmt g f).
Proof.
  intros A g f Hf d r d' t Hrun Hwf. unfold stmt in Hrun.
  specialize (Hf d Hwf). destruct (f d) as [r0 d0]. injection Hrun as _ <- _. exact Hf.
Qed.

Lemma keeps_wf_ret : forall {A} (a : A), keeps_wf (ret a).
Proof. intros A a d r d' t H Hwf. injection H as _ <- _. exact Hwf. Qed.

Lemma keeps_wf_throw : forall {A} e, keeps_wf (@throw A e).
Proof. intros A e d r d' t H Hwf. injection H as _ <- _. exact Hwf. Qed.

Lemma keeps_wf_bind : forall {A B} (m : M A) (k : A -> M B),
  keeps_wf m -> (forall a, keeps_wf (k a)) -> keeps_wf (bind m k).
Proof.
  intros A B m k Hm Hk d r d' t H Hwf. unfold bind in H.
  destruct (m d) as [[[a|e] d1] t1] eqn:Hmd.
  - destruct (k a d1) as [[r2 d2] t2] eqn:Hkd. injection H as _ <- _.
    eapply Hk; [exact Hkd|]. eapply Hm; [exact Hmd | exact Hwf].
  - injection H as _ <- _. eapply Hm; [exact Hmd | exact Hwf].
Qed.

Lemma keeps_wf_for : forall {A} (l : list A) f,
  (forall x, keeps_wf (f x)) -> keeps_wf (for_ l f).
Proof.
  intros A l f Hf. induction l as [|x l IH]; simpl.
  - apply keeps_wf_ret.
  - apply keeps_wf_bind; [apply Hf | intros _; exact IH].
Qed.

Lemma keeps_wf_transaction : forall {A} (m : M A), keeps_wf m -> keeps_wf (transaction m).
Proof.
  intros A m Hm d r d' t H Hwf. unfold transaction in H.
  destruct (m d) as [[[a|e] d1] t1] eqn:Hmd; injection H as _ <- _;
    [eapply Hm; eauto | exact Hwf].
Qed.

Lemma keeps_wf_try_catch : forall {A B} (m : M A) (ok : A -> B) err,
  keeps_wf m -> keeps_wf (try_catch m ok err).
Proof.
  intros A B m ok err Hm d r d' t H Hwf. unfold try_catch in H.
  destruct (m d) as [[[a|e] d1] t1] eqn:Hmd; injection H as _ <- _; eapply Hm; eauto.
Qed.

Create HintDb keeps_wf_db.
#[export] Hint Resolve keeps_wf_ret keeps_wf_throw keeps_wf_bind keeps_wf_for
  keeps_wf_transaction keeps_wf_try_catch : keeps_wf_db.

Lemma tbl_ok_of_wf : forall d, wf d = true ->
  tbl_ok (clients d) = true /\ tbl_ok (services d) = true /\ tbl_ok (payments d) = true
  /\ tbl_ok (tasks d) = true /\ tbl_ok (transactions d) = true.
Proof. intros d H. apply wf_iff in H. tauto. Qed.

Lemma fk_of_wf : forall d, wf d = true ->
  forallb (fun r => fk_ok d (row_client r)) (rows (services d)) = true
  /\ forallb (fun r => fk_ok d (row_client r)) (rows (payments d)) = true
  /\ forallb (fun r => fk_ok d (row_client r)) (rows (tasks d)) = true
  /\ forallb (fun r => fk_ok d (row_client r)) (rows (transactions d)) = true.
Proof. intros d H. apply wf_iff in H. tauto. Qed.

(** Inserting into a child table after the foreign-key check. *)
Ltac child_insert Hwf Hi Hfk :=
  let Ht := fresh in
  destruct (tbl_ok_of_wf _ Hwf) as (? & ? & ? & ? & ?);
  destruct (fk_of_wf _ Hwf) as (? & ? & ? & ?);
  first [ apply wf_set_services | apply wf_set_payments | apply wf_set_tasks
        | apply wf_set_transactions ]; [exact Hwf | eapply tbl_ok_insert; eauto |];
  rewrite (tbl_insert_rows _ _ _ Hi); apply forallb_fk_insert; [assumption|];
  apply negb_false_iff in Hfk; exact Hfk.

Lemma ins_client_new_keeps : forall n e p c no m, keeps_wf (ins_client_new n e p c no m).
Proof.
  intros n e p c no m. apply keeps_wf_stmt. intros d Hwf. cbv beta.
  destruct n as [nm|]; [|exact Hwf]. cbv zeta.
  match goal with |- context [tbl_insert ?t ?r] => destruct (tbl_insert t r) eqn:Hi end;
    [|exact Hwf].
  simpl snd. destruct (tbl_ok_of_wf _ Hwf) as (Hc & _).
  apply wf_set_clients_grow; [exact Hwf | eapply tbl_ok_insert; eauto |].
  intros x Hx. rewrite (tbl_insert_rows _ _ _ Hi). apply In_ins_by_id. auto.
Qed.

Lemma ins_row_client_keeps : forall r, keeps_wf (ins_client_row r).
Proof.
  intros r. apply keeps_wf_stmt. intros d Hwf. cbv beta. simpl negb. cbv iota.
  destruct (tbl_insert (clients d) r) eqn:Hi; [|exact Hwf].
  simpl snd. destruct (tbl_ok_of_wf _ Hwf) as (Hc & _).
  apply wf_set_clients_grow; [exact Hwf | eapply tbl_ok_insert; eauto |].
  intros x Hx. rewrite (tbl_insert_rows _ _ _ Hi). apply In_ins_by_id. auto.
Qed.

Lemma ins_service_new_keeps : forall ck st, keeps_wf (ins_service_new ck st).
Proof.
  intros ck st. apply keeps_wf_stmt. intros d Hwf. cbv beta.
  destruct st as [s|]; [|exact Hwf].
  destruct (negb (fk_ok d ck)) eqn:Hfk; [exact Hwf|]. cbv zeta.
  match goal with |- context [tbl_insert ?t ?r] => destruct (tbl_insert t r) eqn:Hi end;
    [|exact Hwf].
  simpl snd. child_insert Hwf Hi Hfk.
Qed.

Lemma ins_payment_new_keeps : forall ck total adv rem,
  keeps_wf (ins_payment_new ck total adv rem).
Proof.
  intros ck total adv rem. apply keeps_wf_stmt. intros d Hwf. cbv beta.
  destruct (negb (fk_ok d ck)) eqn:Hfk; [exact Hwf|]. cbv zeta.
  match goal with |- context [tbl_insert ?t ?r] => destruct (tbl_insert t r) eqn:Hi end;
    [|exact Hwf].
  simpl snd. child_insert Hwf Hi Hfk.
Qed.

Lemma ins_txn_new_keeps : forall ck a, keeps_wf (ins_txn_new ck a).
Proof.
  intros ck a. apply keeps_wf_stmt. intros d Hwf. cbv beta.
  destruct (negb (fk_ok d ck)) eqn:Hfk; [exact Hwf|]. cbv zeta.
  match goal with |- context [tbl_insert ?t ?r] => destruct (tbl_insert t r) eqn:Hi end;
    [|exact Hwf].
  simpl snd. child_insert Hwf Hi Hfk.
Qed.

Lemma ins_task_new_keeps : forall ck tl a dd, keeps_wf (ins_task_new ck tl a dd).
Proof.
  intros ck tl a dd. apply keeps_wf_stmt. intros d Hwf. cbv beta.
  destruct tl as [s|]; [|exact Hwf].
  destruct (negb (fk_ok d ck)) eqn:Hfk; [exact Hwf|]. cbv zeta.
  match goal with |- context [tbl_insert ?t ?r] => destruct (tbl_insert t r) eqn:Hi end;
    [|exact Hwf].
  simpl snd. child_insert Hwf Hi Hfk.
Qed.

Lemma ins_service_row_keeps : forall r, keeps_wf (ins_service_row r).
Proof.
  intros r. apply keeps_wf_stmt. intros d Hwf. cbv beta.
  destruct (negb (fk_ok d (Service.client_id r))) eqn:Hfk; [exact Hwf|].
  destruct (tbl_insert (services d) r) eqn:Hi; [|exact Hwf].
  simpl snd. child_insert Hwf Hi Hfk.
Qed.

Lemma ins_payment_row_keeps : forall r, keeps_wf (ins_payment_row r).
Proof.
  intros r. apply keeps_wf_stmt. intros d Hwf. cbv beta.
  destruct (negb (fk_ok d (Payment.client_id r))) eqn:Hfk; [exact Hwf|].
  destruct (tbl_insert (payments d) r) eqn:Hi; [|exact Hwf].
  simpl snd. child_insert Hwf Hi Hfk.
Qed.

Lemma ins_task_row_keeps : forall r, keeps_wf (ins_task_row r).
Proof.
  intros r. apply keeps_wf_stmt. intros d Hwf. cbv beta.
  destruct (negb (fk_ok d (Task.client_id r))) eqn:Hfk; [exact Hwf|].
  destruct (tbl_insert (tasks d) r) eqn:Hi; [|exact Hwf].
  simpl snd. child_insert Hwf Hi Hfk.
Qed.

Lemma upd_client_keeps : forall k n e p c no m, keeps_wf (upd_client k n e p c no m).
Proof.
  intros k n e p c no m. apply keeps_wf_stmt. intros d Hwf. cbv beta.
  destruct (negb (client_exists d k)); [exact Hwf|].
  destruct n as [nm|]; [|exact Hwf]. simpl snd.
  apply wf_set_clients_map; [|exact Hwf].
  intros x. destruct (Client.id x =? k); reflexivity.
Qed.

Lemma upd_payments_keeps : forall k adv rem, keeps_wf (upd_payments k adv rem).
Proof.
  intros k adv rem. apply keeps_wf_stmt. intros d Hwf. simpl snd.
  destruct (tbl_ok_of_wf _ Hwf) as (_ & _ & Hp & _). destruct (fk_of_wf _ Hwf) as (_ & Fp & _).
  apply wf_set_payments; [exact Hwf | apply tbl_ok_map; [|exact Hp] |].
  - intros x. destruct (refs k x); reflexivity.
  - apply forallb_fk_map; [|exact Fp]. intros x. destruct (refs k x); reflexivity.
Qed.

Lemma upd_task_status_keeps : forall k st, keeps_wf (upd_task_status k st).
Proof.
  intros k st. apply keeps_wf_stmt. intros d Hwf. simpl snd.
  destruct (tbl_ok_of_wf _ Hwf) as (_ & _ & _ & Ht & _).
  destruct (fk_of_wf _ Hwf) as (_ & _ & Ft & _).
  apply wf_set_tasks; [exact Hwf | apply tbl_ok_map; [|exact Ht] |].
  - intros x. destruct (Task.id x =? k); reflexivity.
  - apply forallb_fk_map; [|exact Ft]. intros x. destruct (Task.id x =? k); reflexivity.
Qed.

Lemma forallb_fk_filter : forall {R} `{HasClient R} d (p : R -> bool) l,
  forallb (fun r => fk_ok d (row_client r)) l = true ->
  forallb (fun r => fk_ok d (row_client r)) (filter p l) = true.
Proof.
  intros R HC d p l H. eapply forallb_fk_mono; [intros k Hk; exact Hk| |exact H].
  intros x Hx. apply filter_In in Hx. tauto.
Qed.

Lemma del_services_of_keeps : forall k, keeps_wf (del_services_of k).
Proof.
  intros k. apply keeps_wf_stmt. intros d Hwf. simpl snd.
  destruct (tbl_ok_of_wf _ Hwf) as (_ & Hs & _). destruct (fk_of_wf _ Hwf) as (Fs & _).
  apply wf_set_services; [exact Hwf | apply tbl_ok_filter, Hs | apply forallb_fk_filter, Fs].
Qed.

Lemma del_task_keeps : forall k, keeps_wf (del_task k).
Proof.
  intros k. apply keeps_wf_stmt. intros d Hwf. simpl snd.
  destruct (tbl_ok_of_wf _ Hwf) as (_ & _ & _ & Ht & _).
  destruct (fk_of_wf _ Hwf) as (_ & _ & Ft & _).
  apply wf_set_tasks; [exact Hwf | apply tbl_ok_filter, Ht | apply forallb_fk_filter, Ft].
Qed.

Lemma del_all_tasks_keeps : keeps_wf del_all_tasks.
Proof.
  apply keeps_wf_stmt. intros d Hwf. simpl snd.
  destruct (tbl_ok_of_wf _ Hwf) as (_ & _ & _ & Ht & _).
  destruct (fk_of_wf _ Hwf) as (_ & _ & Ft & _).
  apply wf_set_tasks; [exact Hwf | apply tbl_ok_filter, Ht | apply forallb_fk_filter, Ft].
Qed.

Lemma del_all_payments_keeps : keeps_wf del_all_payments.
Proof.
  apply keeps_wf_stmt. intros d Hwf. simpl snd.
  destruct (tbl_ok_of_wf _ Hwf) as (_ & _ & Hp & _). destruct (fk_of_wf _ Hwf) as (_ & Fp & _).
  apply wf_set_payments; [exact Hwf | apply tbl_ok_filter, Hp | apply forallb_fk_filter, Fp].
Qed.

Lemma del_all_services_keeps : keeps_wf del_all_services.
Proof.
  apply keeps_wf_stmt. intros d Hwf. simpl snd.
  destruct (tbl_ok_of_wf _ Hwf) as (_ & Hs & _). destruct (fk_of_wf _ Hwf) as (Fs & _).
  apply wf_set_services; [exact Hwf | apply tbl_ok_filter, Hs | apply forallb_fk_filter, Fs].
Qed.

Lemma del_all_clients_keeps : keeps_wf del_all_clients.
Proof. apply keeps_wf_stmt. intros d Hwf. apply wf_delete_clients, Hwf. Qed.

Lemma del_client_keeps : forall k, keeps_wf (del_client k).
Proof. intros k. apply keeps_wf_stmt. intros d Hwf. apply wf_delete_clients, Hwf. Qed.

Lemma sel_payment_keeps : forall k, keeps_wf (sel_payment k).
Proof. intros k. apply keeps_wf_stmt. intros d Hwf. exact Hwf. Qed.

#[export] Hint Resolve ins_client_new_keeps ins_row_client_keeps ins_service_new_keeps
  ins_payment_new_keeps ins_txn_new_keeps ins_task_new_keeps ins_service_row_keeps
  ins_payment_row_keeps ins_task_row_keeps upd_client_keeps upd_payments_keeps
  upd_task_status_keeps del_services_of_keeps del_task_keeps del_all_tasks_keeps
  del_all_payments_keeps del_all_services_keeps del_all_clients_keeps del_client_keeps
  sel_payment_keeps : keeps_wf_db.

Lemma post_clients_keeps : forall b, keeps_wf (post_clients b).
Proof.
  intros b. unfold post_clients. apply keeps_wf_try_catch, keeps_wf_transaction.
  apply keeps_wf_bind; [auto with keeps_wf_db|]. intros k.
  destruct (CreateBody.services b); auto 6 with keeps_wf_db.
Qed.

Lemma patch_clients_keeps : forall k b, keeps_wf (patch_clients k b).
Proof.
  intros k b. unfold patch_clients. apply keeps_wf_try_catch, keeps_wf_transaction.
  apply keeps_wf_bind; [auto with keeps_wf_db|]. intros _.
  destruct (UpdateBody.services b); auto 6 with keeps_wf_db.
Qed.

Lemma patch_payments_keeps : forall k b, keeps_wf (patch_payments k b).
Proof.
  intros k b. unfold patch_payments. apply keeps_wf_try_catch.
  apply keeps_wf_bind; [auto with keeps_wf_db|]. intros [p|]; [|auto with keeps_wf_db].
  apply keeps_wf_bind; [|auto with keeps_wf_db]. apply keeps_wf_transaction.
  apply keeps_wf_bind; [auto with keeps_wf_db|]. intros _.
  destruct (positive_amount (PaymentBody.amount_added b));
    [destruct (PaymentBody.amount_added b)|]; auto with keeps_wf_db.
Qed.

Lemma post_restore_keeps : forall b, keeps_wf (post_restore b).
Proof.
  intros b. unfold post_restore, restore_body.
  apply keeps_wf_try_catch, keeps_wf_transaction.
  repeat (apply keeps_wf_bind; [auto with keeps_wf_db | intros _]).
  auto with keeps_wf_db.
Qed.

Lemma delete_clients_h_keeps : forall k, keeps_wf (delete_clients_h k).
Proof. intros k. unfold delete_clients_h. auto with keeps_wf_db. Qed.

Lemma post_tasks_keeps : forall b, keeps_wf (post_tasks b).
Proof. intros b. unfold post_tasks. auto with keeps_wf_db. Qed.

Lemma patch_tasks_keeps : forall k s, keeps_wf (patch_tasks k s).
Proof. intros k s. unfold patch_tasks. auto with keeps_wf_db. Qed.

Lemma delete_tasks_h_keeps : forall k, keeps_wf (delete_tasks_h k).
Proof. intros k. unfold delete_tasks_h. auto with keeps_wf_db. Qed.

(** Extra: every write handler, whatever its request and outcome, takes a
    well-formed database (rowids increasing in each table and within its
    AUTOINCREMENT counter, every [client_id] naming an existing client)
    to a well-formed one. *)
Theorem write_handlers_keep_wf : forall d, wf d = true ->
  (forall b, wf (snd (fst (post_clients b d))) = true)
  /\ (forall k, wf (snd (fst (delete_clients_h k d))) = true)
  /\ (forall k b, wf (snd (fst (patch_clients k b d))) = true)
  /\ (forall k b, wf (snd (fst (patch_payments k b d))) = true)
  /\ (forall b, wf (snd (fst (post_restore b d))) = true)
  /\ (forall b, wf (snd (fst (post_tasks b d))) = true)
  /\ (forall k s, wf (snd (fst (patch_tasks k s d))) = true)
  /\ (forall k, wf (snd (fst (delete_tasks_h k d))) = true).
Proof.
  intros d Hwf.
  repeat split; intros;
  match goal with |- wf (snd (fst ?run)) = true =>
    destruct run as [[r d'] t] eqn:Hrun; simpl
  end;
  [ eapply post_clients_keeps | eapply delete_clients_h_keeps
  | eapply patch_clients_keeps | eapply patch_payments_keeps
  | eapply post_restore_keeps | eapply post_tasks_keeps
  | eapply patch_tasks_keeps | eapply delete_tasks_h_keeps ]; eauto.
Qed.

Lemma write_handlers_keep_wf_witness :
  wf db1 = true
  /\ wf (snd (fst (post_tasks (TaskBody.mk (Some 1) (Some "Call") None None) db1))) = true.
Proof.
  assert (H : wf db1 = true) by (vm_compute; reflexivity).
  split; [exact H|].
  destruct (write_handlers_keep_wf db1 H) as (_ & _ & _ & _ & _ & Ht & _). apply Ht.
Defined.

(** ** Task routes *)


Lemma map_id_in : forall {A} (f : A -> A) l, (forall x, In x l -> f x = x) -> map f l = l.
Proof.
  intros A f l H. induction l as [|x l IH]; simpl; [reflexivity|].
  rewrite H by (left; reflexivity). rewrite IH by (intros y Hy; apply H; right; exact Hy).
  reflexivity.
Qed.

(** Extra: [PATCH /api/tasks/:id] always answers 200 with one UPDATE: the
    task with that id gets the given status (NULL when absent), every other
    task and every other table is left as it was, the rowids do not change,
    and when no task has that id the database is unchanged. *)
Theorem patch_tasks_spec : forall d k st,
  let '(r, d', tr) := patch_tasks k st d in
  r = Ok (Resp 200 BSuccess) /\ tr = [(OUpd, TTasks)]
  /\ clients d' = clients d /\ services d' = services d /\ payments d' = payments d
  /\ transactions d' = transactions d
  /\ map Task.id (rows (tasks d')) = map Task.id (rows (tasks d))
  /\ (forall t, In t (rows (tasks d')) -> Task.id t = k -> Task.status t = st)
  /\ (forall t, In t (rows (tasks d)) -> Task.id t <> k -> In t (rows (tasks d')))
  /\ (id_in k (rows (tasks d)) = false -> d' = d).
Proof.
  intros d k st. unfold patch_tasks, try_catch, upd_task_status, stmt. simpl.
  set (f := fun t : Task.row => if Task.id t =? k then _ else t).
  assert (Hid : forall t, Task.id (f t) = Task.id t).
  { intros t. unfold f. destruct (Task.id t =? k); reflexivity. }
  split; [reflexivity|]. split; [reflexivity|].
  do 4 (split; [reflexivity|]).
  split; [rewrite map_map; apply map_ext, Hid|].
  split.
  - intros t Ht Hk. apply in_map_iff in Ht as [u [<- Hu]]. unfold f.
    rewrite Hid in Hk. rewrite Hk, Z.eqb_refl. reflexivity.
  - split.
    + intros t Ht Hk. apply in_map_iff. exists t. split; [|exact Ht].
      unfold f. apply Z.eqb_neq in Hk. rewrite Hk. reflexivity.
    + intros Hnone. unfold tbl_map. rewrite map_id_in.
      * destruct d as [c s p [rs sq] x cl]. reflexivity.
      * intros t Ht. unfold f. destruct (Task.id t =? k) eqn:E; [|reflexivity].
        exfalso. apply Z.eqb_eq in E. unfold id_in in Hnone.
        apply not_true_iff_false in Hnone. apply Hnone.
        apply existsb_exists. exists t. split; [exact Ht|].
        change (row_id t) with (Task.id t). rewrite E. apply Z.eqb_refl.
Qed.

(** Extra: [DELETE /api/tasks/:id] always answers 204 with one DELETE: the
    tasks left are exactly those with another id, the other tables are
    untouched, and repeating the request changes nothing more. *)
Theorem delete_tasks_spec : forall d k,
  let '(r, d', tr) := delete_tasks_h k d in
  r = Ok (Resp 204 BEmpty) /\ tr = [(ODel, TTasks)]
  /\ (forall t, In t (rows (tasks d')) <-> In t (rows (tasks d)) /\ Task.id t <> k)
  /\ clients d' = clients d /\ services d' = services d /\ payments d' = payments d
  /\ transactions d' = transactions d
  /\ snd (fst (delete_tasks_h k d')) = d'.
Proof.
  intros d k. unfold delete_tasks_h, try_catch, del_task, stmt. simpl.
  split; [reflexivity|]. split; [reflexivity|].
  split.
  - intros t. rewrite filter_In. rewrite negb_true_iff, Z.eqb_neq. reflexivity.
  - do 4 (split; [reflexivity|]). unfold set_tasks, tbl_filter. simpl.
    rewrite filter_idem. reflexivity.
Qed.

(** ** [GET /api/transactions] *)

Lemma txn_created_desc_total : forall atof a b,
  txn_created_desc atof a b = false -> txn_created_desc atof b a = true.
Proof.
  intros atof a b H. unfold txn_created_desc in *.
  rewrite cmp_opt_antisym.
  destruct (cmp_opt atof (Txn.created_at (xv_txn a)) (Txn.created_at (xv_txn b)));
    simpl; try discriminate; reflexivity.
Qed.

(** Extra: [GET /api/transactions] lists exactly the ledger rows whose
    [client_id] names an existing client (rows with a NULL or dangling
    client are never listed), each with that client's name and company,
    newest [created_at] first in SQLite's order of this NUMERIC-affinity
    column (text dates by their bytes, dates that read as numbers
    ([atof]) by value and below them, NULL last). *)
Theorem get_transactions_spec : forall atof d,
  (forall v, In v (get_transactions atof d) <->
     In (xv_txn v) (rows (transactions d))
     /\ exists k c, Txn.client_id (xv_txn v) = Some k
          /\ find (fun c => Client.id c =? k) (rows (clients d)) = Some c
          /\ xv_client_name v = Client.name c /\ xv_company v = Client.company c)
  /\ Sorted (fun a b => txn_created_desc atof a b = true) (get_transactions atof d).
Proof.
  intros atof d. split.
  - intros v. unfold get_transactions. rewrite In_isort, in_flat_map. split.
    + intros [t [Ht Hv]].
      destruct (Txn.client_id t) as [k|] eqn:Hc; [|contradiction].
      destruct (find (fun c => Client.id c =? k) (rows (clients d))) as [c|] eqn:Hf;
        [|contradiction].
      destruct Hv as [<-|[]]. simpl. split; [exact Ht|]. exists k, c. auto.
    + intros (Ht & k & c & Hc & Hf & Hn & Hco). exists (xv_txn v). split; [exact Ht|].
      rewrite Hc, Hf. left. destruct v as [t n co]. simpl in *. rewrite Hn, Hco.
      reflexivity.
  - unfold get_transactions. apply isort_sorted. exact (txn_created_desc_total atof).
Qed.

(** ** [GET /api/tasks] without a client filter *)

(** Extra: without [clientId], [GET /api/tasks] lists exactly the tasks
    whose [client_id] names an existing client, each with that client's
    name, ordered by due date and then newest first, in SQLite's order of
    these NUMERIC-affinity columns (NULL first, then dates that read as
    numbers ([atof]) by value, then the other dates by their bytes). *)
Theorem get_tasks_all : forall atof d,
  (forall v, In v (get_tasks atof d None) <->
     In (tv_task v) (rows (tasks d))
     /\ exists k c, Task.client_id (tv_task v) = Some k
          /\ find (fun c => Client.id c =? k) (rows (clients d)) = Some c
          /\ tv_client_name v = Client.name c)
  /\ Sorted (fun a b => task_le atof a b = true) (get_tasks atof d None).
Proof.
  intros atof d. split.
  - intros v. unfold get_tasks. rewrite In_isort, in_flat_map. split.
    + intros [t [Ht Hv]].
      destruct (Task.client_id t) as [k|] eqn:Hc; [|contradiction].
      destruct (find (fun c => Client.id c =? k) (rows (clients d))) as [c|] eqn:Hf;
        [|contradiction].
      destruct Hv as [<-|[]]. simpl. split; [exact Ht|]. exists k, c. auto.
    + intros (Ht & k & c & Hc & Hf & Hn). exists (tv_task v). split; [exact Ht|].
      rewrite Hc, Hf. left. destruct v as [t n]. simpl in *. rewrite Hn. reflexivity.
  - unfold get_tasks. apply isort_sorted. exact (task_le_total atof).
Qed.

Lemma post_tasks_ok : forall d b tl,
  TaskBody.title b = Some tl -> fk_ok d (TaskBody.client_id b) = true ->
  post_tasks b d =
  (Ok (Resp 201 (BId (next_id (tasks d)))),
   set_tasks d (mkTable (rows (tasks d) ++
     [Task.mk (next_id (tasks d)) (TaskBody.client_id b) tl
        (TaskBody.assigned_to b) (TaskBody.due_date b) (Some "pending") (Some (clock d))])
     (Z.max (seq (tasks d)) (next_id (tasks d)))),
   [(OIns, TTasks)]).
Proof.
  intros d b tl Ht Hfk.
  assert (Hlt : forall x, In x (rows (tasks d)) -> row_id x < next_id (tasks d)).
  { intros x Hx. apply (next_id_gt _ _ Hx). }
  unfold post_tasks, try_catch, ins_task_new, stmt. rewrite Ht, Hfk.
  unfold tbl_insert. cbn -[next_id id_in ins_by_id].
  rewrite (id_in_false _ _ Hlt). rewrite ins_by_id_app by exact Hlt. reflexivity.
Qed.



(** ** The client count of [GET /api/health] *)

Lemma length_ins_by_id : forall {R} `{HasId R} (r : R) l,
  length (ins_by_id r l) = S (length l).
Proof.
  intros R HI r l. induction l as [|x l IH]; simpl; [reflexivity|].
  destruct (row_id r <? row_id x); simpl; [reflexivity | rewrite IH; reflexivity].
Qed.

Lemma tbl_insert_length : forall {R} `{HasId R} (t t' : table R) r,
  tbl_insert t r = Some t' -> length (rows t') = S (length (rows t)).
Proof.
  intros R HI t t' r H. unfold tbl_insert in H.
  destruct (id_in (row_id r) (rows t)); [discriminate|]. injection H as <-.
  apply length_ins_by_id.
Qed.

Lemma kcc_stmt : forall {A} g (f : db -> result A * db),
  (forall d, length (rows (clients (snd (f d)))) = length (rows (clients d))) ->
  keeps_client_count (stmt g f).
Proof.
  intros A g f Hf d r d' t Hrun. unfold stmt in Hrun.
  specialize (Hf d). destruct (f d) as [r0 d0]. injection Hrun as _ <- _. exact Hf.
Qed.

Lemma kcc_ret : forall {A} (a : A), keeps_client_count (ret a).
Proof. intros A a d r d' t H. injection H as _ <- _. reflexivity. Qed.

Lemma kcc_bind : forall {A B} (m : M A) (k : A -> M B),
  keeps_client_count m -> (forall a, keeps_client_count (k a)) ->
  keeps_client_count (bind m k).
Proof.
  intros A B m k Hm Hk d r d' t H. unfold bind in H.
  destruct (m d) as [[[a|e] d1] t1] eqn:Hmd.
  - destruct (k a d1) as [[r2 d2] t2] eqn:Hkd. injection H as _ <- _.
    rewrite (Hk _ _ _ _ _ Hkd). exact (Hm _ _ _ _ Hmd).
  - injection H as _ <- _. exact (Hm _ _ _ _ Hmd).
Qed.

Lemma kcc_for : forall {A} (l : list A) f,
  (forall x, keeps_client_count (f x)) -> keeps_client_count (for_ l f).
Proof.
  intros A l f Hf. induction l as [|x l IH]; simpl.
  - apply kcc_ret.
  - apply kcc_bind; [apply Hf | intros _; exact IH].
Qed.

Lemma kcc_transaction : forall {A} (m : M A),
  keeps_client_count m -> keeps_client_count (transaction m).
Proof.
  intros A m Hm d r d' t H. unfold transaction in H.
  destruct (m d) as [[[a|e] d1] t1] eqn:Hmd; injection H as _ <- _;
    [exact (Hm _ _ _ _ Hmd) | reflexivity].
Qed.

Lemma kcc_try_catch : forall {A B} (m : M A) (ok : A -> B) err,
  keeps_client_count m -> keeps_client_count (try_catch m ok err).
Proof.
  intros A B m ok err Hm d r d' t H. unfold try_catch in H.
  destruct (m d) as [[[a|e] d1] t1] eqn:Hmd; injection H as _ <- _;
    exact (Hm _ _ _ _ Hmd).
Qed.

Ltac kcc_leaf :=
  intros; apply kcc_stmt; intros ?d;
  repeat match goal with
  | |- context [match ?x with _ => _ end] => destruct x
  | |- context [if ?x then _ else _] => destruct x
  end; simpl; try rewrite length_map; reflexivity.

Lemma kcc_ins_service_new : forall ck st, keeps_client_count (ins_service_new ck st).
Proof. unfold ins_service_new. kcc_leaf. Qed.
Lemma kcc_ins_payment_new : forall ck a b c, keeps_client_count (ins_payment_new ck a b c).
Proof. unfold ins_payment_new. kcc_leaf. Qed.
Lemma kcc_ins_txn_new : forall ck a, keeps_client_count (ins_txn_new ck a).
Proof. unfold ins_txn_new. kcc_leaf. Qed.
Lemma kcc_ins_task_new : forall ck a b c, keeps_client_count (ins_task_new ck a b c).
Proof. unfold ins_task_new. kcc_leaf. Qed.
Lemma kcc_ins_service_row : forall r, keeps_client_count (ins_service_row r).
Proof. unfold ins_service_row, ins_row. kcc_leaf. Qed.
Lemma kcc_ins_payment_row : forall r, keeps_client_count (ins_payment_row r).
Proof. unfold ins_payment_row, ins_row. kcc_leaf. Qed.
Lemma kcc_ins_task_row : forall r, keeps_client_count (ins_task_row r).
Proof. unfold ins_task_row, ins_row. kcc_leaf. Qed.
Lemma kcc_upd_client : forall k n e p c no m, keeps_client_count (upd_client k n e p c no m).
Proof. unfold upd_client. kcc_leaf. Qed.
Lemma kcc_upd_payments : forall k a r, keeps_client_count (upd_payments k a r).
Proof. unfold upd_payments. kcc_leaf. Qed.
Lemma kcc_upd_task_status : forall k s, keeps_client_count (upd_task_status k s).
Proof. unfold upd_task_status. kcc_leaf. Qed.
Lemma kcc_del_services_of : forall k, keeps_client_count (del_services_of k).
Proof. unfold del_services_of. kcc_leaf. Qed.
Lemma kcc_del_task : forall k, keeps_client_count (del_task k).
Proof. unfold del_task. kcc_leaf. Qed.
Lemma kcc_sel_payment : forall k, keeps_client_count (sel_payment k).
Proof. unfold sel_payment. kcc_leaf. Qed.
Lemma kcc_del_all_tasks : keeps_client_count del_all_tasks.
Proof. unfold del_all_tasks. kcc_leaf. Qed.
Lemma kcc_del_all_payments : keeps_client_count del_all_payments.
Proof. unfold del_all_payments. kcc_leaf. Qed.
Lemma kcc_del_all_services : keeps_client_count del_all_services.
Proof. unfold del_all_services. kcc_leaf. Qed.

Lemma kcc_throw : forall {A} e, keeps_client_count (@throw A e).
Proof. intros A e d r d' t H. injection H as _ <- _. reflexivity. Qed.

Ltac kcc_solve :=
  repeat first
    [ apply kcc_try_catch | apply kcc_transaction
    | apply kcc_bind; intros | apply kcc_for; intros
    | apply kcc_ret | apply kcc_throw
    | apply kcc_ins_service_new | apply kcc_ins_payment_new | apply kcc_ins_txn_new
    | apply kcc_ins_task_new | apply kcc_ins_service_row | apply kcc_ins_payment_row
    | apply kcc_ins_task_row | apply kcc_upd_client | apply kcc_upd_payments
    | apply kcc_upd_task_status | apply kcc_del_services_of | apply kcc_del_task
    | apply kcc_sel_payment
    | match goal with
      | |- keeps_client_count (match ?x with _ => _ end) => destruct x
      | |- keeps_client_count (if ?x then _ else _) => destruct x
      end
    | progress cbv beta zeta ].

Lemma for_ins_client_row_count : forall l d d' tr,
  for_ l ins_client_row d = (Ok tt, d', tr) ->
  length (rows (clients d')) = (length (rows (clients d)) + length l)%nat.
Proof.
  induction l as [|a l IH]; intros d d' tr H.
  - simpl in H. injection H as <- _. simpl. lia.
  - simpl for_ in H. apply bind_inv in H as ([] & d1 & t1 & t2 & H1 & H2 & _).
    rewrite (IH _ _ _ H2).
    unfold ins_client_row, ins_row, stmt in H1. simpl in H1.
    destruct (tbl_insert (clients d) a) as [t|] eqn:Hins; [|discriminate].
    injection H1 as <- _. simpl. rewrite (tbl_insert_length _ _ _ Hins). simpl. lia.
Qed.

Lemma filter_id_length : forall {R} `{HasId R} k (l : list R),
  StronglySorted Z.lt (map row_id l) ->
  (length (filter (fun c => negb (row_id c =? k)%Z) l) + (if id_in k l then 1 else 0))%nat
  = length l.
Proof.
  intros R HI k l. induction l as [|x l IH]; intros Hs; [reflexivity|].
  simpl in Hs. inversion Hs as [|? ? Hs' Hall]; subst.
  unfold id_in. simpl. destruct (row_id x =? k) eqn:E; simpl.
  - apply Z.eqb_eq in E. subst k.
    rewrite Forall_map in Hall.
    rewrite filter_all_true.
    2:{ intros y Hy. rewrite Forall_forall in Hall. specialize (Hall y Hy).
        destruct (row_id y =? row_id x) eqn:E'; [apply Z.eqb_eq in E'; lia | reflexivity]. }
    lia.
  - specialize (IH Hs'). unfold id_in in IH. lia.
Qed.

(** Extra: the client count reported by [GET /api/health] moves only as
    the writes say: a [POST /api/clients] answered 201 adds one; a
    [DELETE /api/clients/:id] removes one if the client existed and none
    otherwise; a [POST /api/restore] answered 200 leaves exactly as many
    clients as the payload lists; [PATCH /api/clients/:id],
    [PATCH /api/payments/:clientId] and the three task writes never change
    it, whatever their outcome. *)
Theorem health_count : forall d,
  (forall b k, fst (fst (post_clients b d)) = Ok (Resp 201 (BId k)) ->
     get_health (snd (fst (post_clients b d))) = get_health d + 1)
  /\ (wf d = true -> forall k,
     get_health (snd (fst (delete_clients_h k d)))
     = get_health d - (if client_exists d k then 1 else 0))
  /\ (forall p, fst (fst (post_restore p d)) = Ok (Resp 200 BSuccess) ->
     get_health (snd (fst (post_restore p d))) = Z.of_nat (length (RestoreBody.clients p)))
  /\ (forall k b, get_health (snd (fst (patch_clients k b d))) = get_health d)
  /\ (forall k b, get_health (snd (fst (patch_payments k b d))) = get_health d)
  /\ (forall b, get_health (snd (fst (post_tasks b d))) = get_health d)
  /\ (forall k s, get_health (snd (fst (patch_tasks k s d))) = get_health d)
  /\ (forall k, get_health (snd (fst (delete_tasks_h k d))) = get_health d).
Proof.
  intros d. unfold get_health.
  assert (Hkeep : forall (m : M response), keeps_client_count m ->
            Z.of_nat (length (rows (clients (snd (fst (m d))))))
            = Z.of_nat (length (rows (clients d)))).
  { intros m Hm. destruct (m d) as [[r d'] t] eqn:E. simpl. rewrite (Hm _ _ _ _ E).
    reflexivity. }
  split; [|split; [|split]].
  - intros b k H. unfold post_clients, try_catch, transaction in *.
    match goal with |- context [match ?m d with _ => _ end] =>
      destruct (m d) as [[[a|e] d1] t] eqn:Hi end;
      [|simpl in H; unfold err500 in H; congruence].
    simpl. apply bind_inv in Hi as (a0 & d0 & t0 & t2 & H1 & H2 & _).
    match type of H2 with ?m d0 = _ => assert (Hm : keeps_client_count m) end.
    { kcc_solve. }
    rewrite (Hm _ _ _ _ H2).
    unfold ins_client_new, stmt in H1. destruct (CreateBody.name b); [|discriminate].
    cbv zeta in H1.
    match type of H1 with context [tbl_insert ?t ?r] =>
      destruct (tbl_insert t r) as [t'|] eqn:Hins end; [|discriminate].
    injection H1 as _ <- _. simpl. rewrite (tbl_insert_length _ _ _ Hins). lia.
  - intros Hwf k. unfold delete_clients_h, bind, del_client, stmt. simpl.
    destruct (tbl_ok_of_wf d Hwf) as [Hc _]. unfold tbl_ok in Hc.
    apply andb_true_iff in Hc as [Hinc _]. apply incr_strong in Hinc.
    pose proof (filter_id_length k (rows (clients d)) Hinc) as Hl. change (fun c : Client.row => negb (row_id c =? k)%Z) with (fun c : Client.row => negb (Client.id c =? k)%Z) in Hl.
    unfold client_exists. destruct (id_in k (rows (clients d))); lia.
  - intros p H. unfold post_restore, try_catch, transaction in *.
    rewrite restore_body_clear in *.
    destruct (cleared_rows d) as (Ec & _).
    match goal with |- context [?m (cleared d)] =>
      destruct (m (cleared d)) as [[[u|e] d5] t] eqn:Hi end;
      [|simpl in H; unfold err500 in H; congruence].
    simpl. destruct u.
    apply bind_inv in Hi as ([] & d1 & t1 & t1' & H1 & H2 & _).
    match type of H2 with ?m d1 = _ => assert (Hm : keeps_client_count m) end.
    { kcc_solve. }
    rewrite (Hm _ _ _ _ H2), (for_ins_client_row_count _ _ _ _ H1), Ec. reflexivity.
  - repeat split; intros; apply Hkeep;
      first [ unfold patch_clients | unfold patch_payments | unfold post_tasks
            | unfold patch_tasks | unfold delete_tasks_h ]; kcc_solve.
Qed.

Lemma health_count_witness :
  fst (fst (post_clients body1 db1)) = Ok (Resp 201 (BId 2))
  /\ get_health (snd (fst (post_clients body1 db1))) = 2
  /\ wf db1 = true
  /\ get_health (snd (fst (delete_clients_h 1 db1))) = 0.
Proof.
  destruct (health_count db1) as [Hp [Hd _]].
  assert (H1 : fst (fst (post_clients body1 db1)) = Ok (Resp 201 (BId 2))) by (vm_compute; reflexivity).
  assert (Hw : wf db1 = true) by (vm_compute; reflexivity).
  split; [exact H1|]. split.
  - rewrite (Hp body1 2 H1). vm_compute. reflexivity.
  - split; [exact Hw|]. rewrite (Hd Hw 1). vm_compute. reflexivity.
Defined.

(** ** [GET /api/stats] *)

Lemma join_length : forall d cs,
  length (client_payment_join d cs)
  = list_sum (map (fun c => Nat.max 1 (length (filter (refs (Client.id c)) (rows (payments d))))) cs).
Proof.
  intros d cs. unfold client_payment_join.
  induction cs as [|c cs IH]; [reflexivity|].
  cbn [flat_map]. rewrite length_app, IH.
  change (list_sum (map ?g (c :: cs))) with (g c + list_sum (map g cs))%nat.
  f_equal. cbv beta.
  destruct (filter (refs (Client.id c)) (rows (payments d))) as [|p ps]; [reflexivity|].
  rewrite length_map. simpl. lia.
Qed.

(** Extra: the client count of [GET /api/stats] is [COUNT(c.id)] over
    clients LEFT JOIN payments, so it counts join rows: a client with no
    payment row counts once and a client with n >= 1 payment rows counts
    n times.  It is never below the number of clients, and equals it when
    no client has more than one payment row. *)
Theorem get_stats_clients : forall atof d cutoff,
  clients_value (get_stats atof d cutoff)
  = Z.of_nat (list_sum (map (fun c =>
      Nat.max 1 (length (filter (refs (Client.id c)) (rows (payments d)))))
      (rows (clients d))))
  /\ Z.of_nat (length (rows (clients d))) <= clients_value (get_stats atof d cutoff)
  /\ ((forall c, In c (rows (clients d)) ->
         (length (filter (refs (Client.id c)) (rows (payments d))) <= 1)%nat) ->
      clients_value (get_stats atof d cutoff) = Z.of_nat (length (rows (clients d)))).
Proof.
  intros atof d cutoff. unfold get_stats. cbn [clients_value]. rewrite join_length.
  split; [reflexivity|]. split.
  - apply Nat2Z.inj_le. induction (rows (clients d)) as [|c cs IH]; [simpl; lia|].
    change (list_sum (map ?g (c :: cs))) with (g c + list_sum (map g cs))%nat.
    cbn [length]. cbv beta. lia.
  - intros H. f_equal. induction (rows (clients d)) as [|c cs IH]; [reflexivity|].
    change (list_sum (map ?g (c :: cs))) with (g c + list_sum (map g cs))%nat.
    cbn [length]. cbv beta.
    rewrite IH by (intros c' Hc'; apply H; right; exact Hc').
    specialize (H c (or_introl eq_refl)). lia.
Qed.

Lemma get_stats_clients_witness :
  clients_value (get_stats atof_nearest db1 "2026-10-01T00:00:00.000Z") = 1.
Proof.
  destruct (get_stats_clients atof_nearest db1 "2026-10-01T00:00:00.000Z") as (_ & _ & H).
  rewrite H; [vm_compute; reflexivity|].
  intros c Hc. vm_compute in Hc. destruct Hc as [<-|[]]. vm_compute. lia.
Defined.

(** ** The AUTOINCREMENT counter of [clients] *)

Section KeepsRel.
Context (P : db -> db -> Prop) `{P_refl : Reflexive db P} `{P_trans : Transitive db P}.

Lemma kr_stmt : forall {A} g (f : db -> result A * db),
  (forall d, P d (snd (f d))) -> keeps_rel P (stmt g f).
Proof.
  intros A g f Hf d r d' t Hrun. unfold stmt in Hrun.
  specialize (Hf d). destruct (f d) as [r0 d0]. injection Hrun as _ <- _. exact Hf.
Qed.

Lemma kr_ret : forall {A} (a : A), keeps_rel P (ret a).
Proof. intros A a d r d' t H. injection H as _ <- _. reflexivity. Qed.

Lemma kr_throw : forall {A} e, keeps_rel P (@throw A e).
Proof. intros A e d r d' t H. injection H as _ <- _. reflexivity. Qed.

Lemma kr_bind : forall {A B} (m : M A) (k : A -> M B),
  keeps_rel P m -> (forall a, keeps_rel P (k a)) -> keeps_rel P (bind m k).
Proof.
  intros A B m k Hm Hk d r d' t H. unfold bind in H.
  destruct (m d) as [[[a|e] d1] t1] eqn:Hmd.
  - destruct (k a d1) as [[r2 d2] t2] eqn:Hkd. injection H as _ <- _.
    transitivity d1; [exact (Hm _ _ _ _ Hmd) | exact (Hk _ _ _ _ _ Hkd)].
  - injection H as _ <- _. exact (Hm _ _ _ _ Hmd).
Qed.

Lemma kr_for : forall {A} (l : list A) f,
  (forall x, keeps_rel P (f x)) -> keeps_rel P (for_ l f).
Proof.
  intros A l f Hf. induction l as [|x l IH]; simpl.
  - apply kr_ret.
  - apply kr_bind; [apply Hf | intros _; exact IH].
Qed.

Lemma kr_transaction : forall {A} (m : M A), keeps_rel P m -> keeps_rel P (transaction m).
Proof.
  intros A m Hm d r d' t H. unfold transaction in H.
  destruct (m d) as [[[a|e] d1] t1] eqn:Hmd; injection H as _ <- _;
    [exact (Hm _ _ _ _ Hmd) | reflexivity].
Qed.

Lemma kr_try_catch : forall {A B} (m : M A) (ok : A -> B) err,
  keeps_rel P m -> keeps_rel P (try_catch m ok err).
Proof.
  intros A B m ok err Hm d r d' t H. unfold try_catch in H.
  destruct (m d) as [[[a|e] d1] t1] eqn:Hmd; injection H as _ <- _;
    exact (Hm _ _ _ _ Hmd).
Qed.
End KeepsRel.

Ltac kr_leaf :=
  intros; apply kr_stmt; intros ?d; unfold client_seq_le, tbl_insert; cbv zeta;
  repeat match goal with
  | |- context [id_in ?a ?b] => destruct (id_in a b)
  | |- context [match ?x with _ => _ end] => destruct x
  | |- context [if ?x then _ else _] => destruct x
  end; simpl; lia.


Lemma csl_ins_client_new : forall n e p c no m,
  keeps_rel client_seq_le (ins_client_new n e p c no m).
Proof. unfold ins_client_new. kr_leaf. Qed.
Lemma csl_ins_client_row : forall r, keeps_rel client_seq_le (ins_client_row r).
Proof. unfold ins_client_row, ins_row. kr_leaf. Qed.
Lemma csl_ins_service_new : forall ck st, keeps_rel client_seq_le (ins_service_new ck st).
Proof. unfold ins_service_new. kr_leaf. Qed.
Lemma csl_ins_payment_new : forall ck a b c,
  keeps_rel client_seq_le (ins_payment_new ck a b c).
Proof. unfold ins_payment_new. kr_leaf. Qed.
Lemma csl_ins_txn_new : forall ck a, keeps_rel client_seq_le (ins_txn_new ck a).
Proof. unfold ins_txn_new. kr_leaf. Qed.
Lemma csl_ins_task_new : forall ck a b c, keeps_rel client_seq_le (ins_task_new ck a b c).
Proof. unfold ins_task_new. kr_leaf. Qed.
Lemma csl_ins_service_row : forall r, keeps_rel client_seq_le (ins_service_row r).
Proof. unfold ins_service_row, ins_row. kr_leaf. Qed.
Lemma csl_ins_payment_row : forall r, keeps_rel client_seq_le (ins_payment_row r).
Proof. unfold ins_payment_row, ins_row. kr_leaf. Qed.
Lemma csl_ins_task_row : forall r, keeps_rel client_seq_le (ins_task_row r).
Proof. unfold ins_task_row, ins_row. kr_leaf. Qed.
Lemma csl_upd_client : forall k n e p c no m,
  keeps_rel client_seq_le (upd_client k n e p c no m).
Proof. unfold upd_client. kr_leaf. Qed.
Lemma csl_upd_payments : forall k a r, keeps_rel client_seq_le (upd_payments k a r).
Proof. unfold upd_payments. kr_leaf. Qed.
Lemma csl_upd_task_status : forall k s, keeps_rel client_seq_le (upd_task_status k s).
Proof. unfold upd_task_status. kr_leaf. Qed.
Lemma csl_del_services_of : forall k, keeps_rel client_seq_le (del_services_of k).
Proof. unfold del_services_of. kr_leaf. Qed.
Lemma csl_del_task : forall k, keeps_rel client_seq_le (del_task k).
Proof. unfold del_task. kr_leaf. Qed.
Lemma csl_sel_payment : forall k, keeps_rel client_seq_le (sel_payment k).
Proof. unfold sel_payment. kr_leaf. Qed.
Lemma csl_del_client : forall k, keeps_rel client_seq_le (del_client k).
Proof. unfold del_client. kr_leaf. Qed.
Lemma csl_del_all_tasks : keeps_rel client_seq_le del_all_tasks.
Proof. unfold del_all_tasks. kr_leaf. Qed.
Lemma csl_del_all_payments : keeps_rel client_seq_le del_all_payments.
Proof. unfold del_all_payments. kr_leaf. Qed.
Lemma csl_del_all_services : keeps_rel client_seq_le del_all_services.
Proof. unfold del_all_services. kr_leaf. Qed.
Lemma csl_del_all_clients : keeps_rel client_seq_le del_all_clients.
Proof. unfold del_all_clients. kr_leaf. Qed.

Ltac csl_solve :=
  repeat first
    [ apply kr_try_catch | apply kr_transaction
    | apply kr_bind; intros | apply kr_for; intros
    | apply kr_ret | apply kr_throw
    | apply csl_ins_client_new | apply csl_ins_client_row
    | apply csl_ins_service_new | apply csl_ins_payment_new | apply csl_ins_txn_new
    | apply csl_ins_task_new | apply csl_ins_service_row | apply csl_ins_payment_row
    | apply csl_ins_task_row | apply csl_upd_client | apply csl_upd_payments
    | apply csl_upd_task_status | apply csl_del_services_of | apply csl_del_task
    | apply csl_sel_payment | apply csl_del_client
    | apply csl_del_all_tasks | apply csl_del_all_payments
    | apply csl_del_all_services | apply csl_del_all_clients
    | exact client_seq_le_refl | exact client_seq_le_trans
    | match goal with
      | |- keeps_rel _ (match ?x with _ => _ end) => destruct x
      | |- keeps_rel _ (if ?x then _ else _) => destruct x
      end
    | progress cbv beta zeta ].

Lemma fold_max_le : forall l a, Forall (fun x => x <= a) l -> fold_left Z.max l a = a.
Proof.
  induction l as [|x l IH]; intros a H; [reflexivity|].
  inversion H as [|? ? Hx Hl]; subst. simpl.
  rewrite Z.max_l by exact Hx. apply IH, Hl.
Qed.

Lemma next_id_seq : forall {R} `{HasId R} (t : table R),
  tbl_ok t = true -> next_id t = seq t + 1.
Proof.
  intros R HI t Ht. unfold tbl_ok in Ht. apply andb_true_iff in Ht as [_ Hle].
  unfold next_id. rewrite fold_max_le; [lia|].
  apply Forall_map, Forall_forall. intros x Hx.
  rewrite forallb_forall in Hle. apply Z.leb_le, Hle, Hx.
Qed.

Lemma post_clients_new_id : forall d b k,
  fst (fst (post_clients b d)) = Ok (Resp 201 (BId k)) ->
  k = next_id (clients d) /\ k <= seq (clients (snd (fst (post_clients b d)))).
Proof.
  intros d b k H. unfold post_clients, try_catch, transaction in *.
  match goal with |- context [match ?m d with _ => _ end] =>
    destruct (m d) as [[[a|e] d1] t] eqn:Hi end;
    [|simpl in H; unfold err500 in H; congruence].
  simpl in H |- *. injection H as ->.
  apply bind_inv in Hi as (a0 & d0 & t0 & t2 & H1 & H2 & _).
  unfold ins_client_new, stmt in H1. destruct (CreateBody.name b); [|discriminate].
  cbv zeta in H1.
  match type of H1 with context [tbl_insert ?t ?r] =>
    destruct (tbl_insert t r) as [t'|] eqn:Hins end; [|discriminate].
  injection H1 as <- <- _.
  apply bind_inv in H2 as ([] & d2 & t3 & t4 & H3 & H4 & _).
  apply bind_inv in H4 as ([] & d4 & t5 & t6 & H5 & H6 & _).
  injection H6 as Hk <- _. subst k.
  match type of H3 with ?m _ = _ => assert (Hm3 : keeps_rel client_seq_le m) end.
  { csl_solve. }
  assert (Hm5 : keeps_rel client_seq_le
                  (ins_payment_new (Some (next_id (clients d))) (CreateBody.total_amount b)
                     (CreateBody.advance_paid b)
                     (CreateBody.total_amount b - CreateBody.advance_paid b))).
  { csl_solve. }
  pose proof (Hm3 _ _ _ _ H3) as L3. pose proof (Hm5 _ _ _ _ H5) as L5.
  unfold client_seq_le in L3, L5. simpl in L3.
  unfold tbl_insert in Hins. destruct (id_in _ _); [discriminate|].
  injection Hins as <-. simpl in L3. split; [reflexivity|].
  eapply Z.le_trans; [|exact L5]. eapply Z.le_trans; [|exact L3]. apply Z.le_max_r.
Qed.



(** ** [GET /api/clients] *)

Lemma created_desc_total : forall atof a b,
  created_desc atof a b = false -> created_desc atof b a = true.
Proof.
  intros atof a b H. unfold created_desc in *.
  rewrite (cmp_opt_antisym atof (Client.created_at (v_client b))).
  destruct (cmp_opt atof (Client.created_at (v_client a)) (Client.created_at (v_client b)));
    simpl; try discriminate; reflexivity.
Qed.

Lemma length_insert_by : forall {A} (le : A -> A -> bool) x l,
  length (insert_by le x l) = S (length l).
Proof.
  intros A le x l. induction l as [|y l IH]; simpl; [reflexivity|].
  destruct (le x y); simpl; [reflexivity | rewrite IH; reflexivity].
Qed.

Lemma length_isort : forall {A} (le : A -> A -> bool) l, length (isort le l) = length l.
Proof.
  intros A le l. induction l as [|x l IH]; simpl; [reflexivity|].
  rewrite length_insert_by, IH. reflexivity.
Qed.


(** ** Writes on a client id that does not exist *)

Lemma tbl_filter_all : forall {R} `{HasId R} (p : R -> bool) (t : table R),
  (forall x, In x (rows t) -> p x = true) -> tbl_filter p t = t.
Proof.
  intros R HI p [l s] H. unfold tbl_filter. simpl in *.
  rewrite filter_all_true by exact H. reflexivity.
Qed.

Lemma delete_missing : forall d k, client_exists d k = false ->
  delete_clients_where (fun c => Client.id c =? k) d = d.
Proof.
  intros d k Hk. unfold client_exists in Hk.
  assert (Hne : forall c, In c (rows (clients d)) -> (Client.id c =? k) = false).
  { intros c Hc. destruct (Client.id c =? k) eqn:E; [|reflexivity].
    rewrite <- Hk. symmetry. apply id_in_iff. exists c. split; [exact Hc|].
    apply Z.eqb_eq, E. }
  assert (Hgone : forall k', existsb (fun c => (Client.id c =? k) && (Client.id c =? k'))
                               (rows (clients d)) = false).
  { intros k'. apply Bool.not_true_iff_false. intros Hex.
    apply existsb_exists in Hex as [c [Hc Hc']]. rewrite (Hne c Hc) in Hc'.
    discriminate. }
  assert (Hr : forall {R} `{HasClient R} (r : R),
            negb (refs_some (fun k' => existsb (fun c => (Client.id c =? k) && (Client.id c =? k'))
                                        (rows (clients d))) r) = true).
  { intros R HC r. unfold refs_some. destruct (row_client r); [rewrite Hgone|]; reflexivity. }
  destruct d as [c s p t x clk]. unfold delete_clients_where. simpl in *.
  rewrite !tbl_filter_all; try (intros; apply Hr); [reflexivity|].
  intros y Hy. rewrite (Hne y Hy). reflexivity.
Qed.

(** Extra: a write on a client id that does not exist changes nothing.
    [DELETE /api/clients/:id] still answers 204 (after one DELETE
    statement).  In a reachable state, [PATCH /api/clients/:id] leaves the
    database as it was; it answers 200 when [services] is absent or empty,
    and otherwise 500: the first service insert fails on NOT NULL if its
    type is null, and on the foreign key if not. *)
Theorem missing_client_writes : forall d k, client_exists d k = false ->
  delete_clients_h k d = (Ok (Resp 204 BEmpty), d, [(ODel, TClients)])
  /\ (wf d = true -> forall b,
        snd (fst (patch_clients k b d)) = d
        /\ fst (fst (patch_clients k b d))
           = match UpdateBody.services b with
             | None | Some [] => Ok (Resp 200 BSuccess)
             | Some (None :: _) => Ok (err500 (not_null_err "services.service_type"))
             | Some (Some _ :: _) => Ok (err500 fk_err)
             end).
Proof.
  intros d k Hk. split.
  - unfold delete_clients_h, bind, del_client, stmt. simpl.
    rewrite (delete_missing d k Hk). reflexivity.
  - intros Hwf b. destruct (fk_of_wf d Hwf) as [Hfs _].
    assert (Hupd : upd_client k (UpdateBody.name b) (UpdateBody.email b)
                     (UpdateBody.phone b) (UpdateBody.company b) (UpdateBody.notes b)
                     (UpdateBody.managed_by b) d = (Ok tt, d, [(OUpd, TClients)])).
    { unfold upd_client, stmt. rewrite Hk. reflexivity. }
    assert (Hdel : del_services_of k d = (Ok tt, d, [(ODel, TServices)])).
    { unfold del_services_of, stmt. rewrite tbl_filter_all; [apply f_equal2; [|reflexivity]|].
      - destruct d; reflexivity.
      - intros x Hx. rewrite (fk_no_ref d k _ Hfs Hk x Hx). reflexivity. }
    unfold patch_clients, try_catch, transaction.
    rewrite (bind_ok _ _ _ _ _ _ Hupd). cbv beta.
    destruct (UpdateBody.services b) as [[|[st|] l]|]; cbv iota.
    + rewrite (bind_ok _ _ _ _ _ _ Hdel). cbv beta. simpl. split; reflexivity.
    + assert (Hi : (ins_service_new (Some k) (Some st) ;;;
                     for_ l (fun service => ins_service_new (Some k) service)) d
                    = (Err fk_err, d, [(OIns, TServices)])).
      { unfold bind, ins_service_new at 1, stmt at 1. simpl fk_ok. rewrite Hk.
        reflexivity. }
      rewrite (bind_ok _ _ _ _ _ _ Hdel). cbv beta. simpl for_. rewrite Hi.
      simpl. split; reflexivity.
    + assert (Hi : (ins_service_new (Some k) None ;;;
                     for_ l (fun service => ins_service_new (Some k) service)) d
                    = (Err (not_null_err "services.service_type"), d, [(OIns, TServices)])).
      { reflexivity. }
      rewrite (bind_ok _ _ _ _ _ _ Hdel). cbv beta. simpl for_. rewrite Hi.
      simpl. split; reflexivity.
    + simpl. split; reflexivity.
Qed.

Lemma missing_client_writes_witness :
  client_exists db1 7 = false /\ wf db1 = true
  /\ snd (fst (patch_clients 7 (UpdateBody.mk (Some "X") None None None None
                                  (Some [Some "SEO"]) None) db1)) = db1.
Proof.
  assert (Hk : client_exists db1 7 = false) by (vm_compute; reflexivity).
  assert (Hw : wf db1 = true) by (vm_compute; reflexivity).
  split; [exact Hk|]. split; [exact Hw|].
  destruct (missing_client_writes db1 7 Hk) as [_ H].
  exact (proj1 (H Hw _)).
Defined.

(** ** The pending-task count of [GET /api/clients] *)

Lemma pending_tasks_of_eq : forall d k,
  pending_tasks_of d k = Z.of_nat (length (filter (pending_of k) (rows (tasks d)))).
Proof. reflexivity. Qed.

Lemma length_filter_filter : forall {A} (P Q : A -> bool) l,
  length (filter P (filter Q l)) = length (filter (fun x => P x && Q x) l).
Proof.
  intros A P Q l. induction l as [|x l IH]; simpl; [reflexivity|].
  destruct (Q x); simpl; destruct (P x); simpl; rewrite ?IH; reflexivity.
Qed.

Lemma length_filter_map : forall {A} (P : A -> bool) (f : A -> A) (l : list A),
  length (filter P (map f l)) = length (filter (fun x => P (f x)) l).
Proof.
  intros A P f l. induction l as [|x l IH]; simpl; [reflexivity|].
  destruct (P (f x)); simpl; rewrite IH; reflexivity.
Qed.

Lemma count_split : forall (P : Task.row -> bool) j l,
  StronglySorted Z.lt (map row_id l) ->
  length (filter P l)
  = (length (filter (fun t => P t && negb (Task.id t =? j)%Z) l)
     + (if existsb (fun t => (Task.id t =? j)%Z && P t) l then 1 else 0))%nat.
Proof.
  intros P j l. induction l as [|x l IH]; intros Hs; [reflexivity|].
  simpl in Hs. inversion Hs as [|? ? Hs' Hall]; subst. specialize (IH Hs').
  assert (Hnone : Task.id x = j ->
                  existsb (fun t => (Task.id t =? j) && P t) l = false).
  { intros <-. apply Bool.not_true_iff_false. intros Hex.
    apply existsb_exists in Hex as [y [Hy Hy']]. apply andb_true_iff in Hy' as [Hy' _].
    apply Z.eqb_eq in Hy'. rewrite Forall_map, Forall_forall in Hall.
    specialize (Hall y Hy). unfold row_id, task_id_inst in Hall. lia. }
  simpl. destruct (Task.id x =? j) eqn:E; simpl.
  - apply Z.eqb_eq in E. rewrite (Hnone E) in IH. rewrite (Hnone E).
    destruct (P x); simpl; lia.
  - destruct (P x); simpl; lia.
Qed.


